(** * keyword-search-monitor: the dedup and notification pipeline

    A shallow embedding of [google_search_tool.py], [run_keywords.py] and
    [send_telegram_pending.py], and the properties of the pipeline they
    implement: search per keyword, append to the day's history, record new
    urls in the activity store, reconcile the notification queue and send.

    How the program is modelled:
    - a Python dict with string keys is a finite map [gmap string value]; a
      value is [None], a boolean or a string;
    - the dicts of [bot_list] are shared with [pending], through which the
      sending loop sets their flag: an element of [pending] is the position
      of its dict in [bot_list], and the loop updates [bot_list] there;
    - a file is what reading and decoding it gives: absent, blank,
      unparseable, or a decoded document; for the two stores a document is a
      list of dicts or a value that is not a list;
    - the environment, the files and the trace of everything a run does
      (requests with their outcomes, printed lines, file writes, pauses) make
      up the [world]; code runs in a state-and-exception monad over it;
    - the servers are a function from the trace so far and a request to an
      outcome, and every property holds for every such function;
    - the clock reading of a run is an argument of its [main]. *)

From Stdlib Require Import ZArith String Ascii List Lia.
From stdpp Require Import base decidable countable option list strings gmap pretty.

Import ListNotations.
#[local] Set Warnings "-clear-no-such-hyp".
Local Open Scope string_scope.
Local Open Scope list_scope.
Local Open Scope Z_scope.

(** ** Python values and dicts *)

(** The values the stored entries hold: [None], booleans and strings.
    Numbers and nested containers never occur in an entry the program
    writes; documents that hold them are outside this model. *)
Inductive value : Type :=
| VNone
| VBool (b : bool)
| VStr (s : string).

#[global] Instance value_eq_dec : EqDecision value.
Proof. solve_decision. Defined.

#[global] Instance value_countable : Countable value.
Proof.
  refine (inj_countable'
            (fun v => match v with
                      | VNone => inl ()
                      | VBool b => inr (inl b)
                      | VStr s => inr (inr s)
                      end)
            (fun x => match x with
                      | inl _ => VNone
                      | inr (inl b) => VBool b
                      | inr (inr s) => VStr s
                      end) _).
  by intros [].
Defined.

(** A dict with string keys. *)
Abbreviation dict := (gmap string value).

(** [d.get(k)] and [d.get(k, default)]. *)
Definition get (d : dict) (k : string) : value := default VNone (d !! k).
Definition get_or (d : dict) (k : string) (dflt : value) : value :=
  default dflt (d !! k).

(** Truthiness, as [if v] / [not v] test it. *)
Definition truthy (v : value) : bool :=
  match v with
  | VNone => false
  | VBool b => b
  | VStr s => negb (String.eqb s "")
  end.

(** [str(v)], as an f-string renders a value. *)
Definition py_str (v : value) : string :=
  match v with
  | VNone => "None"
  | VBool true => "True"
  | VBool false => "False"
  | VStr s => s
  end.

(** [v is False]. *)
Definition is_False (v : value) : bool :=
  match v with
  | VBool false => true
  | _ => false
  end.

(** [s[:n]] on a string. *)
Definition py_prefix (n : nat) (s : string) : string := substring 0 n s.

(** [c * n] for a one-character string. *)
Fixpoint py_repeat (c : string) (n : nat) : string :=
  match n with
  | O => ""
  | S n' => c +:+ py_repeat c n'
  end.

(** [str(n)] for an integer. *)
Definition str_Z (z : Z) : string := pretty z.
Definition str_nat (n : nat) : string := pretty n.

Definition nl : string := String (ascii_of_nat 10) "".

(** ** The outside world: network, files, environment *)

(** The three HTTP calls the program makes.  The URL is fixed per call; the
    fields are the query parameters (or the JSON payload) that vary. *)
Inductive request : Type :=
| SerpApiGet (q api_key : string) (num start : Z)
| GoogleCseGet (key cx q : string) (num start : Z) (lr : option string)
| TelegramPost (bot_token chat_id text : string).

(** What the program reads of a decoded JSON response body. *)
Record json_body : Type := {
  organic_results : list dict;     (* data.get("organic_results", []) *)
  serpapi_next_link : bool;        (* truth of serpapi_pagination.next_link *)
  total_results : option Z;        (* int(searchInformation.totalResults), when present *)
  items : list dict;               (* data.get("items", []) *)
  next_page : bool;                (* truth of queries.nextPage *)
  description : option string      (* the "description" key, when present *)
}.

Record response : Type := {
  status_code : Z;
  text : string;
  json : string + json_body        (* r.json(): raises with this message, or decodes *)
}.

(** [requests.get] / [requests.post] either raise (left, with [str(e)]) or
    return a response. *)
Definition outcome : Type := string + response.

Inductive file_id : Type :=
| HistoryFile (name : string)
| ActivityFile
| TelegramBotFile.

(** Everything observable a run does, in order. *)
Inductive event : Type :=
| ERequest (r : request) (o : outcome)
| EPrint (s : string)
| EWrite (f : file_id)
| ESleep.

(** A stored document, as reading and decoding it would find it: empty or
    whitespace only, text the JSON decoder rejects, or a decoded value. *)
Inductive stored (A : Type) : Type :=
| Blank
| Unparseable
| Parsed (a : A).
Arguments Blank {A}.
Arguments Unparseable {A}.
Arguments Parsed {A} a.

(** A decoded activity or notification document: a list of objects, or a
    value that is not a list and cannot be iterated (number, boolean, null). *)
Inductive json_doc : Type :=
| JList (l : list dict)
| JScalar.

(** results_by_keyword: a dict in insertion order. *)
Abbreviation results_map := (list (string * list dict)).

Record run_record : Type := { run_at : string; results : results_map }.
Record day_file : Type := { date : string; runs : list run_record }.

(** config.json: [cfg_keywords] is [None] when the key is missing or not a
    list, [cfg_results_per_keyword] is [None] when missing or not a number. *)
Record config : Type := {
  cfg_keywords : option (list string);
  cfg_results_per_keyword : option Z
}.

Record world : Type := {
  script_dir : string;                           (* os.path.dirname(__file__) *)
  environ : gmap string string;                  (* os.environ after load_dotenv() *)
  config_file : option (stored config);
  history_files : gmap string (stored day_file); (* output/history/<name> *)
  activity_file : option (stored json_doc);      (* output/activity.json *)
  telegram_bot_file : option (stored json_doc);  (* output/telegram_bot.json *)
  trace : list event
}.

Definition set_trace (t : list event) (w : world) : world :=
  {| script_dir := script_dir w; environ := environ w;
     config_file := config_file w; history_files := history_files w;
     activity_file := activity_file w;
     telegram_bot_file := telegram_bot_file w; trace := t |}.

Definition log (ev : event) (w : world) : world :=
  set_trace (trace w ++ [ev]) w.

Definition set_history (name : string) (d : day_file) (w : world) : world :=
  {| script_dir := script_dir w; environ := environ w;
     config_file := config_file w;
     history_files := <[name := Parsed d]> (history_files w);
     activity_file := activity_file w;
     telegram_bot_file := telegram_bot_file w; trace := trace w |}.

Definition set_activity (l : list dict) (w : world) : world :=
  {| script_dir := script_dir w; environ := environ w;
     config_file := config_file w; history_files := history_files w;
     activity_file := Some (Parsed (JList l));
     telegram_bot_file := telegram_bot_file w; trace := trace w |}.

Definition set_telegram_bot (l : list dict) (w : world) : world :=
  {| script_dir := script_dir w; environ := environ w;
     config_file := config_file w; history_files := history_files w;
     activity_file := activity_file w;
     telegram_bot_file := Some (Parsed (JList l)); trace := trace w |}.

(** [json.dump] into a file opened for writing: the document is replaced
    whole, and the write is recorded. *)
Definition write_history (name : string) (d : day_file) (w : world) : world :=
  log (EWrite (HistoryFile name)) (set_history name d w).

Definition write_activity (l : list dict) (w : world) : world :=
  log (EWrite ActivityFile) (set_activity l w).

Definition write_telegram_bot (l : list dict) (w : world) : world :=
  log (EWrite TelegramBotFile) (set_telegram_bot l w).

(** ** Exceptions and the state-and-exception monad *)

Inductive exn : Type :=
| ValueError (msg : string)
| RuntimeError (msg : string)
| JSONDecodeError
| KeyError (key : string)
| TypeError
| RequestException (msg : string)
| SystemExit (msg : string).

(** [str(e)] in an f-string.  Only the messages of [ValueError] and
    [RuntimeError] are ever printed: these are the exceptions [main] catches
    around a search. *)
Definition str_exn (e : exn) : string :=
  match e with
  | ValueError m | RuntimeError m | RequestException m | SystemExit m => m
  | JSONDecodeError => "JSONDecodeError"
  | KeyError k => "'" +:+ k +:+ "'"
  | TypeError => "TypeError"
  end.

Inductive result (A : Type) : Type :=
| Ok (a : A)
| Raise (e : exn).
Arguments Ok {A} a.
Arguments Raise {A} e.

(** A computation over state [S] that returns or raises; effects made before
    a raise stay. *)
Definition SE (S A : Type) : Type := S → result A * S.

Definition ret {S A} (a : A) : SE S A := λ s, (Ok a, s).
Definition raise {S A} (e : exn) : SE S A := λ s, (Raise e, s).
Definition bind {S A B} (m : SE S A) (k : A → SE S B) : SE S B :=
  λ s, match m s with
       | (Ok a, s') => k a s'
       | (Raise e, s') => (Raise e, s')
       end.

(** try: [m] except <the exceptions [catches] accepts> as e: [h e]. *)
Definition try_except {S A} (m : SE S A) (catches : exn → bool)
    (h : exn → SE S A) : SE S A :=
  λ s, match m s with
       | (Ok a, s') => (Ok a, s')
       | (Raise e, s') => if catches e then h e s' else (Raise e, s')
       end.

Declare Scope se_scope.
Delimit Scope se_scope with se.
Notation "'let*' x ':=' m 'in' k" := (bind m (λ x, k))
  (at level 10, x name, m at level 100, k at level 200) : se_scope.
Notation "'let*' ' pat ':=' m 'in' k" :=
  (bind m (λ x, match x with pat => k end))
  (at level 10, pat pattern, m at level 100, k at level 200) : se_scope.
Notation "m ;; k" := (bind m (λ _, k))
  (at level 100, k at level 200, right associativity) : se_scope.
Local Open Scope se_scope.

(** A loop over a list that threads an accumulator. *)
Fixpoint for_each {S A B} (f : A → B → SE S A) (l : list B) (a : A) : SE S A :=
  match l with
  | [] => ret a
  | b :: l' => let* a' := f a b in for_each f l' a'
  end.

Abbreviation NetM := (SE (list event)).
Abbreviation M := (SE world).

(** Run a network computation inside the world. *)
Definition lift_net {A} (m : NetM A) : M A :=
  λ w, let '(r, t) := m (trace w) in (r, set_trace t w).

Definition print (s : string) : M unit := λ w, (Ok tt, log (EPrint s) w).
Definition sleep : M unit := λ w, (Ok tt, log ESleep w).
Definition read {A} (f : world → A) : M A := λ w, (Ok (f w), w).
Definition modify (f : world → world) : M unit := λ w, (Ok tt, f w).

(** [json.load] of a stored document. *)
Definition json_load {S A} (d : stored A) : SE S A :=
  match d with
  | Blank | Unparseable => raise JSONDecodeError
  | Parsed a => ret a
  end.

(** [d[k]]. *)
Definition getitem {S} (d : dict) (k : string) : SE S value :=
  match d !! k with
  | Some v => ret v
  | None => raise (KeyError k)
  end.

(** [a or b] and truth of an optional string ([None] and [""] are false). *)
Definition truthy_str (o : option string) : bool :=
  match o with
  | Some s => negb (String.eqb s "")
  | None => false
  end.
Definition py_or (a b : option string) : option string :=
  if truthy_str a then a else b.

Section Program.

(** The servers on the other side of the network: what a request gets back,
    given everything that has happened so far. *)
Context (server : list event → request → outcome).

Definition requests_send (req : request) : NetM outcome :=
  λ t, let o := server t req in (Ok o, t ++ [ERequest req o]).

(** [requests.get(...)]: an exception of [requests] propagates. *)
Definition requests_get (req : request) : NetM response :=
  let* o := requests_send req in
  match o with
  | inl msg => raise (RequestException msg)
  | inr resp => ret resp
  end.

(** [resp.json()]: its decode error is a [ValueError]. *)
Definition resp_json (resp : response) : NetM json_body :=
  match json resp with
  | inl msg => raise (ValueError msg)
  | inr data => ret data
  end.

(** ** google_search_tool.py *)

Definition RESULTS_PER_REQUEST : Z := 10.

Definition len {A} (l : list A) : Z := Z.of_nat (length l).

(** The [for item in ...] loop of both clients: append each item with a
    link not yet among the results, stop once [num_results] are there.
    [display_key] is the item key read for "display_link". *)
Fixpoint collect_items (display_key : string) (num_results : Z)
    (its : list dict) (results : list dict) : list dict :=
  match its with
  | [] => results
  | item :: its' =>
      let link := get item "link" in
      let results :=
        if truthy link && negb (bool_decide (link ∈ (λ r, get r "link") <$> results))
        then results ++ [ {[ "link" := link;
                             "title" := get_or item "title" (VStr "");
                             "snippet" := get_or item "snippet" (VStr "");
                             "display_link" := get_or item display_key (VStr "") ]} ]
        else results in
      if len results >=? num_results then results
      else collect_items display_key num_results its' results
  end.

(** The [while len(results) < num_results] loop of [_search_serpapi]; ten
    iterations reach [start >= 100]. *)
Fixpoint serpapi_loop (fuel : nat) (keyword : string) (num_results : Z)
    (api_key : string) (num start : Z) (results : list dict)
    : NetM (list dict) :=
  if len results <? num_results then
    match fuel with
    | O => ret results
    | S fuel' =>
        let* resp := requests_get (SerpApiGet keyword api_key num start) in
        if negb (status_code resp =? 200) then
          raise (RuntimeError ("SerpAPI error " +:+ str_Z (status_code resp)
                               +:+ ": " +:+ text resp))
        else
          let* data := resp_json resp in
          let results :=
            collect_items "displayed_link" num_results
              (organic_results data) results in
          if len results >=? num_results then ret results
          else
            let start := start + num in
            if (start >=? 100) || negb (serpapi_next_link data)
            then ret results
            else serpapi_loop fuel' keyword num_results api_key num start results
    end
  else ret results.

Definition _search_serpapi (keyword : string) (num_results : Z)
    (api_key : string) : NetM (list dict) :=
  let num := Z.min 20 (Z.max 10 num_results) in
  let* results := serpapi_loop 10 keyword num_results api_key num 0 [] in
  ret (take (Z.to_nat num_results) results).

(** The loop of [_search_google_cse]; [start_index] grows by at least one
    per iteration and stops the loop above 100. *)
Fixpoint google_cse_loop (fuel : nat) (keyword : string) (num_results : Z)
    (api_key search_engine_id lang : string) (start_index : Z)
    (results : list dict) : NetM (list dict) :=
  if len results <? num_results then
    match fuel with
    | O => ret results
    | S fuel' =>
        let count := Z.min RESULTS_PER_REQUEST (num_results - len results) in
        let lr := if negb (String.eqb lang "") then Some lang else None in
        let* resp :=
          requests_get (GoogleCseGet api_key search_engine_id keyword
                          count start_index lr) in
        if negb (status_code resp =? 200) then
          raise (RuntimeError ("Google Custom Search API error "
                               +:+ str_Z (status_code resp) +:+ ": " +:+ text resp))
        else
          let* data := resp_json resp in
          if match total_results data with
             | Some total => total =? 0
             | None => false
             end
          then ret results
          else
            let results :=
              collect_items "displayLink" num_results (items data) results in
            if len results >=? num_results then ret results
            else
              let start_index := start_index + count in
              if (start_index >? 100) || negb (next_page data)
              then ret results
              else google_cse_loop fuel' keyword num_results api_key
                     search_engine_id lang start_index results
    end
  else ret results.

Definition _search_google_cse (keyword : string) (num_results : Z)
    (api_key search_engine_id lang : string) : NetM (list dict) :=
  let* results :=
    google_cse_loop 100 keyword num_results api_key search_engine_id lang 1 [] in
  ret (take (Z.to_nat num_results) results).

Definition search_google (keyword : string) (num_results : Z)
    (api_key search_engine_id : option string) (lang : string)
    (use_serpapi : option bool) (serpapi_key : option string)
    : M (list dict) :=
  if num_results <=? 0 then ret []
  else
    let* env := read environ in
    let serp_key := py_or serpapi_key (env !! "SERPAPI_KEY") in
    let google_key := py_or api_key (env !! "GOOGLE_SEARCH_API_KEY") in
    let cx := py_or search_engine_id (env !! "GOOGLE_SEARCH_ENGINE_ID") in
    let use_serp :=
      match use_serpapi with
      | None => truthy_str serp_key
      | Some b => b
      end in
    if use_serp then
      if negb (truthy_str serp_key) then
        raise (ValueError "SerpAPI requested but no key. Set SERPAPI_KEY in .env or pass serpapi_key=...")
      else lift_net (_search_serpapi keyword num_results (default "" serp_key))
    else if negb (truthy_str google_key) || negb (truthy_str cx) then
      raise (ValueError "Google Custom Search requested but credentials missing. Set GOOGLE_SEARCH_API_KEY and GOOGLE_SEARCH_ENGINE_ID, or use SerpAPI by setting SERPAPI_KEY.")
    else lift_net (_search_google_cse keyword num_results
                     (default "" google_key) (default "" cx) lang).

(** ** run_keywords.py *)

Definition os_path_join (a b : string) : string := a +:+ "/" +:+ b.
Definition CONFIG_FILE (w : world) : string := os_path_join (script_dir w) "config.json".
Definition OUTPUT_DIR (w : world) : string := os_path_join (script_dir w) "output".
Definition HISTORY_DIR (w : world) : string := os_path_join (OUTPUT_DIR w) "history".
Definition ACTIVITY_FILE (w : world) : string := os_path_join (OUTPUT_DIR w) "activity.json".
Definition TELEGRAM_BOT_FILE (w : world) : string :=
  os_path_join (OUTPUT_DIR w) "telegram_bot.json".

Definition _load_config : M (list string * Z) :=
  let* cf := read config_file in
  match cf with
  | None =>
      let* path := read CONFIG_FILE in
      raise (SystemExit ("Config not found: " +:+ path
               +:+ ". Create it with 'keywords' and 'results_per_keyword'."))
  | Some doc =>
      let* data := json_load doc in
      let keywords := default [] (cfg_keywords data) in
      let results_per_keyword :=
        match cfg_results_per_keyword data with
        | Some n => if n <? 1 then 10 else n
        | None => 10
        end in
      ret (keywords, results_per_keyword)
  end.

(** Both scripts define this function with the same body. *)
Definition _send_one_telegram_message (message bot_token chat_id : string)
    : NetM (bool * string) :=
  let* o := requests_send (TelegramPost bot_token chat_id message) in
  match o with
  | inl msg => ret (false, msg)
  | inr r =>
      if status_code r =? 200 then ret (true, "")
      else
        ret (false,
             match json r with
             | inr data => default (py_prefix 200 (text r)) (description data)
             | inl _ =>
                 if negb (String.eqb (text r) "") then py_prefix 200 (text r)
                 else str_Z (status_code r)
             end)
  end.

(** Directories are not part of the world. *)
Definition _ensure_dirs : M unit := ret tt.

(** Iterating a decoded document: a value that is not a list raises. *)
Definition iter_doc {S} (j : json_doc) : SE S (list dict) :=
  match j with
  | JList l => ret l
  | JScalar => raise TypeError
  end.

(** [raw = f.read().strip(); json.loads(raw) if raw else []], then the
    [isinstance(bot_list, list)] test, under
    [except (json.JSONDecodeError, TypeError)]. *)
Definition read_bot_list {S} (d : stored json_doc) : SE S (list dict) :=
  try_except
    (let* bot_list :=
       match d with
       | Blank => ret (JList [])
       | Unparseable => raise JSONDecodeError
       | Parsed j => ret j
       end in
     match bot_list with
     | JList l => ret l
     | JScalar => ret []
     end)
    (λ e, match e with JSONDecodeError | TypeError => true | _ => false end)
    (λ _, ret []).

(** [{e["url"] for e in l}]. *)
Definition url_set {S} (l : list dict) : SE S (gset value) :=
  for_each (λ seen e, let* u := getitem e "url" in ret ({[u]} ∪ seen)) l ∅.

(** The dict both loops append: the fields of [e] and the flag. *)
Definition queue_entry (sent : bool) (e : dict) : dict :=
  {[ "url" := get e "url";
     "first_seen" := get_or e "first_seen" (VStr "");
     "keyword" := get_or e "keyword" (VStr "");
     "title" := get_or e "title" (VStr "");
     "telegram_sent" := VBool sent ]}.

(** One round of the backfill loop ([sent] true) or of the loop over the new
    entries ([sent] false). *)
Definition queue_add (sent : bool) (st : gset value * list dict) (e : dict)
    : gset value * list dict :=
  let '(seen_urls, bot_list) := st in
  let url := get e "url" in
  if truthy url && negb (bool_decide (url ∈ seen_urls)) then
    ({[url]} ∪ seen_urls, bot_list ++ [queue_entry sent e])
  else st.

(** [pending = [e for e in bot_list if e.get("telegram_sent") is False]].
    The elements of [pending] are the dict objects of [bot_list] themselves,
    so setting a key through [pending] changes [bot_list]: an element of
    [pending] is kept here as the position of its dict in [bot_list]. *)
Fixpoint pending_from (i : nat) (l : list dict) : list nat :=
  match l with
  | [] => []
  | e :: l' =>
      if is_False (get e "telegram_sent") then i :: pending_from (S i) l'
      else pending_from (S i) l'
  end.
Definition pending_refs (bot_list : list dict) : list nat := pending_from 0 bot_list.

(** [enumerate(l, 1)]. *)
Definition enumerate {A} (l : list A) : list (nat * A) :=
  zip (seq 1 (length l)) l.

(** [text = f"Keyword: {kw}\n{link}"] for a pending entry. *)
Definition message_of (e : dict) : string :=
  let link := get_or e "url" (VStr "") in
  let kw := get_or e "keyword" (VStr "") in
  "Keyword: " +:+ py_str kw +:+ nl +:+ py_str link.

Record pass_state : Type := {
  st_bot_list : list dict;
  st_sent_count : nat;
  st_first_error : string
}.

(** The body of the sending loop, the same in both scripts. *)
Definition send_one (token chat_id : string) (total : nat)
    (st : pass_state) (ie : nat * nat) : M pass_state :=
  let '(i, ref) := ie in
  match st_bot_list st !! ref with
  | None => ret st
  | Some e =>
      let link := get_or e "url" (VStr "") in
      if negb (truthy link) then ret st
      else
        let* '(ok, err) :=
          lift_net (_send_one_telegram_message (message_of e) token chat_id) in
        let st :=
          if ok : bool then
            {| st_bot_list := <[ref := <["telegram_sent" := VBool true]> e]> (st_bot_list st);
               st_sent_count := S (st_sent_count st);
               st_first_error := st_first_error st |}
          else if String.eqb (st_first_error st) "" then
            {| st_bot_list := st_bot_list st; st_sent_count := st_sent_count st;
               st_first_error := err |}
          else st in
        (if Nat.eqb (i mod 10)%nat 0 || Nat.eqb i total then
           print ("  " +:+ str_nat i +:+ "/" +:+ str_nat total +:+ " sent (ok: "
                  +:+ str_nat (st_sent_count st) +:+ ")")
         else ret tt);;
        sleep;;
        ret st
  end.

Definition send_loop (token chat_id : string) (l : list dict) (pending : list nat)
    : M pass_state :=
  for_each (send_one token chat_id (length pending)) (enumerate pending)
    {| st_bot_list := l; st_sent_count := 0; st_first_error := "" |}.

(** The rest of [_sync_telegram_bot_and_send] from
    [pending = [...]] on: persist and stop when nothing is pending or the
    credentials are missing, else send and persist once after the loop. *)
Definition deliver_pending (token chat_id : option string) (bot_list : list dict)
    : M unit :=
  let pending := pending_refs bot_list in
  match pending with
  | [] =>
      modify (write_telegram_bot bot_list);;
      print "Telegram: nothing to send — no new URLs this run (all results were already in activity). Only new URLs are sent. To send all once: python send_telegram_pending.py --resend-all"
  | _ =>
      if negb (truthy_str token) || negb (truthy_str chat_id) then
        modify (write_telegram_bot bot_list);;
        print "Telegram: TELEGRAM_BOT_TOKEN or TELEGRAM_GROUP_CHAT_ID not set in .env"
      else
        let total_pending := length pending in
        print ("Telegram: sending " +:+ str_nat total_pending
               +:+ " URLs (one per message)...");;
        let* st := send_loop (default "" token) (default "" chat_id) bot_list pending in
        modify (write_telegram_bot (st_bot_list st));;
        if negb (Nat.eqb (st_sent_count st) 0) then
          print ("Telegram: sent " +:+ str_nat (st_sent_count st)
                 +:+ " URLs (one per message).")
        else
          print ("Telegram: send failed. Error: " +:+ st_first_error st)
  end.

Definition _sync_telegram_bot_and_send (new_activity_entries : list dict) : M unit :=
  let* token := read (λ w, environ w !! "TELEGRAM_BOT_TOKEN") in
  let* chat_id := read (λ w, environ w !! "TELEGRAM_GROUP_CHAT_ID") in
  _ensure_dirs;;
  let* bot_file := read telegram_bot_file in
  let* bot_list :=
    match bot_file with
    | Some d => read_bot_list d
    | None => ret []
    end in
  let* seen_urls := url_set bot_list in
  let* activity := read activity_file in
  let* '(seen_urls, bot_list) :=
    match bot_list, activity with
    | [], Some d =>
        let* doc := json_load d in
        let* activity_list := iter_doc doc in
        ret (fold_left (queue_add true) activity_list (seen_urls, bot_list))
    | _, _ => ret (seen_urls, bot_list)
    end in
  let '(seen_urls, bot_list) :=
    fold_left (queue_add false) new_activity_entries (seen_urls, bot_list) in
  deliver_pending token chat_id bot_list.

Definition _save_history (run_at : string) (results_by_keyword : results_map)
    : M unit :=
  _ensure_dirs;;
  let date_str := py_prefix 10 run_at in
  let name := date_str +:+ ".json" in
  let* file := read (λ w, history_files w !! name) in
  let* data :=
    match file with
    | Some d => json_load d
    | None => ret {| date := date_str; runs := [] |}
    end in
  let data :=
    {| date := date data;
       runs := runs data ++ [ {| run_at := run_at; results := results_by_keyword |} ] |} in
  modify (write_history name data).

(** One round of the inner loop of [_save_activity]. *)
Definition activity_add (run_at keyword : string)
    (st : gset value * list dict * list dict) (r : dict)
    : gset value * list dict * list dict :=
  let '(seen_urls, existing, new_entries) := st in
  let link := get r "link" in
  if negb (truthy link) || bool_decide (link ∈ seen_urls) then st
  else
    let entry : dict :=
      {[ "url" := link; "first_seen" := VStr run_at;
         "keyword" := VStr keyword; "title" := get_or r "title" (VStr "") ]} in
    ({[link]} ∪ seen_urls, existing ++ [entry], new_entries ++ [entry]).

Definition _save_activity (run_at : string) (results_by_keyword : results_map)
    : M (list dict) :=
  _ensure_dirs;;
  let* file := read activity_file in
  let* existing :=
    match file with
    | Some d => let* doc := json_load d in iter_doc doc
    | None => ret []
    end in
  let* seen_urls := url_set existing in
  let '(_, existing, new_entries) :=
    fold_left (λ st '(keyword, its), fold_left (activity_add run_at keyword) its st)
      results_by_keyword (seen_urls, existing, []) in
  modify (write_activity existing);;
  ret new_entries.

(** [d[k] = v] on a dict kept in insertion order. *)
Fixpoint dict_set {V} (k : string) (v : V) (d : list (string * V))
    : list (string * V) :=
  match d with
  | [] => [(k, v)]
  | (k', v') :: d' =>
      if String.eqb k' k then (k, v) :: d' else (k', v') :: dict_set k v d'
  end.

Definition print_result (_ : unit) (ir : nat * dict) : M unit :=
  let '(i, r) := ir in
  let* title := getitem r "title" in
  print (str_nat i +:+ ". " +:+ py_str title);;
  let* link := getitem r "link" in
  print ("   " +:+ py_str link);;
  let* snippet := getitem r "snippet" in
  (if truthy snippet then
     match snippet with
     | VStr s => print ("   " +:+ py_prefix 120 s +:+ "...")
     | _ => raise TypeError
     end
   else ret tt);;
  print "".

(** [except (ValueError, RuntimeError)]; [json.JSONDecodeError] is a
    [ValueError]. *)
Definition is_ValueError_or_RuntimeError (e : exn) : bool :=
  match e with
  | ValueError _ | JSONDecodeError | RuntimeError _ => true
  | _ => false
  end.

(** The body of the loop over the keywords in [main]. *)
Definition search_keyword (results_per_keyword : Z)
    (results_by_keyword : results_map) (keyword : string) : M results_map :=
  print (nl +:+ py_repeat "=" 60);;
  print ("Keyword: " +:+ keyword);;
  print (py_repeat "=" 60);;
  try_except
    (let* results :=
       search_google keyword results_per_keyword None None "lang_en" None None in
     for_each print_result (enumerate results) tt;;
     ret (dict_set keyword results results_by_keyword))
    is_ValueError_or_RuntimeError
    (λ e,
       print ("Error for '" +:+ keyword +:+ "': " +:+ str_exn e);;
       ret (dict_set keyword [] results_by_keyword)).

(** The last [print] of [main]. *)
Definition report_saved (run_at : string) : M unit :=
  let* history_dir := read HISTORY_DIR in
  let* activity_path := read ACTIVITY_FILE in
  let* bot_path := read TELEGRAM_BOT_FILE in
  print ("Saved: history → "
         +:+ os_path_join history_dir (py_prefix 10 run_at +:+ ".json")
         +:+ ", activity → " +:+ activity_path
         +:+ ", telegram_bot → " +:+ bot_path).

(** [main] of run_keywords.py; [run_at] is the clock reading
    [datetime.utcnow().strftime("%Y-%m-%dT%H:%M:%SZ")]. *)
Definition run_keywords_main (run_at : string) : M unit :=
  let* '(keywords, results_per_keyword) := _load_config in
  let* results_by_keyword :=
    for_each (search_keyword results_per_keyword) keywords [] in
  _ensure_dirs;;
  _save_history run_at results_by_keyword;;
  let* new_entries := _save_activity run_at results_by_keyword in
  print (nl +:+ "New URLs this run: " +:+ str_nat (length new_entries)
         +:+ " (only these are sent to Telegram)");;
  _sync_telegram_bot_and_send new_entries;;
  report_saved run_at.

(** ** send_telegram_pending.py *)

(** The rest of [main] from [pending = [...]] on. *)
Definition send_pending (resend_all : bool) (token chat_id : option string)
    (bot_list : list dict) : M unit :=
  let pending := pending_refs bot_list in
  match pending with
  | [] =>
      print "Nothing to send (no entries with telegram_sent: false).";;
      if resend_all then modify (write_telegram_bot bot_list) else ret tt
  | _ =>
      let total := length pending in
      print ("Sending " +:+ str_nat total
             +:+ " URLs (one per message). Progress below:");;
      let* st := send_loop (default "" token) (default "" chat_id) bot_list pending in
      modify (write_telegram_bot (st_bot_list st));;
      if negb (Nat.eqb (st_sent_count st) 0) then
        print ("Done. Sent " +:+ str_nat (st_sent_count st) +:+ "/"
               +:+ str_nat total +:+ " URLs to Telegram.")
      else
        print ("Failed. Telegram API error: " +:+ st_first_error st);;
        print "Check: (1) Bot is in the group, (2) TELEGRAM_GROUP_CHAT_ID is correct (negative number)."
  end.

(** [main]; [resend_all] is the [--resend-all] flag. *)
Definition send_telegram_pending_main (resend_all : bool) : M unit :=
  let* token := read (λ w, environ w !! "TELEGRAM_BOT_TOKEN") in
  let* chat_id := read (λ w, environ w !! "TELEGRAM_GROUP_CHAT_ID") in
  if negb (truthy_str token) || negb (truthy_str chat_id) then
    print "Set TELEGRAM_BOT_TOKEN and TELEGRAM_GROUP_CHAT_ID in .env"
  else
    let* bot_file := read telegram_bot_file in
    match bot_file with
    | None =>
        let* path := read TELEGRAM_BOT_FILE in
        print ("No " +:+ path +:+ " found. Run run_keywords.py first.")
    | Some d =>
        let* bot_list := read_bot_list d in
        let* bot_list :=
          if resend_all then
            print "Marked all entries as unsent (telegram_sent: false).";;
            ret ((λ e : dict, <["telegram_sent" := VBool false]> e) <$> bot_list)
          else ret bot_list in
        send_pending resend_all token chat_id bot_list
    end.

(** ** google_search_tool.py: links only, and the command line *)

(** [[r["link"] for r in rows]]. *)
Definition links_of {S} (rows : list dict) : SE S (list value) :=
  for_each (λ links r, let* link := getitem r "link" in ret (links ++ [link]))
    rows [].

(** [lang] is not passed on to [search_google] and keeps its default. *)
Definition get_links_only (keyword : string) (num_results : Z)
    (api_key search_engine_id serpapi_key : option string)
    (use_serpapi : option bool) : M (list value) :=
  let* rows :=
    search_google keyword num_results api_key search_engine_id "lang_en"
      use_serpapi serpapi_key in
  links_of rows.

(** The command line also writes to stderr, which nothing else does: its
    [main] runs over the world and the lines written to stderr. *)
Definition lift_world {A} (m : M A) : SE (world * list string) A :=
  λ st, let '(r, w') := m st.1 in (r, (w', st.2)).

(** [print(s, file=sys.stderr)]. *)
Definition eprint (s : string) : SE (world * list string) unit :=
  λ st, (Ok tt, (st.1, st.2 ++ [s])).

(** The body of the loop under [--links-only]. *)
Definition print_link (_ : unit) (r : dict) : M unit :=
  let* link := getitem r "link" in
  print (py_str link).

(** The body of the other printing loop; the snippet is cut at 150. *)
Definition print_row (_ : unit) (ir : nat * dict) : M unit :=
  let '(i, r) := ir in
  let* title := getitem r "title" in
  print (str_nat i +:+ ". " +:+ py_str title);;
  let* link := getitem r "link" in
  print ("   " +:+ py_str link);;
  let* snippet := getitem r "snippet" in
  (if truthy snippet then
     match snippet with
     | VStr s => print ("   " +:+ py_prefix 150 s +:+ "...")
     | _ => raise TypeError
     end
   else ret tt);;
  print "".

(** [main] of google_search_tool.py; [keyword], [num] and [links_only] are
    the parsed arguments.  [SystemExit(1)] carries the text of its code. *)
Definition google_search_tool_main (keyword : string) (num : Z)
    (links_only : bool) : SE (world * list string) unit :=
  let* results :=
    try_except
      (lift_world (search_google keyword num None None "lang_en" None None))
      is_ValueError_or_RuntimeError
      (λ e, eprint ("Error: " +:+ str_exn e);; raise (SystemExit "1")) in
  if links_only then lift_world (for_each print_link results tt)
  else lift_world (for_each print_row (enumerate results) tt).

End Program.

(** * Notions used to state the properties *)

(** [extends w w']: [w'] is [w] after more events; nothing else differs. *)
Definition extends (w w' : world) : Prop :=
  ∃ evs, w' = set_trace (trace w ++ evs) w.

(** What [_send_one_telegram_message] makes of the outcome of its request. *)
Definition telegram_result (o : outcome) : bool * string :=
  match o with
  | inl msg => (false, msg)
  | inr r =>
      if status_code r =? 200 then (true, "")
      else (false,
            match json r with
            | inr data => default (py_prefix 200 (text r)) (description data)
            | inl _ =>
                if negb (String.eqb (text r) "") then py_prefix 200 (text r)
                else str_Z (status_code r)
            end)
  end.

(** The state of the pass after an attempt on the entry at [ref]. *)
Definition after_attempt (st : pass_state) (ref : nat) (e : dict)
    (res : bool * string) : pass_state :=
  if res.1 then
    {| st_bot_list := <[ref := <["telegram_sent" := VBool true]> e]> (st_bot_list st);
       st_sent_count := S (st_sent_count st);
       st_first_error := st_first_error st |}
  else if String.eqb (st_first_error st) "" then
    {| st_bot_list := st_bot_list st; st_sent_count := st_sent_count st;
       st_first_error := res.2 |}
  else st.

(** The progress line printed after the [i]-th pending entry, if any. *)
Definition progress_events (i total sent : nat) : list event :=
  if Nat.eqb (i mod 10)%nat 0 || Nat.eqb i total then
    [EPrint ("  " +:+ str_nat i +:+ "/" +:+ str_nat total +:+ " sent (ok: "
             +:+ str_nat sent +:+ ")")]
  else [].

(** The requests among some events, in order. *)
Definition requests_of (evs : list event) : list request :=
  omap (λ ev, match ev with ERequest r _ => Some r | _ => None end) evs.

(** The files written among some events, in order. *)
Definition writes_of (evs : list event) : list file_id :=
  omap (λ ev, match ev with EWrite f => Some f | _ => None end) evs.

(** The request the loop makes for the dict at [ref], if it makes one. *)
Definition attempt_of (token chat_id : string) (l : list dict) (ref : nat)
    : option request :=
  match l !! ref with
  | Some e =>
      if truthy (get_or e "url" (VStr ""))
      then Some (TelegramPost token chat_id (message_of e))
      else None
  | None => None
  end.

(** A request for the message of [e] came back with status 200. *)
Definition delivered (token chat_id : string) (evs : list event) (e : dict) : Prop :=
  ∃ r, ERequest (TelegramPost token chat_id (message_of e)) (inr r) ∈ evs
       ∧ status_code r = 200.

(** What holds of a pass over [pending] that started from the list [l] in
    the world [w], once the references [visited] have been handled. *)
Definition pass_inv (token chat_id : string) (l : list dict) (pending : list nat)
    (w : world) (visited : list nat) (st : pass_state) (w' : world) : Prop :=
  ∃ evs,
    w' = set_trace (trace w ++ evs) w
    ∧ length (st_bot_list st) = length l
    ∧ (∀ k e, l !! k = Some e →
         st_bot_list st !! k = Some e
         ∨ (st_bot_list st !! k = Some (<["telegram_sent" := VBool true]> e)
            ∧ k ∈ pending
            ∧ truthy (get_or e "url" (VStr "")) = true
            ∧ delivered token chat_id evs e))
    ∧ requests_of evs = omap (attempt_of token chat_id l) visited
    ∧ writes_of evs = [].

(** The urls held by a list of entries. *)
Definition urls (l : list dict) : gset value :=
  list_to_set (omap (λ e : dict, e !! "url") l).

(** The entries of a stored document, nothing when it is absent or unusable. *)
Definition entries (f : option (stored json_doc)) : list dict :=
  match f with
  | Some (Parsed (JList l)) => l
  | _ => []
  end.

Definition has_url (e : dict) : Prop := is_Some (e !! "url").

(** An entry as [_save_activity] writes it: it has a url, and a true one. *)
Definition wf_entry (e : dict) : Prop := truthy (get e "url") = true.

(** The two nested loops of [_save_activity]. *)
Definition record_loop (run_at : string) (results_by_keyword : results_map)
    (st : gset value * list dict * list dict) : gset value * list dict * list dict :=
  fold_left (λ st '(keyword, its), fold_left (activity_add run_at keyword) its st)
    results_by_keyword st.

(** Every result with a true link has that link in [seen]. *)
Definition links_seen (seen : gset value) (its : list dict) : Prop :=
  ∀ r, r ∈ its → truthy (get r "link") = true → get r "link" ∈ seen.

(** [st'] is [st] after some entries, each with a true url, were added. *)
Definition grown (st st' : gset value * list dict * list dict) : Prop :=
  ∃ added,
    st'.1.1 = urls added ∪ st.1.1
    ∧ st'.1.2 = st.1.2 ++ added
    ∧ st'.2 = st.2 ++ added
    ∧ Forall wf_entry added.

(** The url set of the activity store. *)
Definition activity_urls (w : world) : gset value := urls (entries (activity_file w)).

(** How a delivery step leaves the list [l] it was given: the same length,
    each dict either untouched or, for a pending one with a url whose
    delivery was confirmed among the events [evs], marked as sent. *)
Definition delivery_of (token chat_id : string) (l : list dict)
    (evs : list event) (l' : list dict) : Prop :=
  length l' = length l
  ∧ ∀ k e, l !! k = Some e →
      l' !! k = Some e
      ∨ (l' !! k = Some (<["telegram_sent" := VBool true]> e)
         ∧ is_False (get e "telegram_sent") = true
         ∧ truthy (get_or e "url" (VStr "")) = true
         ∧ delivered token chat_id evs e).

(** The world after a step that made the events [evs] and wrote [l']. *)
Definition stepped (w : world) (evs : list event) (l' : list dict) : world :=
  set_trace (trace w ++ evs) (set_telegram_bot l' w).

Definition have_credentials (token chat_id : option string) : bool :=
  truthy_str token && truthy_str chat_id.

(** The seen-set and list that [_sync_telegram_bot_and_send] hands to the
    delivery step, when its reads go through. *)
Definition reconciled (w : world) (new_entries : list dict) : gset value * list dict :=
  let q := entries (telegram_bot_file w) in
  let st := (urls q, q) in
  let st :=
    match q, activity_file w with
    | [], Some _ => fold_left (queue_add true) (entries (activity_file w)) st
    | _, _ => st
    end in
  fold_left (queue_add false) new_entries st.

(** [st'] is [st] after the loop over [es] appended entries flagged [sent]:
    each appended entry copies one of [es] that has a true url, and every
    true url of [es] ends up seen. *)
Definition queued (sent : bool) (es : list dict)
    (st st' : gset value * list dict) : Prop :=
  ∃ added,
    st'.2 = st.2 ++ added
    ∧ st'.1 = urls added ∪ st.1
    ∧ Forall (λ a, ∃ e, e ∈ es ∧ truthy (get e "url") = true
                        ∧ a = queue_entry sent e) added
    ∧ ∀ e, e ∈ es → truthy (get e "url") = true → get e "url" ∈ st'.1.

(** An activity document that cannot be loaded and iterated. *)
Definition unreadable (f : option (stored json_doc)) : Prop :=
  f = Some Blank ∨ f = Some Unparseable ∨ f = Some (Parsed JScalar).

#[global] Instance has_url_dec e : Decision (has_url e).
Proof. unfold has_url. apply _. Defined.

(** Neither a SerpAPI key nor a complete pair of Google credentials. *)
Definition no_provider_credentials (w : world) : Prop :=
  truthy_str (environ w !! "SERPAPI_KEY") = false
  ∧ (truthy_str (environ w !! "GOOGLE_SEARCH_API_KEY") = false
     ∨ truthy_str (environ w !! "GOOGLE_SEARCH_ENGINE_ID") = false).

Definition credentials_missing : string :=
  "Google Custom Search requested but credentials missing. Set GOOGLE_SEARCH_API_KEY and GOOGLE_SEARCH_ENGINE_ID, or use SerpAPI by setting SERPAPI_KEY.".

(** What the loop of [main] prints for a keyword whose search raised [err]. *)
Definition failed_search_events (keyword err : string) : list event :=
  [EPrint (nl +:+ py_repeat "=" 60); EPrint ("Keyword: " +:+ keyword);
   EPrint (py_repeat "=" 60);
   EPrint ("Error for '" +:+ keyword +:+ "': " +:+ err)].

(** results_by_keyword when every search failed. *)
Definition no_results (keywords : list string) (d : results_map) : results_map :=
  fold_left (λ d k, dict_set k [] d) keywords d.

(** The day file after [_save_history] appended a run. *)
Definition appended (file : option (stored day_file)) (run_at : string)
    (results_by_keyword : results_map) : day_file :=
  let old :=
    match file with
    | Some (Parsed d) => d
    | _ => {| date := py_prefix 10 run_at; runs := [] |}
    end in
  {| date := date old;
     runs := runs old ++ [ {| run_at := run_at; results := results_by_keyword |} ] |}.

Definition history_name (run_at : string) : string := py_prefix 10 run_at +:+ ".json".

(** [l] with the dict at [ref] marked as sent. *)
Definition mark_sent (ref : nat) (l : list dict) : list dict :=
  match l !! ref with
  | Some e => <[ref := <["telegram_sent" := VBool true]> e]> l
  | None => l
  end.

(** The events of one attempt on the [i]-th of [total] pending entries. *)
Definition attempt_events (token chat_id : string) (e : dict) (o : outcome)
    (i total sent : nat) : list event :=
  [ERequest (TelegramPost token chat_id (message_of e)) o]
  ++ progress_events i total sent ++ [ESleep].

(** The list after a pass over five pending entries of which all but the
    third were delivered. *)
Definition after_five (l : list dict) (p1 p2 p4 p5 : nat) : list dict :=
  mark_sent p5 (mark_sent p4 (mark_sent p2 (mark_sent p1 l))).

(** The events of the five attempts; the only progress line is the last. *)
Definition five_attempts (token chat_id : string) (e1 e2 e3 e4 e5 : dict)
    (o1 o2 o3 o4 o5 : outcome) : list event :=
  [ERequest (TelegramPost token chat_id (message_of e1)) o1; ESleep;
   ERequest (TelegramPost token chat_id (message_of e2)) o2; ESleep;
   ERequest (TelegramPost token chat_id (message_of e3)) o3; ESleep;
   ERequest (TelegramPost token chat_id (message_of e4)) o4; ESleep;
   ERequest (TelegramPost token chat_id (message_of e5)) o5;
   EPrint "  5/5 sent (ok: 4)"; ESleep].

(** Whether [needle] occurs in [hay]. *)
Fixpoint contains (needle hay : string) : bool :=
  String.prefix needle hay
  || match hay with
     | EmptyString => false
     | String _ hay' => contains needle hay'
     end.

(** The lines printed among some events. *)
Definition printed (evs : list event) : list string :=
  omap (λ ev, match ev with EPrint s => Some s | _ => None end) evs.

(** Whether the text [err] shows up in anything printed so far or in any
    value of the persisted notification queue. *)
Definition surfaced (err : string) (w : world) : bool :=
  existsb (contains err) (printed (trace w))
  || existsb (λ e : dict,
        existsb (λ kv : string * value,
                   match kv.2 with VStr s => contains err s | _ => false end)
          (map_to_list e))
       (entries (telegram_bot_file w)).

(** [for e in bot_list: e["telegram_sent"] = False]. *)
Definition reset_all (l : list dict) : list dict :=
  (λ e : dict, <["telegram_sent" := VBool false]> e) <$> l.

(** The list the resend script works on. *)
Definition loaded_for_send (resend_all : bool) (w : world) : list dict :=
  if resend_all then reset_all (entries (telegram_bot_file w))
  else entries (telegram_bot_file w).

Definition env_token (w : world) : string :=
  default "" (environ w !! "TELEGRAM_BOT_TOKEN").
Definition env_chat_id (w : world) : string :=
  default "" (environ w !! "TELEGRAM_GROUP_CHAT_ID").
Definition env_credentials (w : world) : bool :=
  have_credentials (environ w !! "TELEGRAM_BOT_TOKEN")
    (environ w !! "TELEGRAM_GROUP_CHAT_ID").

(** [m] only ever takes a state to an [R]-related one, whether it returns
    or raises. *)
Definition preserves {S A} (R : S → S → Prop) (m : SE S A) : Prop :=
  ∀ s r s', m s = (r, s') → R s s'.

(** What happens to an installation between and during runs. *)
Inductive op : Type :=
| OpConfigure (env : gmap string string) (cfg : option (stored config))
| OpRun (run_at : string)
| OpSend (resend_all : bool).

(** Someone edits [.env] or [config.json]. *)
Definition configure (env : gmap string string) (cfg : option (stored config))
    (w : world) : world :=
  {| script_dir := script_dir w; environ := env; config_file := cfg;
     history_files := history_files w; activity_file := activity_file w;
     telegram_bot_file := telegram_bot_file w; trace := trace w |}.

Definition exec_op (server : list event → request → outcome) (o : op) (w : world)
    : world :=
  match o with
  | OpConfigure env cfg => configure env cfg w
  | OpRun run_at => (run_keywords_main server run_at w).2
  | OpSend resend_all => (send_telegram_pending_main server resend_all w).2
  end.

Definition exec_ops (server : list event → request → outcome) (ops : list op)
    (w : world) : world :=
  fold_left (λ w o, exec_op server o w) ops w.

(** [w'] has the activity store, the notification store and the
    environment of [w], and a longer trace. *)
Definition stores_kept (w w' : world) : Prop :=
  activity_file w' = activity_file w
  ∧ telegram_bot_file w' = telegram_bot_file w
  ∧ environ w' = environ w
  ∧ trace w `prefix_of` trace w'.

(** The list an operation starts from: the stored entries, reset first by
    the resend script under [--resend-all]. *)
Definition op_base (o : op) (w : world) : list dict :=
  match o with
  | OpSend resend_all => loaded_for_send resend_all w
  | _ => entries (telegram_bot_file w)
  end.

(** [--resend-all] was given. *)
Definition is_resend (o : op) : bool :=
  match o with
  | OpSend true => true
  | _ => false
  end.

(** How an operation may take the entry [e] to [e']: leave it; mark a
    pending entry sent after a confirmed delivery; under [--resend-all],
    mark it unsent, and then possibly sent again after a confirmed
    delivery. *)
Definition entry_step (resend : bool) (token chat_id : string)
    (evs : list event) (e e' : dict) : Prop :=
  e' = e
  ∨ (is_False (get e "telegram_sent") = true
     ∧ truthy (get_or e "url" (VStr "")) = true
     ∧ delivered token chat_id evs e
     ∧ e' = <["telegram_sent" := VBool true]> e)
  ∨ (resend = true ∧ e' = <["telegram_sent" := VBool false]> e)
  ∨ (resend = true
     ∧ truthy (get_or e "url" (VStr "")) = true
     ∧ delivered token chat_id evs e
     ∧ e' = <["telegram_sent" := VBool true]> e).

(** Pending, and without a url the loop would send. *)
Definition stuck (e : dict) : Prop :=
  is_False (get e "telegram_sent") = true
  ∧ truthy (get_or e "url" (VStr "")) = false.

(** The url set of the notification queue. *)
Definition queue_urls (w : world) : gset value := urls (entries (telegram_bot_file w)).

(** A store the program can load: absent, or a list. *)
Definition readable (f : option (stored json_doc)) : Prop :=
  f = None ∨ ∃ l, f = Some (Parsed (JList l)).

(** The state of the two stores that every operation keeps: both loadable,
    activity entries with a true url, queue entries with a url, and every
    activity url in the queue. *)
Definition consistent (w : world) : Prop :=
  readable (activity_file w)
  ∧ readable (telegram_bot_file w)
  ∧ Forall wf_entry (entries (activity_file w))
  ∧ Forall has_url (entries (telegram_bot_file w))
  ∧ activity_urls w ⊆ queue_urls w.

(** ** Notions for the search client *)

Definition link_of (r : dict) : value := get r "link".

(** A row as both clients build it: the four keys, and a true link. *)
Definition result_row (r : dict) : Prop :=
  dom r = ({[ "link"; "title"; "snippet"; "display_link" ]} : gset string)
  ∧ truthy (link_of r) = true.

(** Rows with pairwise different links. *)
Definition rows_ok (rows : list dict) : Prop :=
  Forall result_row rows ∧ NoDup (link_of <$> rows).

(** The exceptions a search lets out. *)
Definition search_error (e : exn) : Prop :=
  match e with
  | ValueError _ | RuntimeError _ | RequestException _ => True
  | _ => False
  end.

Definition search_post (r : result (list dict)) : Prop :=
  match r with
  | Ok rows => rows_ok rows
  | Raise e => search_error e
  end.

(** The events of making the requests [reqs] one after the other from the
    trace [t]: each request, with what the server answers at that point. *)
Fixpoint ask (server : list event → request → outcome) (t : list event)
    (reqs : list request) : list event :=
  match reqs with
  | [] => []
  | req :: reqs' =>
      let ev := ERequest req (server t req) in
      ev :: ask server (t ++ [ev]) reqs'
  end.

(** [k] SerpAPI pages of [num] results each, the first at [start]. *)
Fixpoint serpapi_pages (q api_key : string) (num start : Z) (k : nat)
    : list request :=
  match k with
  | O => []
  | S k' => SerpApiGet q api_key num start :: serpapi_pages q api_key num (start + num) k'
  end.

(** Custom Search requests for [q], page after page from [start]: each asks
    for between 1 and 10 results and no more than [n], starts where the one
    before it stopped, and starts at 100 at the latest. *)
Fixpoint cse_pages (key cx q : string) (lr : option string) (n start : Z)
    (reqs : list request) : Prop :=
  match reqs with
  | [] => True
  | GoogleCseGet key' cx' q' count start' lr' :: rest =>
      key' = key ∧ cx' = cx ∧ q' = q ∧ lr' = lr ∧ start' = start
      ∧ 1 ≤ count ≤ 10 ∧ count ≤ n ∧ start ≤ 100
      ∧ cse_pages key cx q lr n (start + count) rest
  | _ => False
  end.

(** A request answered with status 200 and a body that decodes. *)
Definition answered_ok (ev : event) : Prop :=
  match ev with
  | ERequest _ (inr resp) => status_code resp = 200 ∧ ∃ data, json resp = inr data
  | _ => False
  end.

Definition is_serpapi (req : request) : bool :=
  match req with
  | SerpApiGet _ _ _ _ => true
  | _ => false
  end.

Definition is_google_cse (req : request) : bool :=
  match req with
  | GoogleCseGet _ _ _ _ _ _ => true
  | _ => false
  end.

(** The [lr] parameter of a Custom Search request. *)
Definition lr_of (lang : string) : option string :=
  if negb (String.eqb lang "") then Some lang else None.

(** [serp_key], [google_key], [cx] and [use_serp] of [search_google]. *)
Definition serp_key_of (serpapi_key : option string) (w : world) : option string :=
  py_or serpapi_key (environ w !! "SERPAPI_KEY").
Definition google_key_of (api_key : option string) (w : world) : option string :=
  py_or api_key (environ w !! "GOOGLE_SEARCH_API_KEY").
Definition cx_of (search_engine_id : option string) (w : world) : option string :=
  py_or search_engine_id (environ w !! "GOOGLE_SEARCH_ENGINE_ID").
Definition picks_serpapi (use_serpapi : option bool) (serpapi_key : option string)
    (w : world) : bool :=
  match use_serpapi with
  | None => truthy_str (serp_key_of serpapi_key w)
  | Some b => b
  end.

Definition serpapi_key_missing : string :=
  "SerpAPI requested but no key. Set SERPAPI_KEY in .env or pass serpapi_key=...".

(** The header [main] prints before it searches for [keyword]. *)
Definition keyword_header (keyword : string) : list event :=
  [EPrint (nl +:+ py_repeat "=" 60); EPrint ("Keyword: " +:+ keyword);
   EPrint (py_repeat "=" 60)].

(** What [main] prints and asks for a keyword when SerpAPI answers its
    first page with [resp], an HTTP error. *)
Definition serpapi_error_events (keyword key : string) (n : Z) (resp : response)
    : list event :=
  keyword_header keyword
  ++ [ERequest (SerpApiGet keyword key (Z.min 20 (Z.max 10 n)) 0) (inr resp);
      EPrint ("Error for '" +:+ keyword +:+ "': SerpAPI error "
              +:+ str_Z (status_code resp) +:+ ": " +:+ text resp)].

(** The keywords where each occurs first. *)
Fixpoint first_occurrences (keywords : list string) : list string :=
  match keywords with
  | [] => []
  | k :: rest => k :: filter (λ k', k' ≠ k) (first_occurrences rest)
  end.

(** From [w] to [w'] events were added, and the files written among them
    are [files], in this order. *)
Definition wrote (files : list file_id) (w w' : world) : Prop :=
  ∃ evs, trace w' = trace w ++ evs ∧ writes_of evs = files.

(** The three files a run writes, in the order it writes them. *)
Definition run_files (run_at : string) : list file_id :=
  [HistoryFile (history_name run_at); ActivityFile; TelegramBotFile].

Definition is_telegram (req : request) : bool :=
  match req with
  | TelegramPost _ _ _ => true
  | _ => false
  end.

(** From [w] to [w'] events were added, none of them a request to
    Telegram. *)
Definition telegram_free (w w' : world) : Prop :=
  ∃ evs,
    trace w' = trace w ++ evs
    ∧ Forall (λ req, is_telegram req = false) (requests_of evs).

(** [w'] is [w] after events that wrote no file and asked nothing of
    Telegram; nothing else differs. *)
Definition searched (w w' : world) : Prop :=
  ∃ evs,
    w' = set_trace (trace w ++ evs) w
    ∧ writes_of evs = []
    ∧ Forall (λ req, is_telegram req = false) (requests_of evs).

(** ** Notions for the stores *)

(** [w'] is [w] after the day file [name] was written with [day]: every
    other day file and everything else is as it was. *)
Definition day_saved (name : string) (day : day_file) (w w' : world) : Prop :=
  history_files w' !! name = Some (Parsed day)
  ∧ (∀ other, other ≠ name → history_files w' !! other = history_files w !! other)
  ∧ activity_file w' = activity_file w
  ∧ telegram_bot_file w' = telegram_bot_file w
  ∧ config_file w' = config_file w
  ∧ environ w' = environ w
  ∧ trace w' = trace w ++ [EWrite (HistoryFile name)].

Definition url_of (e : dict) : value := get e "url".

(** No two entries with the same url. *)
Definition distinct_urls (l : list dict) : Prop := NoDup (url_of <$> l).

(** The activity entry made of the row [r] found for [keyword]. *)
Definition activity_entry (run_at keyword : string) (r : dict) : dict :=
  {[ "url" := get r "link"; "first_seen" := VStr run_at;
     "keyword" := VStr keyword; "title" := get_or r "title" (VStr "") ]}.

(** [st'] is [st] after entries were added that satisfy [P], have a true
    url each, pairwise different urls, and urls not seen in [st]. *)
Definition recorded (P : dict → Prop) (st st' : gset value * list dict * list dict)
    : Prop :=
  ∃ added,
    st'.1.1 = urls added ∪ st.1.1
    ∧ st'.1.2 = st.1.2 ++ added
    ∧ st'.2 = st.2 ++ added
    ∧ distinct_urls added
    ∧ (∀ e, e ∈ added → url_of e ∉ st.1.1)
    ∧ Forall (λ e, wf_entry e ∧ P e) added.

(** An entry made in the run at [run_at] of a row of [rbk] with a true link. *)
Definition entry_from (run_at : string) (rbk : results_map) (e : dict) : Prop :=
  ∃ keyword its r,
    (keyword, its) ∈ rbk ∧ r ∈ its ∧ truthy (get r "link") = true
    ∧ e = activity_entry run_at keyword r.

(** The seen-set is the url set of the list, whose entries have a url
    each and pairwise different ones. *)
Definition queue_ok (st : gset value * list dict) : Prop :=
  st.1 = urls st.2 ∧ Forall has_url st.2 ∧ distinct_urls st.2.

(** Both stores hold no url twice. *)
Definition stores_distinct (w : world) : Prop :=
  distinct_urls (entries (activity_file w))
  ∧ distinct_urls (entries (telegram_bot_file w)).



(** The entries flagged as sent. *)
Definition sent_entries (l : list dict) : list dict :=
  filter (λ e : dict, get e "telegram_sent" = VBool true) l.

(** The requests among [evs] that came back with status 200. *)
Definition confirmed (evs : list event) : list request :=
  omap (λ ev, match ev with
              | ERequest req (inr resp) =>
                  if status_code resp =? 200 then Some req else None
              | _ => None
              end) evs.

(** * Concrete inputs *)

Definition empty_body : json_body :=
  {| organic_results := []; serpapi_next_link := false; total_results := None;
     items := []; next_page := false; description := None |}.

Definition ok_response : response :=
  {| status_code := 200; text := "{}"; json := inr empty_body |}.

(** A refusal with the given status and "description". *)
Definition refusal (code : Z) (why : string) : response :=
  {| status_code := code; text := "refused";
     json := inr {| organic_results := []; serpapi_next_link := false;
                    total_results := None; items := []; next_page := false;
                    description := Some why |} |}.

(** A server that answers every request with an empty 200. *)
Definition quiet_server : list event → request → outcome := λ _ _, inr ok_response.

Definition a_world (env : gmap string string) (cfg : option (stored config))
    (activity bot : option (stored json_doc)) : world :=
  {| script_dir := "/srv/monitor"; environ := env; config_file := cfg;
     history_files := ∅; activity_file := activity; telegram_bot_file := bot;
     trace := [] |}.

Definition config_X : option (stored config) :=
  Some (Parsed {| cfg_keywords := Some ["X"]; cfg_results_per_keyword := Some 2 |}).

Definition telegram_env : gmap string string :=
  {[ "TELEGRAM_BOT_TOKEN" := "t0ken"; "TELEGRAM_GROUP_CHAT_ID" := "-100" ]}.

Definition found (url title : string) : dict :=
  {[ "link" := VStr url; "title" := VStr title; "snippet" := VStr "";
     "display_link" := VStr "" ]}.

Definition results_ab : results_map := [("X", [found "a" "A"; found "b" "B"])].

Definition activity_of (url keyword : string) : dict :=
  {[ "url" := VStr url; "first_seen" := VStr "2026-01-01T00:00:00Z";
     "keyword" := VStr keyword; "title" := VStr "" ]}.

Definition queued_entry (url keyword : string) (sent : bool) : dict :=
  {[ "url" := VStr url; "first_seen" := VStr "2026-01-01T00:00:00Z";
     "keyword" := VStr keyword; "title" := VStr "";
     "telegram_sent" := VBool sent ]}.

Definition the_clock : string := "2026-01-02T03:04:05Z".

Definition fresh_world : world := a_world ∅ None None None.

Definition after_first_save : result (list dict) * world :=
  _save_activity the_clock results_ab fresh_world.

Definition activity_ab : list dict := [activity_of "a" "X"; activity_of "b" "X"].

Definition world_before_backfill : world :=
  a_world telegram_env config_X (Some (Parsed (JList activity_ab))) None.

Definition world_no_credentials : world := a_world telegram_env config_X None None.

Definition page_ab : response :=
  {| status_code := 200; text := "";
     json := inr {| organic_results := [found "a" "A"; found "b" "B"];
                    serpapi_next_link := false; total_results := None;
                    items := []; next_page := false; description := None |} |}.

(** SerpAPI finds "a" and "b"; everything else is answered with an empty 200. *)
Definition serp_server : list event → request → outcome :=
  λ _ req, match req with
           | SerpApiGet _ _ _ _ => inr page_ab
           | _ => inr ok_response
           end.

Definition search_env : gmap string string :=
  <["SERPAPI_KEY" := "s3rp"]> telegram_env.

Definition world_corrupt_activity : world :=
  a_world search_env config_X (Some Unparseable) None.

Definition queue_five : list dict :=
  [queued_entry "z" "X" true; queued_entry "u1" "X" false;
   queued_entry "u2" "X" false; queued_entry "u3" "X" false;
   queued_entry "u4" "X" false; queued_entry "u5" "X" false].

Definition the_refusal : outcome := inr (refusal 403 "Forbidden: bot was kicked").

(** Telegram refuses the message for "u3" and accepts every other one. *)
Definition refusing_server : list event → request → outcome :=
  λ _ req,
    match req with
    | TelegramPost _ _ message =>
        if String.eqb message (message_of (queued_entry "u3" "X" false))
        then the_refusal else inr ok_response
    | _ => inr ok_response
    end.

Definition world_five : world :=
  a_world telegram_env config_X None (Some (Parsed (JList queue_five))).

Definition queue_sent_z : list dict := [queued_entry "z" "X" true].

(** A queue whose only entry was sent; no Telegram credentials. *)
Definition world_resend_no_credentials : world :=
  a_world ∅ config_X None (Some (Parsed (JList queue_sent_z))).

(** The same queue, with credentials. *)
Definition world_resend : world :=
  a_world telegram_env config_X None (Some (Parsed (JList queue_sent_z))).

Definition ops_demo : list op :=
  [OpConfigure search_env config_X; OpRun the_clock; OpSend true;
   OpRun "2026-01-03T00:00:00Z"; OpSend false].

(** A pending entry whose url is empty, and one without the key. *)
Definition urlless : dict := queued_entry "" "X" false.
Definition keyless : dict := delete "url" (queued_entry "" "X" false).

Definition world_urlless : world :=
  a_world telegram_env config_X None
    (Some (Parsed (JList [urlless; queued_entry "u1" "X" false; keyless]))).

(** ** Inputs for the search client and for a run *)

(** SerpAPI is configured, and so is Telegram. *)
Definition world_serp : world := a_world search_env config_X None None.

Definition google_env : gmap string string :=
  {[ "GOOGLE_SEARCH_API_KEY" := "g00gle"; "GOOGLE_SEARCH_ENGINE_ID" := "cx1" ]}.

(** Only Custom Search is configured. *)
Definition world_google : world := a_world google_env config_X None None.

(** A page of Custom Search that reports a total of zero and yet carries items. *)
Definition zero_body : json_body :=
  {| organic_results := []; serpapi_next_link := false; total_results := Some 0;
     items := [found "a" "A"]; next_page := true; description := None |}.

Definition zero_page : response :=
  {| status_code := 200; text := ""; json := inr zero_body |}.

Definition zero_server : list event → request → outcome := λ _ _, inr zero_page.

(** Every request is answered with 503. *)
Definition busy_page : response := refusal 503 "busy".
Definition busy_server : list event → request → outcome := λ _ _, inr busy_page.


(** The loop of [main] over a keyword list that names "X" twice. *)
Definition loop_XYX : result results_map * world :=
  for_each (search_keyword serp_server 2) ["X"; "Y"; "X"] [] world_serp.

Definition rbk_XYX : results_map :=
  match loop_XYX.1 with
  | Ok rbk => rbk
  | Raise _ => []
  end.

(** The links found for "X" with SerpAPI configured. *)
Definition links_X : result (list value) * world :=
  get_links_only serp_server "X" 2 None None None None world_serp.

(** A first run with SerpAPI and Telegram configured. *)
Definition first_run : result unit * world :=
  run_keywords_main serp_server the_clock world_serp.

(** * Properties *)

(** ** The monad and the world *)

Lemma bind_ok {S A B} (m : SE S A) (k : A → SE S B) s a s' :
  m s = (Ok a, s') → bind m k s = k a s'.
Proof. intros H. unfold bind. by rewrite H. Qed.

Lemma bind_raise {S A B} (m : SE S A) (k : A → SE S B) s e s' :
  m s = (Raise e, s') → bind m k s = (Raise e, s').
Proof. intros H. unfold bind. by rewrite H. Qed.

Lemma bind_ret {S A B} (a : A) (k : A → SE S B) s : bind (ret a) k s = k a s.
Proof. done. Qed.

Lemma bind_read {A B} (f : world → A) (k : A → M B) w :
  bind (read f) k w = k (f w) w.
Proof. done. Qed.

Lemma bind_print {B} msg (k : unit → M B) w :
  bind (print msg) k w = k tt (log (EPrint msg) w).
Proof. done. Qed.

Lemma bind_modify {B} f (k : unit → M B) w :
  bind (modify f) k w = k tt (f w).
Proof. done. Qed.

Lemma bind_raise_now {S A B} e (k : A → SE S B) s :
  bind (raise e) k s = (Raise e, s).
Proof. done. Qed.

Lemma bind_assoc {S A B C} (m : SE S A) (f : A → SE S B) (k : B → SE S C) s :
  bind (bind m f) k s = bind m (λ a, bind (f a) k) s.
Proof. unfold bind. by destruct (m s) as [[a|e] s']. Qed.

(** One step of a computation whose head is a read, a print, a write or a
    plain return. *)
Ltac mstep :=
  first [ rewrite bind_ret | rewrite bind_read | rewrite bind_print
        | rewrite bind_modify | rewrite bind_raise_now ].
Ltac msteps := repeat (mstep; cbv beta).

(** A loop whose body keeps an invariant indexed by the elements already
    visited, and never raises, ends with the invariant on the whole list. *)
Lemma for_each_prefix_inv {S A B} (f : A → B → SE S A)
    (I : list B → A → S → Prop) (l : list B) :
  (∀ pre b post a s, l = pre ++ b :: post → I pre a s →
     ∃ a' s', f a b s = (Ok a', s') ∧ I (pre ++ [b]) a' s') →
  ∀ a s, I [] a s →
  ∃ a' s', for_each f l a s = (Ok a', s') ∧ I l a' s'.
Proof.
  intros Hstep.
  assert (Hgen : ∀ post pre a s, l = pre ++ post → I pre a s →
            ∃ a' s', for_each f post a s = (Ok a', s') ∧ I l a' s').
  { induction post as [|b post IH]; intros pre a s Hl HI; simpl.
    - rewrite app_nil_r in Hl. subst. by exists a, s.
    - destruct (Hstep pre b post a s Hl HI) as (a1 & s1 & Hf & HI1).
      rewrite (bind_ok _ _ _ _ _ Hf).
      apply (IH (pre ++ [b])); [by rewrite <- app_assoc | done]. }
  intros a s HI. by apply (Hgen l []).
Qed.

Lemma set_trace_trace w : set_trace (trace w) w = w.
Proof. by destruct w. Qed.

Lemma set_trace_set_trace t t' w : set_trace t (set_trace t' w) = set_trace t w.
Proof. done. Qed.

Lemma extends_refl w : extends w w.
Proof. exists []. by rewrite app_nil_r, set_trace_trace. Qed.

Lemma extends_trans w1 w2 w3 : extends w1 w2 → extends w2 w3 → extends w1 w3.
Proof.
  intros [e1 ->] [e2 ->]. exists (e1 ++ e2). simpl. by rewrite app_assoc.
Qed.

Lemma extends_log ev w : extends w (log ev w).
Proof. by exists [ev]. Qed.

(** ** The sending loop *)

Lemma get_or_insert_ne (e : dict) k k' v d :
  k ≠ k' → get_or (<[k := v]> e) k' d = get_or e k' d.
Proof. intros Hne. unfold get_or. by rewrite lookup_insert_ne. Qed.

Lemma get_insert_ne (e : dict) k k' v :
  k ≠ k' → get (<[k := v]> e) k' = get e k'.
Proof. intros Hne. unfold get. by rewrite lookup_insert_ne. Qed.

Lemma message_of_sent (e : dict) v :
  message_of (<["telegram_sent" := v]> e) = message_of e.
Proof. unfold message_of. by rewrite !get_or_insert_ne. Qed.

Lemma telegram_result_ok o :
  (telegram_result o).1 = true → ∃ r, o = inr r ∧ status_code r = 200.
Proof.
  destruct o as [msg|r]; simpl; [done|].
  destruct (status_code r =? 200) eqn:Hs; simpl; [|done].
  intros _. exists r. split; [done|]. by apply Z.eqb_eq.
Qed.

Lemma requests_of_app evs evs' :
  requests_of (evs ++ evs') = requests_of evs ++ requests_of evs'.
Proof. unfold requests_of. apply omap_app. Qed.

Lemma requests_of_progress i total sent :
  requests_of (progress_events i total sent) = [].
Proof. unfold progress_events. by destruct (_ || _). Qed.

Lemma writes_of_app evs evs' :
  writes_of (evs ++ evs') = writes_of evs ++ writes_of evs'.
Proof. unfold writes_of. apply omap_app. Qed.

Lemma writes_of_progress i total sent :
  writes_of (progress_events i total sent) = [].
Proof. unfold progress_events. by destruct (_ || _). Qed.

Lemma delivered_app token chat_id evs evs' e :
  delivered token chat_id evs e → delivered token chat_id (evs ++ evs') e.
Proof.
  intros (r & Hin & Hs). exists r. split; [|done].
  apply elem_of_app. by left.
Qed.

Lemma elem_of_enumerate {A} (l : list A) i x :
  (i, x) ∈ enumerate l → x ∈ l.
Proof.
  unfold enumerate. intros Hin.
  apply list_elem_of_lookup in Hin as [n Hn].
  apply lookup_zip_with_Some in Hn as (a & b & Heq & _ & Hb).
  injection Heq as _ <-. by apply list_elem_of_lookup_2 in Hb.
Qed.

Section Sending.

Context (server : list event → request → outcome).

Lemma send_message_run message token chat_id t :
  _send_one_telegram_message server message token chat_id t =
    let o := server t (TelegramPost token chat_id message) in
    (Ok (telegram_result o), t ++ [ERequest (TelegramPost token chat_id message) o]).
Proof.
  unfold _send_one_telegram_message, requests_send, bind, telegram_result; simpl.
  destruct (server t _) as [msg|r]; [done|].
  by destruct (status_code r =? 200).
Qed.

(** A pending entry without a usable url is passed over: no request, no
    progress line, no pause. *)
Lemma send_one_skip token chat_id total st i ref e w :
  st_bot_list st !! ref = Some e →
  truthy (get_or e "url" (VStr "")) = false →
  send_one server token chat_id total st (i, ref) w = (Ok st, w).
Proof. intros He Hu. unfold send_one. by rewrite He, Hu. Qed.

(** An entry with a url gets exactly one request. *)
Lemma send_one_attempt token chat_id total st i ref e w :
  st_bot_list st !! ref = Some e →
  truthy (get_or e "url" (VStr "")) = true →
  let req := TelegramPost token chat_id (message_of e) in
  let o := server (trace w) req in
  let st' := after_attempt st ref e (telegram_result o) in
  send_one server token chat_id total st (i, ref) w =
    (Ok st',
     set_trace (trace w ++ [ERequest req o]
                ++ progress_events i total (st_sent_count st') ++ [ESleep]) w).
Proof.
  intros He Hu. unfold send_one, progress_events. rewrite He, Hu.
  generalize (Nat.eqb (i mod 10)%nat 0 || Nat.eqb i total). intros due.
  cbn [negb]. unfold bind at 1. unfold lift_net. rewrite send_message_run.
  cbv zeta. unfold after_attempt.
  destruct (telegram_result _) as [ok err]. cbn [fst snd].
  destruct ok, due; [| | destruct (String.eqb _ _) ..];
    unfold bind, print, sleep, ret, log, set_trace; cbn;
    by rewrite <- ?app_assoc.
Qed.

Lemma send_one_dangling token chat_id total st i ref w :
  st_bot_list st !! ref = None →
  send_one server token chat_id total st (i, ref) w = (Ok st, w).
Proof. intros He. unfold send_one. by rewrite He. Qed.

Lemma pass_inv_start token chat_id l pending w :
  pass_inv token chat_id l pending w []
    {| st_bot_list := l; st_sent_count := 0; st_first_error := "" |} w.
Proof.
  exists []. rewrite app_nil_r, set_trace_trace. repeat split; auto.
Qed.

Lemma pass_inv_step token chat_id total l pending w visited st w' i ref :
  ref ∈ pending →
  pass_inv token chat_id l pending w visited st w' →
  ∃ st' w'',
    send_one server token chat_id total st (i, ref) w' = (Ok st', w'')
    ∧ pass_inv token chat_id l pending w (visited ++ [ref]) st' w''.
Proof.
  intros Href (evs & -> & Hlen & Hent & Hreq & Hwr).
  destruct (st_bot_list st !! ref) as [e|] eqn:He.
  2:{ (* no dict at [ref] *)
    exists st, (set_trace (trace w ++ evs) w).
    split; [by apply send_one_dangling|].
    exists evs. repeat split; try done.
    rewrite omap_app, <- Hreq. simpl. unfold attempt_of.
    assert (l !! ref = None) as ->.
    { apply lookup_ge_None. apply lookup_ge_None in He. lia. }
    by rewrite app_nil_r. }
  assert (∃ e0, l !! ref = Some e0) as [e0 He0].
  { apply lookup_lt_is_Some. rewrite <- Hlen. by apply lookup_lt_Some in He. }
  assert (Hcur : e = e0 ∨ e = <["telegram_sent" := VBool true]> e0).
  { destruct (Hent _ _ He0) as [H|(H & _)]; rewrite H in He; naive_solver. }
  assert (Hmsg : message_of e = message_of e0).
  { destruct Hcur as [->| ->]; [done|apply message_of_sent]. }
  assert (Hurl : get_or e "url" (VStr "") = get_or e0 "url" (VStr "")).
  { destruct Hcur as [->| ->]; [done|by apply get_or_insert_ne]. }
  destruct (truthy (get_or e "url" (VStr ""))) eqn:Hu.
  - (* an attempt *)
    eexists _, _. split; [by apply send_one_attempt|].
    simpl. set (req := TelegramPost token chat_id (message_of e)).
    set (o := server (trace w ++ evs) req).
    set (st' := after_attempt st ref e (telegram_result o)).
    exists (evs ++ [ERequest req o]
              ++ progress_events i total (st_sent_count st') ++ [ESleep]).
    split; [by rewrite <- app_assoc|].
    assert (Hreq' :
      requests_of (evs ++ [ERequest req o]
                   ++ progress_events i total (st_sent_count st') ++ [ESleep])
      = omap (attempt_of token chat_id l) (visited ++ [ref])).
    { rewrite !requests_of_app, requests_of_progress, omap_app, Hreq. simpl.
      unfold attempt_of. rewrite He0, <- Hurl, Hu, <- Hmsg. done. }
    assert (Hwr' :
      writes_of (evs ++ [ERequest req o]
                 ++ progress_events i total (st_sent_count st') ++ [ESleep]) = []).
    { by rewrite !writes_of_app, writes_of_progress, Hwr. }
    destruct (telegram_result o).1 eqn:Hok.
    + (* delivered *)
      destruct (telegram_result_ok _ Hok) as (r & Ho & Hs).
      assert (Hst' : st_bot_list st' =
                <[ref := <["telegram_sent" := VBool true]> e]> (st_bot_list st)).
      { subst st'. unfold after_attempt. by rewrite Hok. }
      repeat split; [by rewrite Hst', length_insert| |done|done].
      intros k ek Hk. rewrite Hst'.
      destruct (decide (k = ref)) as [->|Hne].
      * right. rewrite He0 in Hk. injection Hk as <-.
        rewrite list_lookup_insert_eq by by apply lookup_lt_Some in He.
        repeat split; [|done|by rewrite <- Hurl|].
        { f_equal. destruct Hcur as [->| ->]; [done|by rewrite insert_insert_eq]. }
        exists r. split; [|done].
        rewrite <- Hmsg. fold req. rewrite <- Ho.
        apply elem_of_app. right. by left.
      * rewrite list_lookup_insert_ne by done.
        destruct (Hent _ _ Hk) as [H|(H & Hp & Ht & Hd)]; [by left|right].
        repeat split; try done. by apply delivered_app.
    + (* failed *)
      assert (Hst' : st_bot_list st' = st_bot_list st).
      { subst st'. unfold after_attempt. rewrite Hok.
        by destruct (String.eqb _ _). }
      repeat split; [by rewrite Hst'| |done|done].
      intros k ek Hk. rewrite Hst'.
      destruct (Hent _ _ Hk) as [H|(H & Hp & Ht & Hd)]; [by left|right].
      repeat split; try done. by apply delivered_app.
  - (* passed over *)
    exists st, (set_trace (trace w ++ evs) w).
    split; [by eapply send_one_skip|].
    exists evs. repeat split; try done.
    rewrite omap_app, <- Hreq. simpl. unfold attempt_of.
    rewrite He0, <- Hurl, Hu. by rewrite app_nil_r.
Qed.

(** The pass never raises, and ends with the invariant on all of [pending]. *)
Lemma send_loop_inv token chat_id l pending w :
  ∃ st w',
    send_loop server token chat_id l pending w = (Ok st, w')
    ∧ pass_inv token chat_id l pending w pending st w'.
Proof.
  unfold send_loop.
  destruct (for_each_prefix_inv
              (send_one server token chat_id (length pending))
              (λ visited st w', pass_inv token chat_id l pending w (snd <$> visited) st w')
              (enumerate pending)) with
    (a := {| st_bot_list := l; st_sent_count := 0%nat; st_first_error := "" |})
    (s := w) as (st & w' & Hrun & Hinv).
  - intros pre [i ref] post st w' Hl Hinv.
    rewrite fmap_app. simpl. apply pass_inv_step; [|done].
    apply (elem_of_enumerate _ i). rewrite Hl.
    apply elem_of_app. right. by left.
  - apply pass_inv_start.
  - exists st, w'. split; [done|].
    assert (Heq : snd <$> enumerate pending = pending).
    { unfold enumerate. apply snd_zip. by rewrite length_seq. }
    simpl in Hinv. by rewrite Heq in Hinv.
Qed.

End Sending.

(** ** The url sets of the stores *)

Lemma wf_entry_has_url e : wf_entry e → has_url e.
Proof.
  unfold wf_entry, has_url, get. by destruct (e !! "url").
Qed.

Lemma urls_app l1 l2 : urls (l1 ++ l2) = urls l1 ∪ urls l2.
Proof. unfold urls. by rewrite omap_app, list_to_set_app_L. Qed.

Lemma urls_nil : urls [] = ∅.
Proof. done. Qed.

Lemma elem_of_urls u l : u ∈ urls l ↔ ∃ e, e ∈ l ∧ e !! "url" = Some u.
Proof.
  unfold urls. rewrite elem_of_list_to_set, list_elem_of_omap. naive_solver.
Qed.

Lemma url_set_acc {S} (l : list dict) (seen : gset value) (s : S) :
  Forall has_url l →
  for_each (λ seen e, let* u := getitem e "url" in ret ({[u]} ∪ seen)) l seen s
  = (Ok (urls l ∪ seen), s).
Proof.
  intros Hl. revert seen. induction Hl as [|e l He _ IH]; intros seen; simpl.
  - unfold ret. rewrite urls_nil. f_equal. f_equal. set_solver.
  - destruct He as [u Hu]. unfold bind at 1. unfold getitem. rewrite Hu. unfold bind at 1. simpl.
    rewrite IH. f_equal. f_equal. unfold urls at 2. simpl. rewrite Hu. simpl.
    fold (urls l). set_solver.
Qed.

Lemma url_set_ok {S} (l : list dict) (s : S) :
  Forall has_url l → url_set l s = (Ok (urls l), s).
Proof.
  intros Hl. unfold url_set. rewrite url_set_acc by done.
  f_equal. f_equal. set_solver.
Qed.

(** [url_set] returns only when every entry has the key. *)
Lemma url_set_inv {S} (l : list dict) (s s' : S) seen :
  url_set l s = (Ok seen, s') → Forall has_url l.
Proof.
  unfold url_set. generalize (∅ : gset value). revert s s' seen.
  induction l as [|e l IH]; intros s s' seen acc H; [done|].
  simpl in H. unfold bind at 1 in H. unfold getitem in H.
  destruct (e !! "url") as [u|] eqn:Hu; [|done].
  unfold bind at 1 in H. simpl in H.
  constructor; [by exists u|]. by eapply IH.
Qed.

(** ** The activity store *)

Lemma grown_refl st : grown st st.
Proof.
  exists []. rewrite urls_nil, !app_nil_r. repeat split; [set_solver|done].
Qed.

Lemma grown_trans st1 st2 st3 : grown st1 st2 → grown st2 st3 → grown st1 st3.
Proof.
  intros (a1 & Hs1 & He1 & Hn1 & Hw1) (a2 & Hs2 & He2 & Hn2 & Hw2).
  exists (a1 ++ a2). rewrite Hs2, He2, Hn2, Hs1, He1, Hn1, urls_app, !app_assoc.
  repeat split; [set_solver|by apply Forall_app].
Qed.

Lemma grown_seen st st' u : grown st st' → u ∈ st.1.1 → u ∈ st'.1.1.
Proof. intros (a & -> & _). set_solver. Qed.

Lemma activity_add_grown run_at keyword st r :
  grown st (activity_add run_at keyword st r).
Proof.
  destruct st as [[seen existing] new_entries]. unfold activity_add.
  destruct (negb (truthy (get r "link")) || bool_decide (get r "link" ∈ seen)) eqn:Hc;
    [apply grown_refl|].
  apply orb_false_iff in Hc as [Ht _]. apply negb_false_iff in Ht.
  eexists [_]. simpl. repeat split.
  - unfold urls. simpl. rewrite lookup_insert_eq. simpl. set_solver.
  - constructor; [|done]. unfold wf_entry, get. by rewrite lookup_insert_eq.
Qed.

Lemma activity_add_seen run_at keyword st r :
  truthy (get r "link") = true → get r "link" ∈ (activity_add run_at keyword st r).1.1.
Proof.
  intros Ht. destruct st as [[seen existing] new_entries]. unfold activity_add.
  rewrite Ht. simpl. case_bool_decide; simpl; [done|set_solver].
Qed.

Lemma items_loop_grown run_at keyword its st :
  grown st (fold_left (activity_add run_at keyword) its st)
  ∧ links_seen (fold_left (activity_add run_at keyword) its st).1.1 its.
Proof.
  revert st. induction its as [|r its IH]; intros st; simpl.
  - split; [apply grown_refl|]. intros r Hr. by apply elem_of_nil in Hr.
  - destruct (IH (activity_add run_at keyword st r)) as [Hg Hl].
    split; [eapply grown_trans; [apply activity_add_grown|done]|].
    intros r' Hr' Ht. apply elem_of_cons in Hr' as [->|Hr']; [|by apply Hl].
    eapply grown_seen; [done|]. by apply activity_add_seen.
Qed.

Lemma record_loop_grown run_at rbk st :
  grown st (record_loop run_at rbk st)
  ∧ ∀ keyword its, (keyword, its) ∈ rbk →
      links_seen (record_loop run_at rbk st).1.1 its.
Proof.
  unfold record_loop. revert st.
  induction rbk as [|[kw its] rbk IH]; intros st; simpl.
  - split; [apply grown_refl|]. intros kw its H. by apply elem_of_nil in H.
  - destruct (items_loop_grown run_at kw its st) as [Hg1 Hl1].
    destruct (IH (fold_left (activity_add run_at kw) its st)) as [Hg Hl].
    split; [by eapply grown_trans|].
    intros kw' its' Hin. apply elem_of_cons in Hin as [Heq|Hin]; [|by eapply Hl].
    injection Heq as -> ->. intros r Hr Ht.
    eapply grown_seen; [done|]. by apply Hl1.
Qed.

(** When every link is already seen, the loops change nothing. *)
Lemma record_loop_noop run_at rbk st :
  (∀ keyword its, (keyword, its) ∈ rbk → links_seen st.1.1 its) →
  record_loop run_at rbk st = st.
Proof.
  unfold record_loop.
  induction rbk as [|[kw its] rbk IH]; intros Hseen; simpl; [done|].
  assert (Hits : fold_left (activity_add run_at kw) its st = st).
  { assert (Hl : links_seen st.1.1 its) by (apply (Hseen kw); by left).
    clear -Hl. induction its as [|r its IH]; simpl; [done|].
    assert (activity_add run_at kw st r = st) as ->.
    { destruct st as [[seen existing] new_entries]. unfold activity_add.
      destruct (truthy (get r "link")) eqn:Ht; simpl; [|done].
      rewrite bool_decide_eq_true_2; [done|]. apply Hl; [by left|done]. }
    apply IH. intros r' Hr'. apply Hl. by right. }
  rewrite Hits. apply IH. intros kw' its' Hin. apply (Hseen kw'). by right.
Qed.

(** What [_save_activity] does when the store can be read. *)
Lemma save_activity_run run_at rbk w existing :
  activity_file w = None ∧ existing = []
  ∨ activity_file w = Some (Parsed (JList existing)) →
  Forall has_url existing →
  _save_activity run_at rbk w =
    let st := record_loop run_at rbk (urls existing, existing, []) in
    (Ok st.2, write_activity st.1.2 w).
Proof.
  intros Hfile Hurl. unfold _save_activity, _ensure_dirs.
  unfold bind at 1. simpl. unfold bind at 1. unfold read at 1.
  assert (Hload :
    (match activity_file w with
     | Some d => let* doc := json_load d in iter_doc doc
     | None => ret []
     end) w = (Ok existing, w)).
  { destruct Hfile as [[-> ->]| ->]; [done|]. done. }
  rewrite (bind_ok _ _ _ _ _ Hload).
  rewrite (bind_ok _ _ _ _ _ (url_set_ok existing w Hurl)).
  fold (record_loop run_at rbk (urls existing, existing, [])).
  by destruct (record_loop _ _ _) as [[seen ex] new_entries].
Qed.

Lemma save_activity_returns run_at rbk w new_entries w' :
  _save_activity run_at rbk w = (Ok new_entries, w') →
  ∃ existing,
    (activity_file w = None ∧ existing = []
     ∨ activity_file w = Some (Parsed (JList existing)))
    ∧ Forall has_url existing.
Proof.
  unfold _save_activity, _ensure_dirs. unfold bind at 1. simpl.
  unfold bind at 1. unfold read at 1.
  destruct (activity_file w) as [[| |[existing|]]|] eqn:Hf; try done.
  - unfold bind at 1. simpl. unfold bind at 1.
    destruct (url_set existing w) as [[seen|e] s] eqn:Hu; [|done].
    intros _. exists existing. split; [by right|]. by eapply url_set_inv.
  - intros _. exists []. split; [by left|done].
Qed.

(** C6: recording the same results_by_keyword a second time returns no new
    entries, and leaves the activity store, hence its set of urls, as the
    first call left it. *)
Theorem save_activity_twice run_at run_at' rbk w new_entries w1 :
  _save_activity run_at rbk w = (Ok new_entries, w1) →
  ∃ w2,
    _save_activity run_at' rbk w1 = (Ok [], w2)
    ∧ activity_file w2 = activity_file w1
    ∧ activity_urls w2 = activity_urls w1.
Proof.
  intros Hfirst.
  destruct (save_activity_returns _ _ _ _ _ Hfirst) as (existing & Hfile & Hurl).
  rewrite (save_activity_run run_at rbk w existing Hfile Hurl) in Hfirst.
  cbv zeta in Hfirst.
  destruct (record_loop_grown run_at rbk (urls existing, existing, []))
    as [(added & Hseen & Hex & _ & Hwf) Hlinks].
  set (st := record_loop run_at rbk (urls existing, existing, [])) in *.
  injection Hfirst as _ <-. simpl in Hseen, Hex.
  assert (Hurl1 : Forall has_url (existing ++ added)).
  { apply Forall_app. split; [done|].
    eapply Forall_impl; [done|apply wf_entry_has_url]. }
  assert (Hnoop :
    record_loop run_at' rbk (urls (existing ++ added), existing ++ added, [])
    = (urls (existing ++ added), existing ++ added, [])).
  { apply record_loop_noop. simpl. intros kw its Hin.
    assert (urls (existing ++ added) = st.1.1) as ->; [|by eapply Hlinks].
    rewrite Hseen, urls_app. set_solver. }
  exists (write_activity (existing ++ added) (write_activity st.1.2 w)).
  rewrite (save_activity_run run_at' rbk _ (existing ++ added)); [|right|done].
  - cbv zeta. rewrite Hnoop. simpl. rewrite Hex. repeat split; done.
  - simpl. by rewrite Hex.
Qed.

(** An unparseable or empty activity document makes [_save_activity] raise,
    with nothing written. *)
Lemma save_activity_corrupt run_at rbk w :
  activity_file w = Some Unparseable ∨ activity_file w = Some Blank →
  _save_activity run_at rbk w = (Raise JSONDecodeError, w).
Proof.
  intros H. unfold _save_activity, _ensure_dirs. unfold bind at 1. simpl.
  unfold bind at 1. unfold read at 1. by destruct H as [-> | ->].
Qed.

(** The notification document is read without ever raising: anything but a
    list counts as the empty list. *)
Lemma read_bot_list_total {S} (d : stored json_doc) (s : S) :
  read_bot_list d s = (Ok (entries (Some d)), s).
Proof. by destruct d as [| |[l|]]. Qed.

(** ** The search entry point *)

(** C10: asked for zero or fewer results, [search_google] returns the empty
    list at once: the world, and with it the record of requests, is
    untouched, whatever the environment holds. *)
Theorem search_google_nothing_wanted server keyword num_results api_key
    search_engine_id lang use_serpapi serpapi_key w :
  num_results ≤ 0 →
  search_google server keyword num_results api_key search_engine_id lang
    use_serpapi serpapi_key w = (Ok [], w).
Proof.
  intros Hn. unfold search_google.
  by rewrite (proj2 (Z.leb_le num_results 0) Hn).
Qed.

(** ** Pending entries and the delivery step *)

Lemma elem_of_pending_from i l ref :
  ref ∈ pending_from i l ↔
  ∃ k e, ref = (i + k)%nat ∧ l !! k = Some e
         ∧ is_False (get e "telegram_sent") = true.
Proof.
  revert i. induction l as [|e l IH]; intros i; simpl.
  - split; [intros H; by apply elem_of_nil in H|]. by intros (k & e & _ & H & _).
  - destruct (is_False (get e "telegram_sent")) eqn:Hf.
    + rewrite elem_of_cons, IH. split.
      * intros [->|(k & e' & -> & Hk & He')].
        -- exists 0%nat, e. repeat split; (lia || done).
        -- exists (S k), e'. repeat split; (lia || done).
      * intros ([|k] & e' & -> & Hk & He'); [left; lia|right].
        exists k, e'. repeat split; (lia || done).
    + rewrite IH. split.
      * intros (k & e' & -> & Hk & He'). exists (S k), e'.
        repeat split; (lia || done).
      * intros ([|k] & e' & -> & Hk & He').
        -- simpl in Hk. injection Hk as <-. congruence.
        -- exists k, e'. repeat split; (lia || done).
Qed.

Lemma elem_of_pending_refs l ref :
  ref ∈ pending_refs l ↔
  ∃ e, l !! ref = Some e ∧ is_False (get e "telegram_sent") = true.
Proof.
  unfold pending_refs. rewrite elem_of_pending_from. naive_solver.
Qed.

Lemma pending_refs_none l :
  Forall (λ e : dict, is_False (get e "telegram_sent") = false) l →
  pending_refs l = [].
Proof.
  intros Hl. destruct (pending_refs l) as [|ref p] eqn:Hp; [done|].
  assert (Hin : ref ∈ pending_refs l) by (rewrite Hp; by left).
  apply elem_of_pending_refs in Hin as (e & He & Hf).
  apply list_elem_of_lookup_2 in He.
  rewrite Forall_forall in Hl. specialize (Hl e He). congruence.
Qed.

Lemma write_telegram_bot_stepped l w :
  write_telegram_bot l w = stepped w [EWrite TelegramBotFile] l.
Proof. done. Qed.

Lemma log_stepped ev w evs l :
  log ev (stepped w evs l) = stepped w (evs ++ [ev]) l.
Proof. unfold log, stepped, set_trace. simpl. by rewrite <- app_assoc. Qed.

Lemma stepped_after w evs l :
  set_telegram_bot l (set_trace (trace w ++ evs) w) = stepped w evs l.
Proof. done. Qed.

Lemma stepped_stepped w evs l evs' l' :
  stepped (stepped w evs l) evs' l' = stepped w (evs ++ evs') l'.
Proof. unfold stepped, set_trace. simpl. by rewrite <- app_assoc. Qed.

Section Delivery.

Context (server : list event → request → outcome).

(** [deliver_pending] always returns, sends exactly one request per pending
    entry that has a url -- none when the credentials are missing -- and
    persists exactly once, after the last request. *)
Lemma deliver_pending_post token chat_id l w :
  ∃ l' evs msg,
    deliver_pending server token chat_id l w
      = (Ok tt, stepped w (evs ++ [EWrite TelegramBotFile; EPrint msg]) l')
    ∧ delivery_of (default "" token) (default "" chat_id) l evs l'
    ∧ requests_of evs =
        (if have_credentials token chat_id
         then omap (attempt_of (default "" token) (default "" chat_id) l) (pending_refs l)
         else [])
    ∧ writes_of evs = []
    ∧ (pending_refs l = [] ∨ have_credentials token chat_id = false → l' = l)
    ∧ (pending_refs l ≠ [] → have_credentials token chat_id = true →
       ∃ rest, evs = EPrint ("Telegram: sending "
                             +:+ str_nat (length (pending_refs l))
                             +:+ " URLs (one per message)...") :: rest).
Proof.
  unfold deliver_pending.
  assert (Hsame : ∀ evs, delivery_of (default "" token) (default "" chat_id) l evs l).
  { intros evs. split; [done|]. intros k e He. by left. }
  assert (Hquiet : ∀ msg,
    (modify (write_telegram_bot l);; print msg) w
    = (Ok tt, stepped w ([] ++ [EWrite TelegramBotFile; EPrint msg]) l)).
  { intros msg. unfold bind, modify, print.
    by rewrite write_telegram_bot_stepped, log_stepped. }
  destruct (pending_refs l) as [|ref p] eqn:Hp.
  { eexists l, [], _. split; [apply Hquiet|]. repeat split; try apply Hsame; try done.
    by destruct (have_credentials token chat_id). }
  rewrite <- Hp.
  unfold have_credentials.
  destruct (truthy_str token && truthy_str chat_id) eqn:Hc.
  2:{ assert (negb (truthy_str token) || negb (truthy_str chat_id) = true) as ->.
      { destruct (truthy_str token), (truthy_str chat_id); done. }
      eexists l, [], _. split; [apply Hquiet|].
      repeat split; try apply Hsame; done. }
  rewrite Hp.
  assert (negb (truthy_str token) || negb (truthy_str chat_id) = false) as ->.
  { destruct (truthy_str token), (truthy_str chat_id); done. }
  unfold bind at 1. unfold print at 1.
  set (w0 := log _ w).
  destruct (send_loop_inv server (default "" token) (default "" chat_id) l
              (ref :: p) w0)
    as (st & w1 & Hrun & evs & -> & Hlen & Hent & Hreq & Hwr).
  rewrite (bind_ok _ _ _ _ _ Hrun).
  assert (Hend : ∃ msg,
    (modify (write_telegram_bot (st_bot_list st));;
     (if negb (Nat.eqb (st_sent_count st) 0)
      then print ("Telegram: sent " +:+ str_nat (st_sent_count st)
                  +:+ " URLs (one per message).")
      else print ("Telegram: send failed. Error: " +:+ st_first_error st)))
      (set_trace (trace w0 ++ evs) w0)
    = (Ok tt, stepped w (([EPrint ("Telegram: sending "
                +:+ str_nat (length (ref :: p)) +:+ " URLs (one per message)...")]
                ++ evs) ++ [EWrite TelegramBotFile; EPrint msg]) (st_bot_list st))).
  { destruct (negb (Nat.eqb (st_sent_count st) 0)); eexists;
      unfold bind, modify, print, write_telegram_bot, log, stepped, set_trace,
        set_telegram_bot, w0; simpl; rewrite <- !app_assoc; simpl; reflexivity. }
  destruct Hend as [msg Hend].
  eexists (st_bot_list st), _, msg.
  split; [apply Hend|split; [|split; [|split; [|split]]]].
  - split; [done|]. intros k e He.
    destruct (Hent _ _ He) as [H|(H & Hin & Ht & Hd)]; [by left|right].
    rewrite <- Hp in Hin.
    apply elem_of_pending_refs in Hin as (e' & He' & Hf).
    rewrite He in He'. injection He' as <-.
    repeat split; try done.
    destruct Hd as (r & Hin & Hs). exists r. split; [|done].
    rewrite !elem_of_app. by right.
  - by rewrite !requests_of_app, Hreq.
  - by rewrite !writes_of_app, Hwr.
  - by intros [H|H].
  - intros _ _. by eexists.
Qed.

End Delivery.

(** ** Reconciling the notification queue *)

Lemma queue_entry_url sent e : queue_entry sent e !! "url" = Some (get e "url").
Proof. unfold queue_entry. by rewrite lookup_insert_eq. Qed.

Lemma queue_entry_sent sent e : get (queue_entry sent e) "telegram_sent" = VBool sent.
Proof. done. Qed.

Lemma urls_queue_entry sent e : urls [queue_entry sent e] = {[ get e "url" ]}.
Proof. unfold urls. simpl. rewrite queue_entry_url. simpl. set_solver. Qed.

Lemma queue_loop_spec sent es st :
  queued sent es st (fold_left (queue_add sent) es st).
Proof.
  revert st. induction es as [|e es IH]; intros st; simpl.
  - exists []. rewrite app_nil_r, urls_nil. repeat split; [set_solver|done|].
    intros e He. by apply elem_of_nil in He.
  - destruct (IH (queue_add sent st e)) as (added & Hq & Hs & Ha & Hseen).
    assert (Hweaken : Forall (λ a, ∃ e0, e0 ∈ e :: es ∧ truthy (get e0 "url") = true
                                         ∧ a = queue_entry sent e0) added).
    { eapply Forall_impl; [done|]. intros a (e0 & H0 & Ht & ->).
      exists e0. split; [by right|done]. }
    destruct st as [seen q].
    assert (Hstep : queue_add sent (seen, q) e =
              if truthy (get e "url") && negb (bool_decide (get e "url" ∈ seen))
              then ({[get e "url"]} ∪ seen, q ++ [queue_entry sent e])
              else (seen, q)) by done.
    rewrite Hstep in *. clear Hstep.
    destruct (truthy (get e "url") && negb (bool_decide (get e "url" ∈ seen))) eqn:Hc;
      simpl in *.
    + apply andb_true_iff in Hc as [Ht _]. rewrite Hs in Hseen.
      exists (queue_entry sent e :: added). rewrite Hq, Hs, <- app_assoc. simpl.
      repeat split.
      * change (queue_entry sent e :: added) with ([queue_entry sent e] ++ added).
        rewrite urls_app, urls_queue_entry. set_solver.
      * constructor; [|done]. exists e. split; [by left|done].
      * intros e0 He0 Ht0. apply elem_of_cons in He0 as [->|He0]; [|by apply Hseen].
        set_solver.
    + rewrite Hs in Hseen. exists added. rewrite Hq, Hs. repeat split; [done|].
      intros e0 He0 Ht0. apply elem_of_cons in He0 as [->|He0]; [|by apply Hseen].
      rewrite Ht0 in Hc. simpl in Hc. apply negb_false_iff in Hc.
      apply bool_decide_eq_true in Hc. set_solver.
Qed.

Lemma url_set_raises {S} (l : list dict) (acc : gset value) (s : S) :
  ¬ Forall has_url l →
  ∃ e, for_each (λ seen e, let* u := getitem e "url" in ret ({[u]} ∪ seen)) l acc s
       = (Raise e, s).
Proof.
  revert acc. induction l as [|e l IH]; intros acc Hn; [by destruct Hn|].
  simpl. unfold bind at 1. unfold getitem.
  destruct (e !! "url") as [u|] eqn:Hu.
  - unfold bind at 1. simpl. apply IH. intros Hl. apply Hn.
    constructor; [by exists u|done].
  - by eexists.
Qed.

Section Reconciling.

Context (server : list event → request → outcome).

(** [_sync_telegram_bot_and_send] either raises before touching anything
    (an entry of the queue lacks "url", or the activity document needed for
    the backfill cannot be read), or goes on to the delivery step. *)
Lemma sync_cases new_entries w :
  ((¬ Forall has_url (entries (telegram_bot_file w))
    ∨ (entries (telegram_bot_file w) = [] ∧ unreadable (activity_file w)))
   ∧ ∃ e, _sync_telegram_bot_and_send server new_entries w = (Raise e, w))
  ∨ (Forall has_url (entries (telegram_bot_file w))
     ∧ _sync_telegram_bot_and_send server new_entries w =
         deliver_pending server (environ w !! "TELEGRAM_BOT_TOKEN")
           (environ w !! "TELEGRAM_GROUP_CHAT_ID")
           (reconciled w new_entries).2 w).
Proof.
  unfold _sync_telegram_bot_and_send, _ensure_dirs, reconciled. msteps.
  assert (Hload :
    (match telegram_bot_file w with
     | Some d => read_bot_list d
     | None => ret []
     end) w = (Ok (entries (telegram_bot_file w)), w)).
  { destruct (telegram_bot_file w) as [d|]; [apply read_bot_list_total|done]. }
  rewrite (bind_ok _ _ _ _ _ Hload).
  set (q := entries (telegram_bot_file w)).
  destruct (decide (Forall has_url q)) as [Hq|Hq].
  2:{ left. split; [by left|]. destruct (url_set_raises q ∅ w Hq) as [e He].
      exists e. by rewrite (bind_raise _ _ _ _ _ He). }
  rewrite (bind_ok _ _ _ _ _ (url_set_ok q w Hq)). msteps.
  destruct q as [|e0 q0].
  - unfold unreadable.
    destruct (activity_file w) as [[| |[act|]]|] eqn:Ha; simpl.
    + left. split; [right; naive_solver|by eexists].
    + left. split; [right; naive_solver|by eexists].
    + right. split; [done|]. unfold bind, ret, json_load, iter_doc. simpl.
      destruct (fold_left (queue_add true) act _) as [seen q].
      by destruct (fold_left (queue_add false) new_entries _).
    + left. split; [right; naive_solver|by eexists].
    + right. split; [done|]. msteps.
      by destruct (fold_left (queue_add false) new_entries _).
  - right. split; [done|]. msteps.
    by destruct (fold_left (queue_add false) new_entries _).
Qed.

End Reconciling.

(** ** Backfill *)

Lemma wf_entry_get e :
  wf_entry e → e !! "url" = Some (get e "url") ∧ truthy (get e "url") = true.
Proof.
  unfold wf_entry, get. by destruct (e !! "url").
Qed.

Lemma urls_cons_wf e l : wf_entry e → urls (e :: l) = {[ get e "url" ]} ∪ urls l.
Proof.
  intros [He _]%wf_entry_get. unfold urls. simpl. rewrite He. simpl. done.
Qed.

(** Over well-formed entries with distinct urls, none of them seen, the
    loop appends one entry per activity entry, in order. *)
Lemma queue_loop_exact sent act seen q :
  Forall wf_entry act →
  NoDup ((λ e : dict, get e "url") <$> act) →
  (∀ e, e ∈ act → get e "url" ∉ seen) →
  fold_left (queue_add sent) act (seen, q)
  = (urls act ∪ seen, q ++ (queue_entry sent <$> act)).
Proof.
  intros Hwf. revert seen q.
  induction Hwf as [|e act He _ IH]; intros seen q Hnd Hfresh.
  - simpl. rewrite urls_nil, app_nil_r. f_equal. set_solver.
  - rewrite fmap_cons in Hnd. apply NoDup_cons in Hnd as [Hnotin Hnd].
    destruct (wf_entry_get _ He) as [_ Ht].
    assert (Hstep : queue_add sent (seen, q) e =
              ({[get e "url"]} ∪ seen, q ++ [queue_entry sent e])).
    { unfold queue_add. rewrite Ht. simpl.
      rewrite bool_decide_eq_false_2; [done|]. apply Hfresh. by left. }
    cbn [fold_left]. rewrite Hstep, IH; [| done |].
    + rewrite urls_cons_wf by done. rewrite fmap_cons, <- app_assoc. simpl.
      f_equal. set_solver.
    + intros e' He'. rewrite not_elem_of_union. split; [|apply Hfresh; by right].
      rewrite not_elem_of_singleton. intros Heq. apply Hnotin.
      rewrite <- Heq. apply list_elem_of_fmap. by exists e'.
Qed.

Lemma urls_queue_entries sent act :
  Forall wf_entry act → urls (queue_entry sent <$> act) = urls act.
Proof.
  induction 1 as [|e act He _ IH]; [done|].
  rewrite urls_cons_wf by done. rewrite <- IH. unfold urls. simpl.
  by rewrite queue_entry_url.
Qed.

(** C5: with nothing loaded from the notification store and [N]
    well-formed entries in the activity store, a reconcile pass without new
    entries persists [N] queue entries, one per activity url and each marked
    sent, and makes no request. *)
Theorem backfill_marks_sent server w act :
  entries (telegram_bot_file w) = [] →
  activity_file w = Some (Parsed (JList act)) ∨ activity_file w = None ∧ act = [] →
  Forall wf_entry act →
  NoDup ((λ e : dict, get e "url") <$> act) →
  ∃ evs q,
    _sync_telegram_bot_and_send server [] w = (Ok tt, stepped w evs q)
    ∧ q = queue_entry true <$> act
    ∧ length q = length act
    ∧ urls q = urls act
    ∧ Forall (λ e : dict, get e "telegram_sent" = VBool true) q
    ∧ requests_of evs = [].
Proof.
  intros Hq Hact Hwf Hnd.
  assert (Hrec : (reconciled w []).2 = queue_entry true <$> act).
  { unfold reconciled. rewrite Hq. simpl.
    destruct Hact as [Ha | [Ha Hb]]; rewrite Ha; [|by rewrite Hb]. simpl.
    rewrite queue_loop_exact; [done..|]. intros e _. rewrite urls_nil. set_solver. }
  assert (Hsent : Forall (λ e : dict, get e "telegram_sent" = VBool true)
                    (queue_entry true <$> act)).
  { apply Forall_fmap. apply Forall_true. intros e. apply queue_entry_sent. }
  assert (Hnone : pending_refs (queue_entry true <$> act) = []).
  { apply pending_refs_none. eapply Forall_impl; [done|].
    intros e He. simpl in He. by rewrite He. }
  destruct (sync_cases server [] w) as [[Hbad _]|[_ Hrun]].
  { exfalso. rewrite Hq in Hbad. destruct Hbad as [Hbad|[_ Hbad]].
    - by apply Hbad.
    - unfold unreadable in Hbad.
      destruct Hact as [Ha | [Ha _]]; rewrite Ha in Hbad; naive_solver. }
  rewrite Hrun, Hrec.
  destruct (deliver_pending_post server (environ w !! "TELEGRAM_BOT_TOKEN")
              (environ w !! "TELEGRAM_GROUP_CHAT_ID")
              (queue_entry true <$> act) w)
    as (l' & evs & msg & Hd & _ & Hreq & _ & Hsame & _).
  rewrite Hnone in Hreq, Hsame. rewrite (Hsame (or_introl eq_refl)) in Hd.
  exists (evs ++ [EWrite TelegramBotFile; EPrint msg]), (queue_entry true <$> act).
  repeat split; try done.
  - by rewrite length_fmap.
  - by apply urls_queue_entries.
  - rewrite requests_of_app, Hreq. by destruct (have_credentials _ _).
Qed.

(** ** Search, activity and backfill at concrete inputs *)

Lemma search_google_nothing_wanted_witness :
  0 ≤ 0
  ∧ search_google quiet_server "rocq" 0 None None "lang_en" None None fresh_world
    = (Ok [], fresh_world).
Proof.
  split; [lia|].
  apply (search_google_nothing_wanted quiet_server "rocq" 0 None None "lang_en"
           None None fresh_world). lia.
Defined.

Lemma save_activity_twice_witness :
  ∃ w2,
    _save_activity "2026-01-03T00:00:00Z" results_ab after_first_save.2 = (Ok [], w2)
    ∧ activity_file w2 = activity_file after_first_save.2
    ∧ activity_urls w2 = activity_urls after_first_save.2.
Proof.
  apply (save_activity_twice the_clock "2026-01-03T00:00:00Z" results_ab fresh_world
           (match after_first_save.1 with Ok l => l | Raise _ => [] end)
           after_first_save.2).
  vm_compute. reflexivity.
Defined.

Lemma backfill_marks_sent_witness :
  ∃ evs q,
    _sync_telegram_bot_and_send quiet_server [] world_before_backfill
      = (Ok tt, stepped world_before_backfill evs q)
    ∧ q = queue_entry true <$> activity_ab
    ∧ length q = length activity_ab
    ∧ urls q = urls activity_ab
    ∧ Forall (λ e : dict, get e "telegram_sent" = VBool true) q
    ∧ requests_of evs = [].
Proof.
  apply (backfill_marks_sent quiet_server world_before_backfill activity_ab).
  - reflexivity.
  - left. reflexivity.
  - repeat constructor.
  - apply (bool_decide_unpack _). vm_compute. exact I.
Defined.

(** ** A run without search credentials *)

Section NoCredentials.

Context (server : list event → request → outcome).

Lemma search_google_no_credentials keyword n lang w :
  no_provider_credentials w → 0 < n →
  search_google server keyword n None None lang None None w
  = (Raise (ValueError credentials_missing), w).
Proof.
  intros [Hserp Hgoogle] Hn. unfold search_google.
  rewrite (proj2 (Z.leb_gt n 0) Hn). rewrite bind_read. cbv beta zeta.
  unfold py_or. cbn [truthy_str]. rewrite Hserp.
  destruct Hgoogle as [-> | ->]; [done|].
  by destruct (truthy_str (environ w !! "GOOGLE_SEARCH_API_KEY")).
Qed.

Lemma search_keyword_no_credentials n rbk keyword w :
  no_provider_credentials w → 0 < n →
  search_keyword server n rbk keyword w
  = (Ok (dict_set keyword [] rbk),
     set_trace (trace w ++ failed_search_events keyword credentials_missing) w).
Proof.
  intros Hnc Hn. unfold search_keyword. rewrite !bind_print.
  set (w3 := log _ (log _ (log _ w))).
  assert (Hnc3 : no_provider_credentials w3) by exact Hnc.
  unfold try_except.
  rewrite (bind_raise _ _ _ _ _
             (search_google_no_credentials keyword n "lang_en" w3 Hnc3 Hn)).
  cbn [is_ValueError_or_RuntimeError]. rewrite bind_print.
  unfold ret, w3, log, set_trace, failed_search_events. cbn [trace str_exn].
  by rewrite <- !app_assoc.
Qed.

Lemma search_loop_no_credentials n keywords rbk w :
  no_provider_credentials w → 0 < n →
  for_each (search_keyword server n) keywords rbk w
  = (Ok (no_results keywords rbk),
     set_trace (trace w ++ concat ((λ k, failed_search_events k credentials_missing)
                                    <$> keywords)) w).
Proof.
  intros Hnc Hn. revert rbk w Hnc.
  induction keywords as [|k keywords IH]; intros rbk w Hnc.
  - simpl. unfold ret. by rewrite app_nil_r, set_trace_trace.
  - cbn [for_each].
    rewrite (bind_ok _ _ _ _ _ (search_keyword_no_credentials n rbk k w Hnc Hn)).
    rewrite IH by exact Hnc. rewrite fmap_cons. cbn [concat no_results fold_left].
    unfold set_trace. cbn [trace]. by rewrite <- app_assoc.
Qed.

End NoCredentials.

Lemma load_config_returns w keywords n w' :
  _load_config w = (Ok (keywords, n), w') → 0 < n ∧ w' = w.
Proof.
  unfold _load_config. rewrite bind_read.
  destruct (config_file w) as [[| |cfg]|]; try done.
  unfold json_load. rewrite bind_ret. unfold ret. intros [= _ <- <-].
  split; [|done].
  destruct (cfg_results_per_keyword cfg) as [k|]; [|done].
  destruct (k <? 1) eqn:Hk; [done|]. apply Z.ltb_ge in Hk. lia.
Qed.

Lemma save_history_run run_at rbk w :
  (∀ d, history_files w !! history_name run_at = Some d → ∃ day, d = Parsed day) →
  _save_history run_at rbk w
  = (Ok tt, write_history (history_name run_at)
              (appended (history_files w !! history_name run_at) run_at rbk) w).
Proof.
  intros Hfile. unfold _save_history, _ensure_dirs, appended.
  rewrite bind_ret, bind_read. fold (history_name run_at).
  destruct (history_files w !! history_name run_at) as [d|]; [|done].
  destruct (Hfile d eq_refl) as [day ->]. done.
Qed.

Lemma no_results_empty keywords d k its :
  (k, its) ∈ no_results keywords d → (k, its) ∈ d ∨ its = [].
Proof.
  unfold no_results. revert d.
  induction keywords as [|k0 keywords IH]; intros d; simpl; [by left|].
  intros Hin. destruct (IH _ Hin) as [Hd|]; [|by right].
  clear -Hd. induction d as [|[k' v'] d IHd]; simpl in Hd.
  - apply list_elem_of_singleton in Hd as [= ]. by right.
  - destruct (String.eqb k' k0).
    + apply elem_of_cons in Hd as [[= ]|Hd]; [by right|]. left. by right.
    + apply elem_of_cons in Hd as [Heq|Hd]; [left; rewrite Heq; by left|].
      destruct (IHd Hd) as [H|H]; [left; by right|by right].
Qed.

Lemma record_loop_no_results run_at keywords st :
  record_loop run_at (no_results keywords []) st = st.
Proof.
  apply record_loop_noop. intros k its Hin.
  destruct (no_results_empty _ _ _ _ Hin) as [H| ->].
  - by apply elem_of_nil in H.
  - intros r Hr. by apply elem_of_nil in Hr.
Qed.

(** C1, as the code has it: without search credentials a run reports the
    error for each keyword, sends no request, and still persists -- it
    appends a run with empty results to the day's history, rewrites the
    activity store with the entries it held, and goes on to reconcile the
    notification queue with no new entries. *)
Theorem run_without_search_credentials server run_at w keywords n existing :
  no_provider_credentials w →
  _load_config w = (Ok (keywords, n), w) →
  (∀ d, history_files w !! history_name run_at = Some d → ∃ day, d = Parsed day) →
  activity_file w = None ∧ existing = []
  ∨ activity_file w = Some (Parsed (JList existing)) →
  Forall has_url existing →
  ∃ evs,
    run_keywords_main server run_at w =
      (_sync_telegram_bot_and_send server [];; report_saved run_at)
        (set_trace (trace w ++ evs)
           (set_activity existing
              (set_history (history_name run_at)
                 (appended (history_files w !! history_name run_at) run_at
                    (no_results keywords []))
                 w)))
    ∧ requests_of evs = []
    ∧ writes_of evs = [HistoryFile (history_name run_at); ActivityFile]
    ∧ ∀ k, k ∈ keywords →
        EPrint ("Error for '" +:+ k +:+ "': " +:+ credentials_missing) ∈ evs.
Proof.
  intros Hnc Hcfg Hhist Hact Hurl.
  destruct (load_config_returns _ _ _ _ Hcfg) as [Hn _].
  set (searched := concat ((λ k, failed_search_events k credentials_missing)
                             <$> keywords)).
  exists (searched ++ [EWrite (HistoryFile (history_name run_at)); EWrite ActivityFile;
                       EPrint (nl +:+ "New URLs this run: " +:+ str_nat 0
                               +:+ " (only these are sent to Telegram)")]).
  split; [|split; [|split]].
  - unfold run_keywords_main.
    rewrite (bind_ok _ _ _ _ _ Hcfg). cbv beta iota.
    rewrite (bind_ok _ _ _ _ _ (search_loop_no_credentials server n keywords [] w Hnc Hn)).
    fold searched. unfold _ensure_dirs at 1. rewrite bind_ret.
    set (w1 := set_trace (trace w ++ searched) w).
    rewrite (bind_ok _ _ _ _ _ (save_history_run run_at _ w1 Hhist)).
    set (w2 := write_history _ _ w1).
    assert (Hact2 : activity_file w2 = None ∧ existing = []
                    ∨ activity_file w2 = Some (Parsed (JList existing))) by exact Hact.
    rewrite (bind_ok _ _ _ _ _ (save_activity_run run_at _ w2 existing Hact2 Hurl)).
    cbv zeta. rewrite record_loop_no_results. cbn [fst snd length].
    rewrite bind_print.
    unfold w2, w1, write_activity, write_history, log, set_trace, set_activity,
      set_history. cbn. by rewrite <- !app_assoc.
  - rewrite requests_of_app. cbn. rewrite app_nil_r. unfold searched.
    clear. induction keywords as [|k keywords IH]; [done|].
    rewrite fmap_cons. cbn [concat]. by rewrite requests_of_app, IH.
  - rewrite writes_of_app. cbn. unfold searched.
    assert (writes_of (concat ((λ k, failed_search_events k credentials_missing)
                                 <$> keywords)) = []) as ->; [|done].
    clear. induction keywords as [|k keywords IH]; [done|].
    rewrite fmap_cons. cbn [concat]. by rewrite writes_of_app, IH.
  - intros k Hk. apply elem_of_app. left. unfold searched.
    apply list_elem_of_In, in_concat.
    exists (failed_search_events k credentials_missing). split.
    + apply list_elem_of_In, list_elem_of_fmap. by exists k.
    + apply list_elem_of_In. unfold failed_search_events.
      do 3 right. by left.
Qed.

Lemma run_without_search_credentials_witness :
  ∃ evs,
    run_keywords_main quiet_server the_clock world_no_credentials =
      (_sync_telegram_bot_and_send quiet_server [];; report_saved the_clock)
        (set_trace (trace world_no_credentials ++ evs)
           (set_activity []
              (set_history (history_name the_clock)
                 (appended (history_files world_no_credentials !! history_name the_clock)
                    the_clock (no_results ["X"] []))
                 world_no_credentials)))
    ∧ requests_of evs = []
    ∧ writes_of evs = [HistoryFile (history_name the_clock); ActivityFile]
    ∧ ∀ k, k ∈ ["X"] →
        EPrint ("Error for '" +:+ k +:+ "': " +:+ credentials_missing) ∈ evs.
Proof.
  apply (run_without_search_credentials quiet_server the_clock world_no_credentials
           ["X"] 2 []).
  - split; [reflexivity|left; reflexivity].
  - reflexivity.
  - intros d Hd. vm_compute in Hd. discriminate Hd.
  - left. split; reflexivity.
  - constructor.
Defined.

(** C1 as stated fails: with no search credentials at all the run returns
    normally, and the day's history file, the activity store and the
    notification queue, all absent before, have all been written. *)
Lemma run_without_credentials_persists :
  no_provider_credentials world_no_credentials
  ∧ history_files world_no_credentials !! "2026-01-02.json" = None
  ∧ activity_file world_no_credentials = None
  ∧ telegram_bot_file world_no_credentials = None
  ∧ let out := run_keywords_main quiet_server the_clock world_no_credentials in
    out.1 = Ok tt
    ∧ history_files out.2 !! "2026-01-02.json"
      = Some (Parsed {| date := "2026-01-02";
                        runs := [ {| run_at := the_clock; results := [("X", [])] |} ] |})
    ∧ activity_file out.2 = Some (Parsed (JList []))
    ∧ telegram_bot_file out.2 = Some (Parsed (JList []))
    ∧ writes_of (trace out.2)
      = [HistoryFile "2026-01-02.json"; ActivityFile; TelegramBotFile].
Proof.
  split; [split; [reflexivity|left; reflexivity]|].
  repeat split; vm_compute; reflexivity.
Qed.

(** ** A corrupt activity store *)

(** C7 fails for the activity store: with an unparseable activity document
    the run finds two urls, appends them to the history, and then raises out
    of [_save_activity]; neither the activity store nor the notification
    queue is written. *)
Theorem corrupt_activity_aborts_run :
  let out := run_keywords_main serp_server the_clock world_corrupt_activity in
  out.1 = Raise JSONDecodeError
  ∧ activity_file out.2 = Some Unparseable
  ∧ telegram_bot_file out.2 = None
  ∧ writes_of (trace out.2) = [HistoryFile "2026-01-02.json"]
  ∧ length (requests_of (trace out.2)) = 1%nat.
Proof. repeat split; vm_compute; reflexivity. Qed.

(** The same document in the notification store is read as the empty list,
    and the run goes through. *)
Lemma corrupt_queue_is_empty :
  let w := a_world search_env config_X None (Some Unparseable) in
  let out := run_keywords_main serp_server the_clock w in
  out.1 = Ok tt
  ∧ urls (entries (telegram_bot_file out.2)) = {[ VStr "a"; VStr "b" ]}.
Proof. split; vm_compute; reflexivity. Qed.

(** ** A pass in which one delivery fails *)

Lemma pending_from_ge i l ref : ref ∈ pending_from i l → (i ≤ ref)%nat.
Proof. rewrite elem_of_pending_from. intros (k & e & -> & _). lia. Qed.

Lemma pending_from_NoDup i l : NoDup (pending_from i l).
Proof.
  revert i. induction l as [|e l IH]; intros i; simpl; [constructor|].
  destruct (is_False (get e "telegram_sent")); [|apply IH].
  constructor; [|apply IH]. intros Hin. apply pending_from_ge in Hin. lia.
Qed.

Lemma pending_refs_NoDup l : NoDup (pending_refs l).
Proof. apply pending_from_NoDup. Qed.

Lemma mark_sent_lookup_ne ref ref' l :
  ref ≠ ref' → mark_sent ref l !! ref' = l !! ref'.
Proof.
  intros Hne. unfold mark_sent. destruct (l !! ref); [|done].
  by apply list_lookup_insert_ne.
Qed.

Section OneFailure.

Context (server : list event → request → outcome).

Lemma send_one_delivered token chat_id total l n err i ref e o t w :
  l !! ref = Some e →
  truthy (get_or e "url" (VStr "")) = true →
  server t (TelegramPost token chat_id (message_of e)) = o →
  (telegram_result o).1 = true →
  send_one server token chat_id total
    {| st_bot_list := l; st_sent_count := n; st_first_error := err |}
    (i, ref) (set_trace t w)
  = (Ok {| st_bot_list := mark_sent ref l; st_sent_count := S n;
           st_first_error := err |},
     set_trace (t ++ attempt_events token chat_id e o i total (S n)) w).
Proof.
  intros He Hu Ho Hok.
  rewrite (send_one_attempt server token chat_id total
             {| st_bot_list := l; st_sent_count := n; st_first_error := err |}
             i ref e (set_trace t w) He Hu).
  cbn [trace set_trace]. rewrite Ho. unfold after_attempt, mark_sent.
  rewrite Hok, He. done.
Qed.

Lemma send_one_failed token chat_id total l n i ref e o t w :
  l !! ref = Some e →
  truthy (get_or e "url" (VStr "")) = true →
  server t (TelegramPost token chat_id (message_of e)) = o →
  (telegram_result o).1 = false →
  send_one server token chat_id total
    {| st_bot_list := l; st_sent_count := n; st_first_error := "" |}
    (i, ref) (set_trace t w)
  = (Ok {| st_bot_list := l; st_sent_count := n;
           st_first_error := (telegram_result o).2 |},
     set_trace (t ++ attempt_events token chat_id e o i total n) w).
Proof.
  intros He Hu Ho Hok.
  rewrite (send_one_attempt server token chat_id total
             {| st_bot_list := l; st_sent_count := n; st_first_error := "" |}
             i ref e (set_trace t w) He Hu).
  cbn [trace set_trace]. rewrite Ho. unfold after_attempt.
  rewrite Hok. done.
Qed.

End OneFailure.

Section FivePending.

Context (server : list event → request → outcome).
Context (token chat_id : string) (l : list dict).
Context (p1 p2 p3 p4 p5 : nat) (e1 e2 e3 e4 e5 : dict) (o1 o2 o3 o4 o5 : outcome).

(** Five pending entries, each with a url. *)
Hypothesis Hpending : pending_refs l = [p1; p2; p3; p4; p5].
Hypothesis Hentries :
  l !! p1 = Some e1 ∧ l !! p2 = Some e2 ∧ l !! p3 = Some e3
  ∧ l !! p4 = Some e4 ∧ l !! p5 = Some e5.
Hypothesis Hurls :
  Forall (λ e : dict, truthy (get_or e "url" (VStr "")) = true) [e1; e2; e3; e4; e5].

(** What the server answers to each of the five messages. *)
Hypothesis Hserver :
  ∀ t, Forall2 (λ (e : dict) o, server t (TelegramPost token chat_id (message_of e)) = o)
         [e1; e2; e3; e4; e5] [o1; o2; o3; o4; o5].

(** The third delivery fails, the others succeed. *)
Hypothesis Houtcomes :
  (λ o, (telegram_result o).1) <$> [o1; o2; o3; o4; o5]
  = [true; true; false; true; true].

Hypothesis Hcredentials : token ≠ "" ∧ chat_id ≠ "".

Lemma five_distinct :
  p1 ≠ p2 ∧ p1 ≠ p3 ∧ p1 ≠ p4 ∧ p1 ≠ p5 ∧ p2 ≠ p3 ∧ p2 ≠ p4 ∧ p2 ≠ p5
  ∧ p4 ≠ p5 ∧ p4 ≠ p3 ∧ p5 ≠ p3.
Proof using Hpending.
  pose proof (pending_refs_NoDup l) as Hnd. rewrite Hpending in Hnd.
  repeat (apply NoDup_cons in Hnd as [? Hnd]).
  repeat match goal with H : _ ∉ _ :: _ |- _ => apply not_elem_of_cons in H as [? ?] end.
  repeat split; congruence.
Qed.

Lemma five_pending_loop t w :
  send_loop server token chat_id l [p1; p2; p3; p4; p5] (set_trace t w)
  = (Ok {| st_bot_list := after_five l p1 p2 p4 p5; st_sent_count := 4;
           st_first_error := (telegram_result o3).2 |},
     set_trace (t ++ five_attempts token chat_id e1 e2 e3 e4 e5 o1 o2 o3 o4 o5) w).
Proof using Hpending Hentries Hurls Hserver Houtcomes.
  destruct five_distinct
    as (n12 & n13 & n14 & n15 & n23 & n24 & n25 & n45 & n43 & n53).
  destruct Hentries as (H1 & H2 & H3 & H4 & H5).
  apply Forall_cons in Hurls as [U1 Hu]. apply Forall_cons in Hu as [U2 Hu].
  apply Forall_cons in Hu as [U3 Hu]. apply Forall_cons in Hu as [U4 Hu].
  apply Forall_cons in Hu as [U5 _].
  injection Houtcomes as K1 K2 K3 K4 K5.
  assert (Hs : ∀ t, server t (TelegramPost token chat_id (message_of e1)) = o1
                    ∧ server t (TelegramPost token chat_id (message_of e2)) = o2
                    ∧ server t (TelegramPost token chat_id (message_of e3)) = o3
                    ∧ server t (TelegramPost token chat_id (message_of e4)) = o4
                    ∧ server t (TelegramPost token chat_id (message_of e5)) = o5).
  { intros t'. pose proof (Hserver t') as Hf.
    apply Forall2_cons in Hf as [? Hf]. apply Forall2_cons in Hf as [? Hf].
    apply Forall2_cons in Hf as [? Hf]. apply Forall2_cons in Hf as [? Hf].
    apply Forall2_cons in Hf as [? _]. done. }
  unfold send_loop.
  change (enumerate [p1; p2; p3; p4; p5])
    with [(1, p1); (2, p2); (3, p3); (4, p4); (5, p5)]%nat.
  change (length [p1; p2; p3; p4; p5]) with 5%nat.
  cbn [for_each].
  set (l1 := mark_sent p1 l). set (l2 := mark_sent p2 l1).
  set (l4 := mark_sent p4 l2).
  assert (L2 : l1 !! p2 = Some e2) by (unfold l1; by rewrite mark_sent_lookup_ne).
  assert (L3 : l2 !! p3 = Some e3)
    by (unfold l2, l1; by rewrite !mark_sent_lookup_ne).
  assert (L4 : l2 !! p4 = Some e4)
    by (unfold l2, l1; by rewrite !mark_sent_lookup_ne).
  assert (L5 : l4 !! p5 = Some e5)
    by (unfold l4, l2, l1; by rewrite !mark_sent_lookup_ne).
  rewrite (bind_ok _ _ _ _ _
    (send_one_delivered server token chat_id 5 l 0 "" 1 p1 e1 o1 t w
       H1 U1 (proj1 (Hs t)) K1)).
  fold l1. set (t1 := t ++ _).
  rewrite (bind_ok _ _ _ _ _
    (send_one_delivered server token chat_id 5 l1 1 "" 2 p2 e2 o2 t1 w
       L2 U2 (proj1 (proj2 (Hs t1))) K2)).
  fold l2. set (t2 := t1 ++ _).
  rewrite (bind_ok _ _ _ _ _
    (send_one_failed server token chat_id 5 l2 2 3 p3 e3 o3 t2 w
       L3 U3 (proj1 (proj2 (proj2 (Hs t2)))) K3)).
  set (t3 := t2 ++ _).
  rewrite (bind_ok _ _ _ _ _
    (send_one_delivered server token chat_id 5 l2 2 (telegram_result o3).2
       4 p4 e4 o4 t3 w L4 U4 (proj1 (proj2 (proj2 (proj2 (Hs t3))))) K4)).
  fold l4. set (t4 := t3 ++ _).
  rewrite (bind_ok _ _ _ _ _
    (send_one_delivered server token chat_id 5 l4 3 (telegram_result o3).2
       5 p5 e5 o5 t4 w L5 U5 (proj2 (proj2 (proj2 (proj2 (Hs t4))))) K5)).
  unfold ret, after_five. fold l1 l2 l4. f_equal. f_equal.
  unfold t4, t3, t2, t1, five_attempts, attempt_events.
  rewrite <- !app_assoc. reflexivity.
Qed.

Lemma truthy_str_Some s : s ≠ "" → truthy_str (Some s) = true.
Proof.
  intros Hs. simpl. apply negb_true_iff. by apply String.eqb_neq.
Qed.

(** C3, as the code has it: the pass attempts all five entries in order,
    counts four sent and keeps the third entry's error as the first error
    of the pass; the queue is persisted once, after the fifth attempt, with
    the third entry untouched.  Because something was sent, the closing
    report gives the count and not the error, in both scripts. *)
Theorem one_failure_of_five w :
  (∀ t, send_loop server token chat_id l [p1; p2; p3; p4; p5] (set_trace t w)
        = (Ok {| st_bot_list := after_five l p1 p2 p4 p5; st_sent_count := 4;
                 st_first_error := (telegram_result o3).2 |},
           set_trace (t ++ five_attempts token chat_id e1 e2 e3 e4 e5 o1 o2 o3 o4 o5) w))
  ∧ after_five l p1 p2 p4 p5 !! p3 = Some e3
  ∧ deliver_pending server (Some token) (Some chat_id) l w
    = (Ok tt,
       stepped w
         ([EPrint "Telegram: sending 5 URLs (one per message)..."]
          ++ five_attempts token chat_id e1 e2 e3 e4 e5 o1 o2 o3 o4 o5
          ++ [EWrite TelegramBotFile;
              EPrint "Telegram: sent 4 URLs (one per message)."])
         (after_five l p1 p2 p4 p5))
  ∧ (environ w !! "TELEGRAM_BOT_TOKEN" = Some token →
     environ w !! "TELEGRAM_GROUP_CHAT_ID" = Some chat_id →
     telegram_bot_file w = Some (Parsed (JList l)) →
     send_telegram_pending_main server false w
     = (Ok tt,
        stepped w
          ([EPrint "Sending 5 URLs (one per message). Progress below:"]
           ++ five_attempts token chat_id e1 e2 e3 e4 e5 o1 o2 o3 o4 o5
           ++ [EWrite TelegramBotFile; EPrint "Done. Sent 4/5 URLs to Telegram."])
          (after_five l p1 p2 p4 p5))).
Proof using Hpending Hentries Hurls Hserver Houtcomes Hcredentials.
  destruct Hcredentials as [Htok Hchat].
  pose proof (truthy_str_Some _ Htok) as Ht.
  pose proof (truthy_str_Some _ Hchat) as Hc.
  split; [intros t; apply five_pending_loop|].
  split.
  { destruct five_distinct
      as (n12 & n13 & n14 & n15 & n23 & n24 & n25 & n45 & n43 & n53).
    unfold after_five. rewrite !mark_sent_lookup_ne by done. apply Hentries. }
  split.
  - unfold deliver_pending. rewrite Hpending, Ht, Hc. cbn [negb orb default length].
    rewrite bind_print. unfold log at 1.
    rewrite (bind_ok _ _ _ _ _ (five_pending_loop _ w)).
    rewrite bind_modify. cbn [st_sent_count st_bot_list Nat.eqb negb].
    unfold print, write_telegram_bot, log, stepped, set_telegram_bot, set_trace.
    cbn [trace script_dir environ config_file history_files activity_file
         telegram_bot_file].
    rewrite <- !app_assoc. reflexivity.
  - intros Het Hec Hfile. unfold send_telegram_pending_main.
    rewrite !bind_read, Het, Hec, Ht, Hc. cbn [negb orb].
    rewrite bind_read, Hfile.
    rewrite (bind_ok _ _ _ _ _ (read_bot_list_total _ w)). cbn [entries].
    rewrite bind_ret. unfold send_pending. rewrite Hpending. cbn [default length].
    rewrite bind_print. unfold log at 1.
    rewrite (bind_ok _ _ _ _ _ (five_pending_loop _ w)).
    rewrite bind_modify. cbn [st_sent_count st_bot_list Nat.eqb negb].
    unfold print, write_telegram_bot, log, stepped, set_telegram_bot, set_trace.
    cbn [trace script_dir environ config_file history_files activity_file
         telegram_bot_file].
    rewrite <- !app_assoc. reflexivity.
Qed.

End FivePending.

Lemma one_failure_of_five_witness :
  deliver_pending refusing_server (Some "t0ken") (Some "-100") queue_five world_five
  = (Ok tt,
     stepped world_five
       ([EPrint "Telegram: sending 5 URLs (one per message)..."]
        ++ five_attempts "t0ken" "-100"
             (queued_entry "u1" "X" false) (queued_entry "u2" "X" false)
             (queued_entry "u3" "X" false) (queued_entry "u4" "X" false)
             (queued_entry "u5" "X" false)
             (inr ok_response) (inr ok_response) the_refusal
             (inr ok_response) (inr ok_response)
        ++ [EWrite TelegramBotFile;
            EPrint "Telegram: sent 4 URLs (one per message)."])
       (after_five queue_five 1 2 4 5)).
Proof.
  refine (proj1 (proj2 (proj2
    (one_failure_of_five refusing_server "t0ken" "-100" queue_five 1 2 3 4 5
       (queued_entry "u1" "X" false) (queued_entry "u2" "X" false)
       (queued_entry "u3" "X" false) (queued_entry "u4" "X" false)
       (queued_entry "u5" "X" false)
       (inr ok_response) (inr ok_response) the_refusal
       (inr ok_response) (inr ok_response) _ _ _ _ _ _ world_five)))).
  - reflexivity.
  - repeat split; reflexivity.
  - repeat constructor.
  - intros t. repeat constructor.
  - reflexivity.
  - split; discriminate.
Defined.

(** C3 as stated fails in its last part: after the pass with one failure
    out of five, the refusal's text appears in no printed line and in no
    value of the persisted queue, in the run script and in the resend
    script alike. *)
Lemma first_error_not_surfaced :
  let run := _sync_telegram_bot_and_send refusing_server [] world_five in
  let resend := send_telegram_pending_main refusing_server false world_five in
  run.1 = Ok tt
  ∧ length (requests_of (trace run.2)) = 5%nat
  ∧ surfaced "Forbidden" run.2 = false
  ∧ surfaced "sent 4 URLs" run.2 = true
  ∧ last (printed (trace run.2)) = Some "Telegram: sent 4 URLs (one per message)."
  ∧ resend.1 = Ok tt
  ∧ length (requests_of (trace resend.2)) = 5%nat
  ∧ surfaced "Forbidden" resend.2 = false
  ∧ last (printed (trace resend.2)) = Some "Done. Sent 4/5 URLs to Telegram.".
Proof. repeat split; vm_compute; reflexivity. Qed.

(** ** The resend script *)

Lemma pending_from_all i l :
  Forall (λ e : dict, is_False (get e "telegram_sent") = true) l →
  pending_from i l = seq i (length l).
Proof.
  intros Hl. revert i. induction Hl as [|e l He _ IH]; intros i; simpl; [done|].
  by rewrite He, IH.
Qed.

Lemma pending_refs_reset_all l :
  pending_refs (reset_all l) = seq 0 (length l).
Proof.
  unfold pending_refs. rewrite pending_from_all.
  - unfold reset_all. by rewrite length_fmap.
  - unfold reset_all. apply Forall_fmap, Forall_true. intros e. simpl.
    unfold get. by rewrite lookup_insert_eq.
Qed.

Section Resend.

Context (server : list event → request → outcome).

(** The sending part of the resend script, given credentials: either
    nothing was pending and nothing is written (without [--resend-all]), or
    one request goes out per pending entry with a url and the queue is
    written exactly once, afterwards. *)
Lemma send_pending_post resend_all token chat_id l w :
  ∃ evs,
    (send_pending server resend_all token chat_id l w
       = (Ok tt, set_trace (trace w ++ evs) w)
     ∧ requests_of evs = [] ∧ writes_of evs = [] ∧ resend_all = false
     ∧ pending_refs l = [])
    ∨ (∃ l' tail,
         send_pending server resend_all token chat_id l w
           = (Ok tt, stepped w (evs ++ [EWrite TelegramBotFile] ++ tail) l')
         ∧ delivery_of (default "" token) (default "" chat_id) l evs l'
         ∧ requests_of evs
           = omap (attempt_of (default "" token) (default "" chat_id) l)
               (pending_refs l)
         ∧ writes_of evs = []
         ∧ requests_of tail = [] ∧ writes_of tail = []
         ∧ (pending_refs l ≠ [] →
            ∃ rest, evs = EPrint ("Sending " +:+ str_nat (length (pending_refs l))
                                  +:+ " URLs (one per message). Progress below:")
                          :: rest)).
Proof.
  unfold send_pending.
  assert (Hsame : ∀ evs, delivery_of (default "" token) (default "" chat_id) l evs l).
  { intros evs. split; [done|]. intros k e He. by left. }
  destruct (pending_refs l) as [|ref p] eqn:Hp.
  { rewrite bind_print.
    exists [EPrint "Nothing to send (no entries with telegram_sent: false)."].
    destruct resend_all.
    - right. exists l, []. split; [|repeat split; try done; apply Hsame].
      unfold modify, write_telegram_bot, log, stepped, set_telegram_bot, set_trace.
      cbn. by rewrite <- !app_assoc.
    - left. repeat split; done. }
  rewrite bind_print.
  set (w0 := log _ _).
  destruct (send_loop_inv server (default "" token) (default "" chat_id) l
              (ref :: p) w0)
    as (st & w1 & Hrun & evs & -> & Hlen & Hent & Hreq & Hwr).
  rewrite (bind_ok _ _ _ _ _ Hrun). rewrite bind_modify.
  exists ([EPrint ("Sending " +:+ str_nat (length (ref :: p))
                   +:+ " URLs (one per message). Progress below:")] ++ evs).
  right. exists (st_bot_list st).
  assert (Hend : ∃ tail,
    (if negb (Nat.eqb (st_sent_count st) 0)
     then print ("Done. Sent " +:+ str_nat (st_sent_count st) +:+ "/"
                 +:+ str_nat (length (ref :: p)) +:+ " URLs to Telegram.")
     else print ("Failed. Telegram API error: " +:+ st_first_error st);;
          print "Check: (1) Bot is in the group, (2) TELEGRAM_GROUP_CHAT_ID is correct (negative number).")
      (write_telegram_bot (st_bot_list st) (set_trace (trace w0 ++ evs) w0))
    = (Ok tt, stepped w (([EPrint ("Sending " +:+ str_nat (length (ref :: p))
                          +:+ " URLs (one per message). Progress below:")] ++ evs)
                         ++ [EWrite TelegramBotFile] ++ tail) (st_bot_list st))
    ∧ requests_of tail = [] ∧ writes_of tail = []).
  { destruct (negb (Nat.eqb (st_sent_count st) 0)); eexists; (split; [|split]);
      [ unfold bind, print, write_telegram_bot, log, stepped, set_trace,
          set_telegram_bot, w0; cbn; rewrite <- !app_assoc; cbn; reflexivity
      | reflexivity | reflexivity
      | unfold bind, print, write_telegram_bot, log, stepped, set_trace,
          set_telegram_bot, w0; cbn; rewrite <- !app_assoc; cbn; reflexivity
      | reflexivity | reflexivity ]. }
  destruct Hend as (tail & Hend & Htr & Htw).
  exists tail. split; [exact Hend|].
  repeat split; try done.
  - intros k e He.
    destruct (Hent _ _ He) as [H|(H & Hin & Ht & Hd)]; [by left|right].
    rewrite <- Hp in Hin.
    apply elem_of_pending_refs in Hin as (e' & He' & Hf).
    rewrite He in He'. injection He' as <-.
    repeat split; try done.
    destruct Hd as (r & Hin & Hs). exists r. split; [|done].
    rewrite !elem_of_app. by right.
  - intros _. rewrite <- Hp. by eexists.
Qed.

Lemma stepped_log ev w evs l :
  stepped (log ev w) evs l = stepped w ([ev] ++ evs) l.
Proof. unfold stepped, log, set_trace, set_telegram_bot. cbn. by rewrite <- app_assoc. Qed.

Lemma set_trace_log ev w evs :
  set_trace (trace (log ev w) ++ evs) (log ev w) = set_trace (trace w ++ [ev] ++ evs) w.
Proof. unfold log, set_trace. cbn. by rewrite <- app_assoc. Qed.

(** The resend script never raises.  Either it writes nothing and sends
    nothing, or it had credentials and a store file, sent one request per
    pending entry with a url, and then wrote the queue exactly once. *)
Lemma send_main_cases resend_all w :
  ∃ evs,
    (send_telegram_pending_main server resend_all w
       = (Ok tt, set_trace (trace w ++ evs) w)
     ∧ requests_of evs = [] ∧ writes_of evs = []
     ∧ (env_credentials w = false ∨ telegram_bot_file w = None
        ∨ resend_all = false))
    ∨ (∃ l' tail,
         send_telegram_pending_main server resend_all w
           = (Ok tt, stepped w (evs ++ [EWrite TelegramBotFile] ++ tail) l')
         ∧ env_credentials w = true
         ∧ is_Some (telegram_bot_file w)
         ∧ delivery_of (env_token w) (env_chat_id w)
             (loaded_for_send resend_all w) evs l'
         ∧ requests_of evs
           = omap (attempt_of (env_token w) (env_chat_id w)
                     (loaded_for_send resend_all w))
               (pending_refs (loaded_for_send resend_all w))
         ∧ writes_of evs = []
         ∧ requests_of tail = [] ∧ writes_of tail = []).
Proof.
  unfold send_telegram_pending_main, env_credentials, have_credentials,
    env_token, env_chat_id.
  rewrite !bind_read.
  set (token := environ w !! "TELEGRAM_BOT_TOKEN").
  set (chat_id := environ w !! "TELEGRAM_GROUP_CHAT_ID").
  destruct (truthy_str token && truthy_str chat_id) eqn:Hc.
  2:{ assert (negb (truthy_str token) || negb (truthy_str chat_id) = true) as ->.
      { destruct (truthy_str token), (truthy_str chat_id); done. }
      eexists [_]. left. repeat split; [done..|by left]. }
  assert (negb (truthy_str token) || negb (truthy_str chat_id) = false) as ->.
  { destruct (truthy_str token), (truthy_str chat_id); done. }
  rewrite bind_read. unfold loaded_for_send.
  destruct (telegram_bot_file w) as [d|] eqn:Hfile.
  2:{ rewrite bind_read. eexists [_]. left. repeat split; [done..|right; by left]. }
  rewrite (bind_ok _ _ _ _ _ (read_bot_list_total d w)).
  set (q := entries (Some d)).
  destruct resend_all.
  - rewrite bind_assoc, bind_print, bind_ret. fold (reset_all q).
    set (ev := EPrint "Marked all entries as unsent (telegram_sent: false).").
    destruct (send_pending_post true token chat_id (reset_all q) (log ev w))
      as [evs [(_ & _ & _ & [=] & _)|(l' & tail & Hrun & Hd & Hreq & Hwr & Htr & Htw & _)]].
    exists ([ev] ++ evs). right. exists l', tail.
    rewrite Hrun, stepped_log, <- app_assoc.
    split; [reflexivity|]. split; [done|]. split; [done|].
    split; [|split; [|done]].
    + split; [apply Hd|]. destruct Hd as [_ Hd]. intros k e He.
      destruct (Hd _ _ He) as [H|(H & Hf & Ht & r & Hin & Hs)]; [by left|right].
      repeat split; try done. exists r. split; [|done].
      apply elem_of_app. by right.
    + by rewrite requests_of_app.
  - rewrite bind_ret.
    destruct (send_pending_post false token chat_id q w)
      as [evs [(Hrun & Hreq & Hwr & _ & _)|(l' & tail & Hrun & Hd & Hreq & Hwr & Htr & Htw & _)]].
    + exists evs. left. repeat split; try done. by do 2 right.
    + exists evs. right. exists l', tail. repeat split; try done; apply Hd.
Qed.

End Resend.

(** C4, as the code has it: the resend script checks the credentials
    first and, without them, reports that and stops -- nothing is loaded,
    reset or written.  With credentials and a store file it marks every
    loaded entry unsent, whatever its flag was, attempts every entry that has
    a url, in order, and writes the queue once, after the last attempt: the
    all-unsent list itself is never written on its own. *)
Theorem resend_all_as_coded server w :
  (env_credentials w = false →
   send_telegram_pending_main server true w
   = (Ok tt, log (EPrint "Set TELEGRAM_BOT_TOKEN and TELEGRAM_GROUP_CHAT_ID in .env") w))
  ∧ (env_credentials w = true →
     ∀ d, telegram_bot_file w = Some d →
     let q := reset_all (entries (Some d)) in
     ∃ evs tail l',
       send_telegram_pending_main server true w
       = (Ok tt, stepped w (evs ++ [EWrite TelegramBotFile] ++ tail) l')
       ∧ delivery_of (env_token w) (env_chat_id w) q evs l'
       ∧ requests_of evs
         = omap (attempt_of (env_token w) (env_chat_id w) q) (seq 0 (length q))
       ∧ writes_of evs = []
       ∧ requests_of tail = [] ∧ writes_of tail = []).
Proof.
  split.
  - unfold env_credentials, have_credentials, send_telegram_pending_main.
    intros Hc. rewrite !bind_read.
    assert (negb (truthy_str (environ w !! "TELEGRAM_BOT_TOKEN"))
            || negb (truthy_str (environ w !! "TELEGRAM_GROUP_CHAT_ID")) = true) as ->.
    { destruct (truthy_str _), (truthy_str _); done. }
    done.
  - intros Hc d Hfile q.
    destruct (send_main_cases server true w)
      as [evs [(_ & _ & _ & Hno)|(l' & tail & Hrun & _ & _ & Hd & Hreq & Hwr & Htr & Htw)]].
    { rewrite Hc, Hfile in Hno. naive_solver. }
    unfold loaded_for_send in Hd, Hreq. rewrite Hfile in Hd, Hreq.
    fold q in Hd, Hreq.
    exists evs, tail, l'. repeat split; try done; try apply Hd.
    rewrite Hreq. unfold q. rewrite pending_refs_reset_all.
    unfold reset_all. by rewrite length_fmap.
Qed.

Lemma resend_all_as_coded_witness :
  send_telegram_pending_main quiet_server true world_resend_no_credentials
  = (Ok tt, log (EPrint "Set TELEGRAM_BOT_TOKEN and TELEGRAM_GROUP_CHAT_ID in .env")
              world_resend_no_credentials)
  ∧ ∃ evs tail l',
      send_telegram_pending_main quiet_server true world_resend
      = (Ok tt, stepped world_resend (evs ++ [EWrite TelegramBotFile] ++ tail) l')
      ∧ delivery_of (env_token world_resend) (env_chat_id world_resend)
          (reset_all queue_sent_z) evs l'
      ∧ requests_of evs
        = omap (attempt_of (env_token world_resend) (env_chat_id world_resend)
                  (reset_all queue_sent_z))
            (seq 0 (length (reset_all queue_sent_z)))
      ∧ writes_of evs = []
      ∧ requests_of tail = [] ∧ writes_of tail = [].
Proof.
  split.
  - apply (proj1 (resend_all_as_coded quiet_server world_resend_no_credentials)).
    reflexivity.
  - apply (proj2 (resend_all_as_coded quiet_server world_resend)
             eq_refl (Parsed (JList queue_sent_z))).
    reflexivity.
Defined.

(** C4 as stated fails twice.  Without credentials the reset is neither
    applied nor persisted: the store still holds the entry as sent and no
    file was written.  With credentials the request goes out before the only
    write, and what that write persists is the entry already marked sent
    again, never the all-unsent list. *)
Lemma resend_all_does_not_persist_reset :
  let blocked := send_telegram_pending_main quiet_server true world_resend_no_credentials in
  let resent := send_telegram_pending_main quiet_server true world_resend in
  blocked.1 = Ok tt
  ∧ telegram_bot_file blocked.2 = Some (Parsed (JList queue_sent_z))
  ∧ writes_of (trace blocked.2) = []
  ∧ resent.1 = Ok tt
  ∧ trace resent.2
    = [EPrint "Marked all entries as unsent (telegram_sent: false).";
       EPrint "Sending 1 URLs (one per message). Progress below:";
       ERequest (TelegramPost "t0ken" "-100" (message_of (queued_entry "z" "X" true)))
         (inr ok_response);
       EPrint "  1/1 sent (ok: 1)"; ESleep;
       EWrite TelegramBotFile;
       EPrint "Done. Sent 1/1 URLs to Telegram."]
  ∧ telegram_bot_file resent.2 = Some (Parsed (JList queue_sent_z)).
Proof. repeat split; vm_compute; reflexivity. Qed.

(** ** What a computation leaves alone *)

Section Preserves.

Context {S : Type} (R : S → S → Prop) `{!Reflexive R, !Transitive R}.

Lemma preserves_ret {A} (a : A) : preserves R (ret a).
Proof. intros s r s' [= _ <-]. reflexivity. Qed.

Lemma preserves_raise {A} e : preserves R (@raise S A e).
Proof. intros s r s' [= _ <-]. reflexivity. Qed.

Lemma preserves_bind {A B} (m : SE S A) (k : A → SE S B) :
  preserves R m → (∀ a, preserves R (k a)) → preserves R (bind m k).
Proof.
  intros Hm Hk s r s'. unfold bind.
  destruct (m s) as [[a|e] s1] eqn:Hms.
  - intros Hks. etransitivity; [by eapply Hm|by eapply Hk].
  - intros [= _ <-]. by eapply Hm.
Qed.

Lemma preserves_try_except {A} (m : SE S A) catches (h : exn → SE S A) :
  preserves R m → (∀ e, preserves R (h e)) → preserves R (try_except m catches h).
Proof.
  intros Hm Hh s r s'. unfold try_except.
  destruct (m s) as [[a|e] s1] eqn:Hms.
  - intros [= _ <-]. by eapply Hm.
  - destruct (catches e).
    + intros Hhs. etransitivity; [by eapply Hm|by eapply Hh].
    + intros [= _ <-]. by eapply Hm.
Qed.

Lemma preserves_for_each {A B} (f : A → B → SE S A) (l : list B) a :
  (∀ a b, preserves R (f a b)) → preserves R (for_each f l a).
Proof.
  intros Hf. revert a. induction l as [|b l IH]; intros a; simpl.
  - apply preserves_ret.
  - apply preserves_bind; [apply Hf|]. intros a'. apply IH.
Qed.

End Preserves.

#[global] Instance extends_reflexive : Reflexive extends.
Proof. intros w. apply extends_refl. Qed.

#[global] Instance extends_transitive : Transitive extends.
Proof. intros w1 w2 w3. apply extends_trans. Qed.

Lemma preserves_read {A} (f : world → A) : preserves extends (read f).
Proof. intros w r w' [= _ <-]. reflexivity. Qed.

Lemma preserves_print msg : preserves extends (print msg).
Proof. intros w r w' [= _ <-]. apply extends_log. Qed.

Lemma preserves_lift_net {A} (m : NetM A) :
  preserves prefix m → preserves extends (lift_net m).
Proof.
  intros Hm w r w'. unfold lift_net.
  destruct (m (trace w)) as [r0 t] eqn:Hmt. intros [= _ <-].
  destruct (Hm _ _ _ Hmt) as [evs ->]. by exists evs.
Qed.

(** Apply a lemma on [preserves] and settle its order side conditions. *)
Tactic Notation "pres" uconstr(lem) := apply lem; try apply _.

Section SearchAppends.

Context (server : list event → request → outcome).

Lemma preserves_requests_get req : preserves prefix (requests_get server req).
Proof.
  intros t r t'. unfold requests_get, requests_send, bind.
  destruct (server t req); intros [= _ <-]; by eexists.
Qed.

Lemma preserves_resp_json resp : preserves prefix (resp_json resp).
Proof. unfold resp_json. destruct (json resp); [pres preserves_raise|pres preserves_ret]. Qed.

Lemma preserves_serpapi_loop fuel keyword num_results api_key num start results :
  preserves prefix
    (serpapi_loop server fuel keyword num_results api_key num start results).
Proof.
  revert start results. induction fuel as [|fuel IH]; intros start results; simpl.
  - destruct (len results <? num_results); pres preserves_ret.
  - destruct (len results <? num_results); [|pres preserves_ret].
    pres preserves_bind; [apply preserves_requests_get|].
    intros resp. destruct (negb (status_code resp =? 200));
      [pres preserves_raise|].
    pres preserves_bind; [apply preserves_resp_json|].
    intros data.
    destruct (len _ >=? num_results); [pres preserves_ret|].
    destruct (_ || _); [pres preserves_ret|apply IH].
Qed.

Lemma preserves_google_cse_loop fuel keyword num_results api_key cx lang start results :
  preserves prefix
    (google_cse_loop server fuel keyword num_results api_key cx lang start results).
Proof.
  revert start results. induction fuel as [|fuel IH]; intros start results; simpl.
  - destruct (len results <? num_results); pres preserves_ret.
  - destruct (len results <? num_results); [|pres preserves_ret].
    pres preserves_bind; [apply preserves_requests_get|].
    intros resp. destruct (negb (status_code resp =? 200));
      [pres preserves_raise|].
    pres preserves_bind; [apply preserves_resp_json|].
    intros data.
    destruct (match total_results data with Some total => total =? 0 | None => false end);
      [pres preserves_ret|].
    destruct (len _ >=? num_results); [pres preserves_ret|].
    destruct (_ || _); [pres preserves_ret|apply IH].
Qed.

Lemma preserves_search_google keyword n api_key cx lang use_serpapi serpapi_key :
  preserves extends
    (search_google server keyword n api_key cx lang use_serpapi serpapi_key).
Proof.
  unfold search_google.
  destruct (n <=? 0); [pres preserves_ret|].
  pres preserves_bind; [apply preserves_read|].
  intros env. cbv zeta.
  destruct (match use_serpapi with Some b => b | None => _ end).
  - destruct (negb _); [pres preserves_raise|].
    apply preserves_lift_net. unfold _search_serpapi.
    pres preserves_bind; [apply preserves_serpapi_loop|].
    intros results. pres preserves_ret.
  - destruct (_ || _); [pres preserves_raise|].
    apply preserves_lift_net. unfold _search_google_cse.
    pres preserves_bind; [apply preserves_google_cse_loop|].
    intros results. pres preserves_ret.
Qed.

Lemma preserves_print_result u ir : preserves extends (print_result u ir).
Proof.
  destruct ir as [i r]. unfold print_result, getitem.
  repeat first
    [ pres preserves_bind; [ |intros ?]
    | apply preserves_print
    | pres preserves_ret
    | pres preserves_raise
    | match goal with |- preserves _ (match ?x with _ => _ end) => destruct x end
    | match goal with |- preserves _ (if ?x then _ else _) => destruct x end ].
Qed.

Lemma preserves_search_keyword n rbk keyword :
  preserves extends (search_keyword server n rbk keyword).
Proof.
  unfold search_keyword.
  repeat (pres preserves_bind; [apply preserves_print|intros _]).
  pres preserves_try_except; [ |].
  - pres preserves_bind; [apply preserves_search_google|].
    intros results.
    pres preserves_bind; [ |intros _; pres preserves_ret].
    pres preserves_for_each; []. intros a b. apply preserves_print_result.
  - intros e. pres preserves_bind; [apply preserves_print|].
    intros _. pres preserves_ret.
Qed.

End SearchAppends.

(** ** Operations on the stores *)

#[global] Instance stores_kept_reflexive : Reflexive stores_kept.
Proof. intros w. by repeat split. Qed.

#[global] Instance stores_kept_transitive : Transitive stores_kept.
Proof.
  intros w1 w2 w3 (Ha & Hb & He & Ht) (Ha' & Hb' & He' & Ht').
  repeat split; try congruence. by etransitivity.
Qed.

Lemma extends_stores_kept w w' : extends w w' → stores_kept w w'.
Proof. intros [evs ->]. repeat split. by exists evs. Qed.

Lemma preserves_weaken {S A} (R R' : S → S → Prop) (m : SE S A) :
  (∀ s s', R s s' → R' s s') → preserves R m → preserves R' m.
Proof. intros HR Hm s r s' H. apply HR. by eapply Hm. Qed.

Lemma preserves_load_config : preserves extends _load_config.
Proof.
  unfold _load_config. pres preserves_bind; [apply preserves_read|].
  intros [d|].
  - pres preserves_bind.
    + destruct d; [pres preserves_raise..|pres preserves_ret].
    + intros data. pres preserves_ret.
  - pres preserves_bind; [apply preserves_read|]. intros path. pres preserves_raise.
Qed.

Lemma preserves_save_history run_at rbk :
  preserves stores_kept (_save_history run_at rbk).
Proof.
  intros w r w'. unfold _save_history, _ensure_dirs.
  rewrite bind_ret, bind_read.
  destruct (history_files w !! _) as [[| |d]|]; simpl;
    intros [= _ <-]; try reflexivity;
    (repeat split; by eexists [_]).
Qed.

Lemma save_activity_raises run_at rbk w e w' :
  _save_activity run_at rbk w = (Raise e, w') → w' = w.
Proof.
  destruct (activity_file w) as [[| |[existing|]]|] eqn:Hf.
  - rewrite save_activity_corrupt by by right. by intros [= _ <-].
  - rewrite save_activity_corrupt by by left. by intros [= _ <-].
  - destruct (decide (Forall has_url existing)) as [Hl|Hl].
    + rewrite (save_activity_run run_at rbk w existing) by (done || by right).
      done.
    + unfold _save_activity, _ensure_dirs. rewrite bind_ret, bind_read, Hf.
      unfold json_load, iter_doc. rewrite bind_assoc, bind_ret. cbv beta iota.
      rewrite bind_ret.
      destruct (url_set_raises existing ∅ w Hl) as [e2 He2].
      unfold url_set. rewrite (bind_raise _ _ _ _ _ He2). by intros [= _ <-].
  - unfold _save_activity, _ensure_dirs. rewrite bind_ret, bind_read, Hf.
    unfold json_load, iter_doc, bind. simpl. by intros [= _ <-].
  - rewrite (save_activity_run run_at rbk w []) by (done || by left). done.
Qed.

Section RunCases.

Context (server : list event → request → outcome).

(** A run either raises with both stores as they were, or gets past
    [_save_activity] and goes on to the notification step. *)
Lemma run_main_cases run_at w :
  (∃ e w', run_keywords_main server run_at w = (Raise e, w') ∧ stores_kept w w')
  ∨ (∃ rbk w1 new_entries w2,
       stores_kept w w1
       ∧ _save_activity run_at rbk w1 = (Ok new_entries, w2)
       ∧ run_keywords_main server run_at w
         = (_sync_telegram_bot_and_send server new_entries;; report_saved run_at)
             (log (EPrint (nl +:+ "New URLs this run: "
                           +:+ str_nat (length new_entries)
                           +:+ " (only these are sent to Telegram)")) w2)).
Proof.
  unfold run_keywords_main.
  destruct (_load_config w) as [[[kws n]|e] w0] eqn:Hcfg.
  2:{ left. exists e, w0. rewrite (bind_raise _ _ _ _ _ Hcfg). split; [done|].
      apply extends_stores_kept. by eapply preserves_load_config. }
  assert (H0 : stores_kept w w0).
  { apply extends_stores_kept. by eapply preserves_load_config. }
  rewrite (bind_ok _ _ _ _ _ Hcfg). cbv beta iota.
  destruct (for_each (search_keyword server n) kws [] w0) as [[rbk|e] w1] eqn:Hloop.
  2:{ left. exists e, w1. rewrite (bind_raise _ _ _ _ _ Hloop). split; [done|].
      etransitivity; [done|]. apply extends_stores_kept.
      eapply (preserves_for_each extends); [|done].
      intros a b. apply preserves_search_keyword. }
  assert (H1 : stores_kept w w1).
  { etransitivity; [done|]. apply extends_stores_kept.
    eapply (preserves_for_each extends); [|done].
    intros a b. apply preserves_search_keyword. }
  rewrite (bind_ok _ _ _ _ _ Hloop).
  assert (Hdirs : ∀ B (k : unit → M B) s, bind _ensure_dirs k s = k tt s) by done.
  rewrite Hdirs. clear Hdirs.
  destruct (_save_history run_at rbk w1) as [[[]|e] w1'] eqn:Hhist.
  2:{ left. exists e, w1'. rewrite (bind_raise _ _ _ _ _ Hhist). split; [done|].
      etransitivity; [done|]. by eapply preserves_save_history. }
  assert (H1' : stores_kept w w1').
  { etransitivity; [done|]. by eapply preserves_save_history. }
  rewrite (bind_ok _ _ _ _ _ Hhist). cbv beta.
  destruct (_save_activity run_at rbk w1') as [[new_entries|e] w2] eqn:Hact.
  2:{ left. exists e, w2. rewrite (bind_raise _ _ _ _ _ Hact). split; [done|].
      by rewrite (save_activity_raises _ _ _ _ _ Hact). }
  right. exists rbk, w1', new_entries, w2. split; [done|]. split; [done|].
  rewrite (bind_ok _ _ _ _ _ Hact). by rewrite bind_print.
Qed.

End RunCases.

(** ** What one operation does to the notification queue *)

Lemma delivery_of_mono token chat_id l evs evs' l' :
  (∀ ev, ev ∈ evs → ev ∈ evs') →
  delivery_of token chat_id l evs l' → delivery_of token chat_id l evs' l'.
Proof.
  intros Hsub [Hlen Hd]. split; [done|]. intros k e He.
  destruct (Hd _ _ He) as [H|(H & Hf & Ht & r & Hin & Hs)]; [by left|right].
  repeat split; try done. exists r. split; [by apply Hsub|done].
Qed.

Lemma save_activity_effect run_at rbk w new_entries w' :
  _save_activity run_at rbk w = (Ok new_entries, w') →
  ∃ existing,
    (activity_file w = None ∧ existing = []
     ∨ activity_file w = Some (Parsed (JList existing)))
    ∧ Forall has_url existing
    ∧ Forall wf_entry new_entries
    ∧ w' = write_activity (existing ++ new_entries) w.
Proof.
  intros Hrun.
  destruct (save_activity_returns _ _ _ _ _ Hrun) as (existing & Hfile & Hurl).
  exists existing. split; [done|]. split; [done|].
  rewrite (save_activity_run run_at rbk w existing Hfile Hurl) in Hrun.
  cbv zeta in Hrun.
  destruct (record_loop_grown run_at rbk (urls existing, existing, []))
    as [(added & _ & Hex & Hnew & Hwf) _].
  injection Hrun as Hn Hw. simpl in Hex, Hnew. rewrite Hnew in Hn. subst new_entries.
  split; [done|]. by rewrite <- Hw, Hex.
Qed.

Lemma report_saved_run run_at w :
  ∃ msg, report_saved run_at w = (Ok tt, log (EPrint msg) w).
Proof. eexists. unfold report_saved. by rewrite !bind_read. Qed.

(** The list handed to the delivery step extends the stored one. *)
Lemma reconciled_extends w new_entries :
  ∃ added,
    (reconciled w new_entries).2 = entries (telegram_bot_file w) ++ added
    ∧ Forall has_url added.
Proof.
  unfold reconciled.
  set (q := entries (telegram_bot_file w)).
  set (st1 := match q, activity_file w with
              | [], Some _ => fold_left (queue_add true) (entries (activity_file w)) (urls q, q)
              | _, _ => (urls q, q)
              end).
  assert (H1 : ∃ added, st1.2 = q ++ added ∧ Forall has_url added).
  { assert (Hno : ∃ added, (urls q, q).2 = q ++ added ∧ Forall has_url added).
    { exists []. by rewrite app_nil_r. }
    unfold st1. destruct q as [|e0 q0]; [|done].
    destruct (activity_file w); [|done].
    destruct (queue_loop_spec true (entries (Some s)) (urls [], []))
      as (added & Hq & _ & Ha & _).
    exists added. split; [done|]. eapply Forall_impl; [done|].
    intros a (e & _ & _ & ->). eexists. apply queue_entry_url. }
  destruct H1 as (added1 & Hq1 & Ha1).
  destruct (queue_loop_spec false new_entries st1) as (added2 & Hq2 & _ & Ha2 & _).
  exists (added1 ++ added2). rewrite Hq2, Hq1, <- app_assoc. split; [done|].
  apply Forall_app. split; [done|]. eapply Forall_impl; [done|].
  intros a (e & _ & _ & ->). eexists. apply queue_entry_url.
Qed.

Section OpEffect.

Context (server : list event → request → outcome).

(** Every operation only adds events, and either leaves the notification
    store as it was, or writes a list obtained from the stored one (reset
    first under [--resend-all], extended first by a run) by the delivery
    step. *)
Lemma op_effect o w :
  ∃ evs,
    trace (exec_op server o w) = trace w ++ evs
    ∧ (telegram_bot_file (exec_op server o w) = telegram_bot_file w
       ∨ ∃ added l',
           telegram_bot_file (exec_op server o w) = Some (Parsed (JList l'))
           ∧ delivery_of (env_token w) (env_chat_id w) (op_base o w ++ added) evs l').
Proof.
  destruct o as [env cfg|run_at|resend_all]; simpl.
  - exists []. rewrite app_nil_r. split; [done|by left].
  - destruct (run_main_cases server run_at w)
      as [(e & w' & -> & _ & Hb & _ & evs & Ht)
         |(rbk & w1 & new_entries & w2 & (_ & Hb1 & He1 & evs1 & Ht1) & Hact & ->)].
    { exists evs. split; [done|by left]. }
    destruct (save_activity_effect _ _ _ _ _ Hact) as (existing & _ & _ & _ & ->).
    set (w3 := log _ (write_activity _ w1)).
    assert (Hb3 : telegram_bot_file w3 = telegram_bot_file w) by exact Hb1.
    assert (He3 : environ w3 = environ w) by exact He1.
    assert (Ht3 : ∃ evs3, trace w3 = trace w ++ evs3).
    { eexists. unfold w3, write_activity, log, set_activity, set_trace. cbn [trace].
      rewrite Ht1, <- !app_assoc. reflexivity. }
    destruct Ht3 as [evs3 Ht3].
    destruct (sync_cases server new_entries w3) as [[_ [e Hs]]|[_ Hs]].
    { rewrite (bind_raise _ _ _ _ _ Hs). simpl. exists evs3. split; [done|by left]. }
    destruct (deliver_pending_post server (environ w3 !! "TELEGRAM_BOT_TOKEN")
                (environ w3 !! "TELEGRAM_GROUP_CHAT_ID")
                (reconciled w3 new_entries).2 w3)
      as (l' & evs & msg & Hd & Hdel & _).
    rewrite Hd in Hs. rewrite (bind_ok _ _ _ _ _ Hs).
    destruct (report_saved_run run_at
                (stepped w3 (evs ++ [EWrite TelegramBotFile; EPrint msg]) l'))
      as [msg' ->].
    exists (evs3 ++ (evs ++ [EWrite TelegramBotFile; EPrint msg]) ++ [EPrint msg']).
    split.
    { unfold log, stepped, set_trace. cbn [snd trace]. rewrite Ht3.
      by rewrite <- !app_assoc. }
    right. destruct (reconciled_extends w3 new_entries) as (added & Hrec & _).
    exists added, l'. split; [done|].
    rewrite Hrec, Hb3, He3 in Hdel.
    eapply delivery_of_mono; [|exact Hdel].
    intros ev Hev. rewrite !elem_of_app. right. left. by left.
  - destruct (send_main_cases server resend_all w)
      as [evs [(-> & _)|(l' & tail & -> & _ & _ & Hd & _)]].
    + exists evs. split; [done|by left].
    + exists (evs ++ [EWrite TelegramBotFile] ++ tail). split; [done|right].
      exists [], l'. split; [done|]. rewrite app_nil_r.
      eapply delivery_of_mono; [|exact Hd].
      intros ev Hev. apply elem_of_app. by left.
Qed.

End OpEffect.

(** ** The sent flag *)

Lemma is_resend_true o : is_resend o = true → o = OpSend true.
Proof. by destruct o as [| |[]]. Qed.

Lemma op_base_lookup o w k e :
  entries (telegram_bot_file w) !! k = Some e →
  op_base o w !! k
  = Some (if is_resend o then <["telegram_sent" := VBool false]> e else e).
Proof.
  intros He. destruct o as [| |[]]; simpl; try done.
  unfold loaded_for_send, reset_all. by rewrite list_lookup_fmap, He.
Qed.

Lemma delivered_reset token chat_id evs (e : dict) v :
  delivered token chat_id evs (<["telegram_sent" := v]> e)
  ↔ delivered token chat_id evs e.
Proof. unfold delivered. by rewrite message_of_sent. Qed.

Section Transitions.

Context (server : list event → request → outcome).

Lemma op_entry_step o w k e :
  entries (telegram_bot_file w) !! k = Some e →
  ∃ evs e',
    trace (exec_op server o w) = trace w ++ evs
    ∧ entries (telegram_bot_file (exec_op server o w)) !! k = Some e'
    ∧ entry_step (is_resend o) (env_token w) (env_chat_id w) evs e e'.
Proof.
  intros He.
  destruct (op_effect server o w) as (evs & Ht & [Hsame|(added & l' & Hfile & Hlen & Hd)]).
  { exists evs, e. rewrite Hsame. repeat split; try done. by left. }
  pose proof (op_base_lookup o w k e He) as Hbase.
  assert (Hk : (op_base o w ++ added) !! k
               = Some (if is_resend o then <["telegram_sent" := VBool false]> e else e)).
  { by apply lookup_app_l_Some. }
  rewrite Hfile. cbn [entries].
  destruct (Hd _ _ Hk) as [H|(H & Hf & Hu & Hdel)].
  - eexists evs, _. split; [done|]. split; [exact H|].
    destruct (is_resend o); [right; right; by left|by left].
  - eexists evs, _. split; [done|]. split; [exact H|].
    destruct (is_resend o).
    + do 3 right. rewrite insert_insert_eq.
      rewrite get_or_insert_ne in Hu by done.
      apply delivered_reset in Hdel. done.
    + right. by left.
Qed.

(** C8: under any operation, the entry at a position of the stored queue
    is still there afterwards, and its flag changed only in these ways: it
    went from unsent to sent with a confirmed delivery of its message among
    the operation's events, or the operation was the resend script with
    [--resend-all], which marks every entry unsent before delivering. *)
Theorem sent_flag_transitions o w k e :
  entries (telegram_bot_file w) !! k = Some e →
  ∃ evs e',
    trace (exec_op server o w) = trace w ++ evs
    ∧ entries (telegram_bot_file (exec_op server o w)) !! k = Some e'
    ∧ (∀ key, key ≠ "telegram_sent" → e' !! key = e !! key)
    ∧ (get e "telegram_sent" = VBool false → get e' "telegram_sent" = VBool true →
       delivered (env_token w) (env_chat_id w) evs e)
    ∧ (get e "telegram_sent" = VBool true → get e' "telegram_sent" = VBool false →
       o = OpSend true)
    ∧ (get e' "telegram_sent" ≠ get e "telegram_sent" →
       get e' "telegram_sent" = VBool true
       ∧ delivered (env_token w) (env_chat_id w) evs e
       ∧ (get e "telegram_sent" = VBool false ∨ o = OpSend true)
       ∨ get e' "telegram_sent" = VBool false ∧ o = OpSend true).
Proof.
  intros He.
  destruct (op_entry_step o w k e He) as (evs & e' & Ht & He' & Hstep).
  exists evs, e'. split; [done|]. split; [done|].
  assert (Hset : ∀ v, get (<["telegram_sent" := v]> e) "telegram_sent" = v).
  { intros v. unfold get. by rewrite lookup_insert_eq. }
  assert (Hfalse : is_False (get e "telegram_sent") = true →
                   get e "telegram_sent" = VBool false).
  { by destruct (get e "telegram_sent") as [|[]|]. }
  destruct Hstep as [->|[(Hf & Hu & Hd & ->)|[(Hr & ->)|(Hr & Hu & Hd & ->)]]];
    rewrite ?Hset.
  - repeat split; try done; congruence.
  - repeat split; try done.
    + intros key Hkey. by rewrite lookup_insert_ne.
    + intros _. left. repeat split; try done. left. by apply Hfalse.
  - apply is_resend_true in Hr. repeat split; try done.
    + intros key Hkey. by rewrite lookup_insert_ne.
    + intros _. by right.
  - apply is_resend_true in Hr. repeat split; try done.
    + intros key Hkey. by rewrite lookup_insert_ne.
    + intros _. left. repeat split; try done. by right.
Qed.

End Transitions.

(** ** Pending entries without a url *)

Lemma length_omap_le {A B} (f : A → option B) (l : list A) :
  (length (omap f l) ≤ length l)%nat.
Proof.
  induction l as [|x l IH]; [done|]. cbn [omap list_omap].
  destruct (f x); cbn [length]; lia.
Qed.

Lemma length_omap_lt {A B} (f : A → option B) (l : list A) x :
  x ∈ l → f x = None → (length (omap f l) < length l)%nat.
Proof.
  induction l as [|y l IH]; intros Hin Hx; [by apply elem_of_nil in Hin|].
  apply elem_of_cons in Hin as [<-|Hin]; cbn [omap list_omap].
  - rewrite Hx. pose proof (length_omap_le f l). cbn [length]. lia.
  - specialize (IH Hin Hx). destruct (f y); cbn [length]; lia.
Qed.

Lemma stuck_pending l k e :
  l !! k = Some e → stuck e → k ∈ pending_refs l.
Proof. intros He [Hf _]. apply elem_of_pending_refs. by exists e. Qed.

Lemma stuck_no_attempt token chat_id l k e :
  l !! k = Some e → stuck e → attempt_of token chat_id l k = None.
Proof. intros He [_ Hu]. unfold attempt_of. by rewrite He, Hu. Qed.

Lemma stuck_kept token chat_id l evs l' k e :
  l !! k = Some e → stuck e → delivery_of token chat_id l evs l' → l' !! k = Some e.
Proof.
  intros He [_ Hu] [_ Hd].
  destruct (Hd _ _ He) as [H|(_ & _ & Ht & _)]; [done|congruence].
Qed.

Lemma stuck_reset e : stuck e → <["telegram_sent" := VBool false]> e = e.
Proof.
  intros [Hf _]. apply insert_id. unfold get in Hf.
  by destruct (e !! "telegram_sent") as [[|[]|]|].
Qed.

Section Stuck.

Context (server : list event → request → outcome).

Lemma stuck_after_op o w k e :
  stuck e →
  entries (telegram_bot_file w) !! k = Some e →
  entries (telegram_bot_file (exec_op server o w)) !! k = Some e.
Proof.
  intros Hs He.
  destruct (op_entry_step server o w k e He) as (evs & e' & _ & He' & Hstep).
  rewrite He'. f_equal. destruct Hs as [Hf Hu].
  destruct Hstep as [->|[(_ & Ht & _)|[(_ & ->)|(_ & Ht & _)]]];
    [done|congruence|by apply stuck_reset|congruence].
Qed.

(** C9: a pending entry whose url is missing or empty is counted among
    the pending entries and announced with them, but the delivery step of
    either script makes no request for it and persists it unchanged, still
    pending; and so it stays, at its position, through every sequence of
    operations. *)
Theorem urlless_entry_never_sent k e :
  stuck e →
  (∀ token chat_id l w,
     l !! k = Some e →
     k ∈ pending_refs l
     ∧ attempt_of (default "" token) (default "" chat_id) l k = None
     ∧ ∃ l' evs msg,
         deliver_pending server token chat_id l w
         = (Ok tt, stepped w (evs ++ [EWrite TelegramBotFile; EPrint msg]) l')
         ∧ l' !! k = Some e
         ∧ (length (requests_of evs) < length (pending_refs l))%nat
         ∧ (have_credentials token chat_id = true →
            requests_of evs
            = omap (attempt_of (default "" token) (default "" chat_id) l)
                (pending_refs l)
            ∧ ∃ rest, evs = EPrint ("Telegram: sending "
                                    +:+ str_nat (length (pending_refs l))
                                    +:+ " URLs (one per message)...") :: rest))
  ∧ (∀ resend_all token chat_id l w,
       l !! k = Some e →
       ∃ l' evs tail,
         send_pending server resend_all token chat_id l w
         = (Ok tt, stepped w (evs ++ [EWrite TelegramBotFile] ++ tail) l')
         ∧ l' !! k = Some e
         ∧ requests_of evs
           = omap (attempt_of (default "" token) (default "" chat_id) l)
               (pending_refs l)
         ∧ (length (requests_of evs) < length (pending_refs l))%nat
         ∧ requests_of tail = []
         ∧ ∃ rest, evs = EPrint ("Sending " +:+ str_nat (length (pending_refs l))
                                 +:+ " URLs (one per message). Progress below:")
                         :: rest)
  ∧ (∀ ops w,
       entries (telegram_bot_file w) !! k = Some e →
       entries (telegram_bot_file (exec_ops server ops w)) !! k = Some e).
Proof.
  intros Hs. split; [|split].
  - intros token chat_id l w He.
    pose proof (stuck_pending l k e He Hs) as Hin.
    pose proof (stuck_no_attempt (default "" token) (default "" chat_id) l k e He Hs)
      as Hno.
    split; [done|]. split; [done|].
    destruct (deliver_pending_post server token chat_id l w)
      as (l' & evs & msg & Hrun & Hd & Hreq & _ & _ & Hann).
    exists l', evs, msg. split; [done|]. split; [by eapply stuck_kept|].
    assert (Hne : pending_refs l ≠ []).
    { intros Hnil. rewrite Hnil in Hin. by apply elem_of_nil in Hin. }
    split.
    + rewrite Hreq. destruct (have_credentials token chat_id).
      * by eapply length_omap_lt.
      * simpl. destruct (pending_refs l); [done|simpl; lia].
    + intros Hc. rewrite Hc in Hreq. split; [done|by apply Hann].
  - intros resend_all token chat_id l w He.
    pose proof (stuck_pending l k e He Hs) as Hin.
    pose proof (stuck_no_attempt (default "" token) (default "" chat_id) l k e He Hs)
      as Hno.
    assert (Hne : pending_refs l ≠ []).
    { intros Hnil. rewrite Hnil in Hin. by apply elem_of_nil in Hin. }
    destruct (send_pending_post server resend_all token chat_id l w)
      as [evs [(_ & _ & _ & _ & Hnil)|(l' & tail & Hrun & Hd & Hreq & _ & Htr & _ & Hann)]];
      [done|].
    exists l', evs, tail. split; [done|]. split; [by eapply stuck_kept|].
    split; [done|]. split; [rewrite Hreq; by eapply length_omap_lt|].
    split; [done|by apply Hann].
  - intros ops. induction ops as [|o ops IH]; intros w He; [done|].
    simpl. apply IH. by apply stuck_after_op.
Qed.

End Stuck.

(** ** The queue covers the activity store *)

Lemma consistent_files w w' :
  activity_file w' = activity_file w →
  telegram_bot_file w' = telegram_bot_file w →
  consistent w → consistent w'.
Proof.
  unfold consistent, activity_urls, queue_urls. intros -> ->. done.
Qed.

Lemma delivery_of_urls token chat_id l evs l' :
  delivery_of token chat_id l evs l' →
  urls l' = urls l ∧ (Forall has_url l → Forall has_url l').
Proof.
  intros [Hlen Hd].
  assert (Hsame : ∀ k e', l' !! k = Some e' →
            ∃ e, l !! k = Some e ∧ e' !! "url" = e !! "url").
  { intros k e' He'.
    destruct (l !! k) as [e|] eqn:He.
    - exists e. split; [done|].
      destruct (Hd _ _ He) as [H|(H & _)]; rewrite H in He'; injection He' as <-;
        [done|by rewrite lookup_insert_ne].
    - apply lookup_ge_None in He. apply lookup_lt_Some in He'. lia. }
  split.
  - apply set_eq. intros u. rewrite !elem_of_urls. split.
    + intros (e' & Hin & Hu). apply list_elem_of_lookup in Hin as [k Hk].
      destruct (Hsame _ _ Hk) as (e & He & Heq).
      exists e. split; [by eapply list_elem_of_lookup_2|congruence].
    + intros (e & Hin & Hu). apply list_elem_of_lookup in Hin as [k Hk].
      destruct (Hd _ _ Hk) as [H|(H & _)].
      * exists e. split; [by eapply list_elem_of_lookup_2|done].
      * eexists. split; [by eapply list_elem_of_lookup_2|].
        by rewrite lookup_insert_ne.
  - intros Hl. apply Forall_lookup. intros k e' He'.
    destruct (Hsame _ _ He') as (e & He & Heq).
    unfold has_url. rewrite Heq. by eapply (Forall_lookup_1 has_url l).
Qed.

Lemma reset_all_urls l :
  urls (reset_all l) = urls l ∧ (Forall has_url l → Forall has_url (reset_all l)).
Proof.
  unfold reset_all. split.
  - unfold urls. f_equal. induction l as [|e l IH]; [done|].
    rewrite fmap_cons. cbn [omap list_omap]. rewrite IH.
    by rewrite lookup_insert_ne.
  - intros Hl. apply Forall_fmap. eapply Forall_impl; [done|].
    intros e He. unfold has_url. simpl. by rewrite lookup_insert_ne.
Qed.

Lemma queued_seen sent es st st' :
  queued sent es st st' → st.1 = urls st.2 →
  st'.1 = urls st'.2 ∧ (Forall has_url st.2 → Forall has_url st'.2).
Proof.
  intros (added & Hq & Hs & Ha & _) Hseen. split.
  - rewrite Hs, Hq, urls_app, Hseen. set_solver.
  - intros Hl. rewrite Hq. apply Forall_app. split; [done|].
    eapply Forall_impl; [done|]. intros a (e & _ & _ & ->).
    eexists. apply queue_entry_url.
Qed.

Lemma wf_urls_seen (es : list dict) (seen : gset value) :
  Forall wf_entry es →
  (∀ e, e ∈ es → truthy (get e "url") = true → get e "url" ∈ seen) →
  urls es ⊆ seen.
Proof.
  intros Hwf Hseen u. rewrite elem_of_urls. intros (e & Hin & Hu).
  rewrite Forall_forall in Hwf. specialize (Hwf e Hin).
  destruct (wf_entry_get e Hwf) as [Hget Ht].
  rewrite Hget in Hu. injection Hu as <-. by apply Hseen.
Qed.

(** With a loadable activity document that holds well-formed entries, all
    of them either in the stored queue already or copied by the backfill,
    the list handed to the delivery step holds every activity url. *)
Lemma reconciled_covers w act new_entries :
  activity_file w = Some (Parsed (JList (act ++ new_entries))) →
  Forall wf_entry (act ++ new_entries) →
  Forall has_url (entries (telegram_bot_file w)) →
  urls act ⊆ urls (entries (telegram_bot_file w)) →
  Forall has_url (reconciled w new_entries).2
  ∧ urls (act ++ new_entries) ⊆ urls (reconciled w new_entries).2.
Proof.
  intros Hact Hwf Hq Hsub. unfold reconciled. rewrite Hact. cbn [entries].
  set (q := entries (telegram_bot_file w)) in *.
  apply Forall_app in Hwf as [Hwf_act Hwf_new].
  destruct q as [|e0 q0] eqn:Hqe.
  - pose proof (queue_loop_spec true (act ++ new_entries) (urls [], [])) as H1.
    set (st1 := fold_left (queue_add true) (act ++ new_entries) (urls [], [])) in *.
    destruct (queued_seen _ _ _ _ H1 eq_refl) as [Hs1 Hu1].
    pose proof (queue_loop_spec false new_entries st1) as H2.
    set (st2 := fold_left (queue_add false) new_entries st1) in *.
    destruct (queued_seen _ _ _ _ H2 Hs1) as [Hs2 Hu2].
    split; [apply Hu2, Hu1; constructor|].
    destruct H1 as (_ & _ & _ & _ & Hseen1).
    destruct H2 as (added2 & _ & Hs & _).
    rewrite <- Hs2, Hs.
    assert (urls (act ++ new_entries) ⊆ st1.1); [|set_solver].
    apply wf_urls_seen; [by apply Forall_app|done].
  - pose proof (queue_loop_spec false new_entries (urls (e0 :: q0), e0 :: q0)) as H2.
    set (st2 := fold_left (queue_add false) new_entries _) in *.
    destruct (queued_seen _ _ _ _ H2 eq_refl) as [Hs2 Hu2].
    split; [by apply Hu2|].
    destruct H2 as (added2 & _ & Hs & _ & Hseen2).
    rewrite urls_app, <- Hs2.
    assert (urls new_entries ⊆ st2.1) by by apply wf_urls_seen.
    assert (urls act ⊆ st2.1); [|set_solver].
    rewrite Hs. simpl. set_solver.
Qed.

Section Covering.

Context (server : list event → request → outcome).

Lemma consistent_run run_at w :
  consistent w → consistent (run_keywords_main server run_at w).2.
Proof.
  intros Hw.
  destruct (run_main_cases server run_at w)
    as [(e & w' & -> & Ha & Hb & _)
       |(rbk & w1 & new_entries & w2 & (Ha1 & Hb1 & _) & Hact & ->)].
  { by eapply consistent_files. }
  destruct Hw as (Hra & Hrb & Hwf & Hurl & Hsub).
  destruct (save_activity_effect _ _ _ _ _ Hact)
    as (existing & Hfile & _ & Hwf_new & ->).
  assert (Hex : existing = entries (activity_file w)).
  { rewrite <- Ha1. by destruct Hfile as [[-> ->]| ->]. }
  set (w3 := log _ (write_activity _ w1)).
  assert (Ha3 : activity_file w3 = Some (Parsed (JList (existing ++ new_entries))))
    by done.
  assert (Hb3 : telegram_bot_file w3 = telegram_bot_file w) by exact Hb1.
  assert (Hwf3 : Forall wf_entry (existing ++ new_entries)).
  { apply Forall_app. by rewrite Hex. }
  assert (Hgood3 : consistent w3 → consistent w3) by done.
  destruct (sync_cases server new_entries w3) as [[Hbad _]|[_ Hs]].
  { exfalso. rewrite Hb3 in Hbad. destruct Hbad as [Hbad|[_ Hbad]]; [done|].
    unfold unreadable in Hbad. rewrite Ha3 in Hbad. naive_solver. }
  destruct (deliver_pending_post server (environ w3 !! "TELEGRAM_BOT_TOKEN")
              (environ w3 !! "TELEGRAM_GROUP_CHAT_ID")
              (reconciled w3 new_entries).2 w3)
    as (l' & evs & msg & Hd & Hdel & _).
  rewrite Hd in Hs. rewrite (bind_ok _ _ _ _ _ Hs).
  destruct (report_saved_run run_at
              (stepped w3 (evs ++ [EWrite TelegramBotFile; EPrint msg]) l'))
    as [msg' ->].
  destruct (reconciled_covers w3 existing new_entries Ha3 Hwf3) as [Hurl' Hsub'].
  { by rewrite Hb3. }
  { rewrite Hb3, Hex. exact Hsub. }
  destruct (delivery_of_urls _ _ _ _ _ Hdel) as [Hu Hh].
  set (w4 := (Ok (), log _ (stepped w3 _ l')).2).
  assert (Ha4 : activity_file w4 = Some (Parsed (JList (existing ++ new_entries))))
    by done.
  assert (Hb4 : telegram_bot_file w4 = Some (Parsed (JList l'))) by done.
  unfold consistent, activity_urls, queue_urls. rewrite Ha4, Hb4. cbn [entries].
  repeat split.
  - right. by eexists.
  - right. by eexists.
  - done.
  - by apply Hh.
  - by rewrite Hu.
Qed.

Lemma consistent_send resend_all w :
  consistent w → consistent (send_telegram_pending_main server resend_all w).2.
Proof.
  intros Hw.
  destruct (send_main_cases server resend_all w)
    as [evs [(-> & _)|(l' & tail & -> & _ & _ & Hd & _)]].
  { by eapply consistent_files. }
  destruct Hw as (Hra & Hrb & Hwf & Hurl & Hsub).
  destruct (delivery_of_urls _ _ _ _ _ Hd) as [Hu Hh].
  assert (Hbase : urls (loaded_for_send resend_all w)
                  = urls (entries (telegram_bot_file w))
                  ∧ Forall has_url (loaded_for_send resend_all w)).
  { unfold loaded_for_send. destruct resend_all; [|done].
    destruct (reset_all_urls (entries (telegram_bot_file w))) as [H1 H2].
    split; [done|by apply H2]. }
  destruct Hbase as [Hb1 Hb2].
  set (w4 := (Ok (), stepped w _ l').2).
  assert (Ha4 : activity_file w4 = activity_file w) by done.
  assert (Hb4 : telegram_bot_file w4 = Some (Parsed (JList l'))) by done.
  unfold consistent, activity_urls, queue_urls. rewrite Ha4, Hb4. cbn [entries].
  repeat split; try done.
  - right. by eexists.
  - by apply Hh.
  - by rewrite Hu, Hb1.
Qed.

Lemma consistent_op o w : consistent w → consistent (exec_op server o w).
Proof.
  destruct o as [env cfg|run_at|resend_all]; simpl.
  - by apply consistent_files.
  - apply consistent_run.
  - apply consistent_send.
Qed.

Lemma consistent_ops ops w : consistent w → consistent (exec_ops server ops w).
Proof.
  revert w. induction ops as [|o ops IH]; intros w Hw; [done|].
  simpl. apply IH. by apply consistent_op.
Qed.

(** C2: starting with no activity store and no notification store, after
    any sequence of runs -- mixed, if one likes, with uses of the resend
    script and with edits of the configuration -- every url of the activity
    store is a url of the notification queue.  The sequence is arbitrary, so
    this holds after each run of it. *)
Theorem queue_covers_activity ops w :
  activity_file w = None →
  telegram_bot_file w = None →
  activity_urls (exec_ops server ops w) ⊆ queue_urls (exec_ops server ops w).
Proof.
  intros Ha Hb. apply consistent_ops.
  unfold consistent, activity_urls, queue_urls. rewrite Ha, Hb.
  repeat split; try by left. all: done.
Qed.

End Covering.

(** ** The theorems at concrete inputs *)

Lemma queue_covers_activity_witness :
  activity_urls (exec_ops serp_server ops_demo fresh_world)
  ⊆ queue_urls (exec_ops serp_server ops_demo fresh_world).
Proof.
  apply (queue_covers_activity serp_server ops_demo fresh_world); reflexivity.
Defined.

Lemma sent_flag_transitions_witness :
  let o := OpSend false in
  let e := queued_entry "u1" "X" false in
  ∃ evs e',
    trace (exec_op refusing_server o world_five) = trace world_five ++ evs
    ∧ entries (telegram_bot_file (exec_op refusing_server o world_five)) !! 1%nat
      = Some e'
    ∧ (∀ key, key ≠ "telegram_sent" → e' !! key = e !! key)
    ∧ (get e "telegram_sent" = VBool false → get e' "telegram_sent" = VBool true →
       delivered (env_token world_five) (env_chat_id world_five) evs e)
    ∧ (get e "telegram_sent" = VBool true → get e' "telegram_sent" = VBool false →
       o = OpSend true)
    ∧ (get e' "telegram_sent" ≠ get e "telegram_sent" →
       get e' "telegram_sent" = VBool true
       ∧ delivered (env_token world_five) (env_chat_id world_five) evs e
       ∧ (get e "telegram_sent" = VBool false ∨ o = OpSend true)
       ∨ get e' "telegram_sent" = VBool false ∧ o = OpSend true).
Proof.
  apply (sent_flag_transitions refusing_server (OpSend false) world_five 1
           (queued_entry "u1" "X" false)).
  reflexivity.
Defined.

Lemma urlless_entry_never_sent_witness :
  stuck urlless
  ∧ ∀ ops w,
      entries (telegram_bot_file w) !! 0%nat = Some urlless →
      entries (telegram_bot_file (exec_ops quiet_server ops w)) !! 0%nat
      = Some urlless.
Proof.
  assert (Hs : stuck urlless) by (split; reflexivity).
  split; [exact Hs|].
  exact (proj2 (proj2 (urlless_entry_never_sent quiet_server 0 urlless Hs))).
Defined.

(** The resend script announces three urls and sends one message (the
    last entry is passed over, and with it the closing progress line); the
    run script stops on the entry without the key.  Either way both entries
    are stored as they were. *)
Lemma urlless_entries_in_both_scripts :
  let sent := send_telegram_pending_main quiet_server false world_urlless in
  let run := run_keywords_main quiet_server the_clock world_urlless in
  stuck urlless ∧ stuck keyless
  ∧ sent.1 = Ok tt
  ∧ printed (trace sent.2)
    = ["Sending 3 URLs (one per message). Progress below:";
       "Done. Sent 1/3 URLs to Telegram."]
  ∧ length (requests_of (trace sent.2)) = 1%nat
  ∧ entries (telegram_bot_file sent.2)
    = [urlless; queued_entry "u1" "X" true; keyless]
  ∧ run.1 = Raise (KeyError "url")
  ∧ telegram_bot_file run.2 = telegram_bot_file world_urlless.
Proof. repeat split; vm_compute; reflexivity. Qed.

(** ** The pagination loops stop by themselves *)

Section Fuel.

Context (server : list event → request → outcome).

(** Each round of the SerpAPI loop moves [start] up by [num]; once the
    rounds left are enough to reach 100, the bound on the rounds is never
    what stops the loop. *)
Lemma serpapi_loop_fuel fuel fuel' keyword num_results api_key num start results t :
  0 < num → (1 ≤ fuel ≤ fuel')%nat → 100 ≤ start + Z.of_nat fuel * num →
  serpapi_loop server fuel keyword num_results api_key num start results t
  = serpapi_loop server fuel' keyword num_results api_key num start results t.
Proof.
  intros Hnum. revert fuel' start results t.
  induction fuel as [|fuel IH]; intros fuel' start results t Hf Hreach; [lia|].
  destruct fuel' as [|fuel']; [lia|]. simpl.
  destruct (len results <? num_results); [|done].
  unfold bind at 1 3. destruct (requests_get server _ t) as [[resp|e] t1]; [|done].
  destruct (negb (status_code resp =? 200)); [done|].
  unfold bind. destruct (resp_json resp t1) as [[data|e] t2]; [|done].
  destruct (len _ >=? num_results); [done|].
  destruct (start + num >=? 100) eqn:Hs; [done|]. simpl.
  destruct (negb (serpapi_next_link data)); [done|].
  rewrite Z.geb_leb in Hs. apply Z.leb_gt in Hs.
  apply IH; [|lia]. destruct fuel; lia.
Qed.

Lemma search_serpapi_fuel fuel keyword num_results api_key t :
  (10 ≤ fuel)%nat →
  serpapi_loop server 10 keyword num_results api_key
    (Z.min 20 (Z.max 10 num_results)) 0 [] t
  = serpapi_loop server fuel keyword num_results api_key
      (Z.min 20 (Z.max 10 num_results)) 0 [] t.
Proof. intros Hf. apply serpapi_loop_fuel; lia. Qed.

(** Each round of the Custom Search loop asks for at least one result and
    moves [start_index] up by as many. *)
Lemma google_cse_loop_fuel fuel fuel' keyword num_results api_key cx lang start
    results t :
  (1 ≤ fuel ≤ fuel')%nat → 101 ≤ start + Z.of_nat fuel →
  google_cse_loop server fuel keyword num_results api_key cx lang start results t
  = google_cse_loop server fuel' keyword num_results api_key cx lang start results t.
Proof.
  revert fuel' start results t.
  induction fuel as [|fuel IH]; intros fuel' start results t Hf Hreach; [lia|].
  destruct fuel' as [|fuel']; [lia|]. simpl.
  destruct (len results <? num_results) eqn:Hlen; [|done].
  apply Z.ltb_lt in Hlen.
  unfold bind at 1 3. destruct (requests_get server _ t) as [[resp|e] t1]; [|done].
  destruct (negb (status_code resp =? 200)); [done|].
  unfold bind. destruct (resp_json resp t1) as [[data|e] t2]; [|done].
  destruct (match total_results data with Some total => total =? 0 | None => false end);
    [done|].
  destruct (len _ >=? num_results); [done|].
  set (count := Z.min RESULTS_PER_REQUEST (num_results - len results)).
  assert (1 ≤ count) by (unfold count, RESULTS_PER_REQUEST; lia).
  destruct (start + count >? 100) eqn:Hs; [done|]. simpl.
  destruct (negb (next_page data)); [done|].
  rewrite Z.gtb_ltb in Hs. apply Z.ltb_ge in Hs.
  apply IH; [|lia]. destruct fuel; lia.
Qed.

Lemma search_google_cse_fuel fuel keyword num_results api_key cx lang t :
  (100 ≤ fuel)%nat →
  google_cse_loop server 100 keyword num_results api_key cx lang 1 [] t
  = google_cse_loop server fuel keyword num_results api_key cx lang 1 [] t.
Proof. intros Hf. apply google_cse_loop_fuel; lia. Qed.

End Fuel.

(** * Further properties of the three scripts *)

(** ** What a search collects *)

Lemma rows_ok_nil : rows_ok [].
Proof. split; [constructor|]. simpl. constructor. Qed.

Lemma rows_ok_take m rows : rows_ok rows → rows_ok (take m rows).
Proof.
  intros [Hrows Hnd]. split; [by apply Forall_take|].
  rewrite fmap_take. eapply sublist_NoDup; [done|apply sublist_take].
Qed.

Lemma link_of_row (link title snippet shown : value) :
  link_of {[ "link" := link; "title" := title; "snippet" := snippet;
             "display_link" := shown ]} = link.
Proof. unfold link_of, get. by rewrite lookup_insert_eq. Qed.

Lemma collect_items_rows display_key n its rows :
  rows_ok rows → rows_ok (collect_items display_key n its rows).
Proof.
  revert rows. induction its as [|item its IH]; intros rows Hrows; [done|].
  cbn [collect_items]. cbv zeta.
  match goal with |- context [len ?x >=? n] => set (rows' := x) end.
  assert (Hrows' : rows_ok rows').
  { unfold rows'.
    destruct (truthy (get item "link")) eqn:Htrue; [|done].
    destruct (bool_decide _) eqn:Hin; [done|]. simpl.
    apply bool_decide_eq_false in Hin. destruct Hrows as [Hall Hnd].
    split.
    - apply Forall_app. split; [done|]. constructor; [|done]. split.
      + rewrite !dom_insert_L, dom_singleton_L. set_solver.
      + by rewrite link_of_row.
    - rewrite fmap_app. apply NoDup_app. split; [done|]. split.
      + intros x Hx. cbn [fmap list_fmap]. rewrite link_of_row.
        intros [->|[]%elem_of_nil]%elem_of_cons. by apply Hin.
      + simpl. apply NoDup_singleton. }
  destruct (len rows' >=? n); [done|by apply IH].
Qed.

Section SearchClient.

Context (server : list event → request → outcome).

Lemma requests_get_run req t :
  requests_get server req t
  = match server t req with
    | inl msg => (Raise (RequestException msg), t ++ [ERequest req (inl msg)])
    | inr resp => (Ok resp, t ++ [ERequest req (inr resp)])
    end.
Proof. unfold requests_get, requests_send, bind. by destruct (server t req). Qed.

Lemma ask_one t req : ask server t [req] = [ERequest req (server t req)].
Proof. done. Qed.

Lemma requests_of_ask t reqs : requests_of (ask server t reqs) = reqs.
Proof.
  revert t. induction reqs as [|req reqs IH]; intros t; [done|].
  simpl. unfold requests_of in *. simpl. by rewrite IH.
Qed.


Lemma writes_of_ask t reqs : writes_of (ask server t reqs) = [].
Proof.
  revert t. induction reqs as [|req reqs IH]; intros t; [done|].
  simpl. unfold writes_of in *. simpl. by rewrite IH.
Qed.

Lemma length_ask t reqs : length (ask server t reqs) = length reqs.
Proof.
  revert t. induction reqs as [|req reqs IH]; intros t; [done|].
  simpl. by rewrite IH.
Qed.

(** What the loop of [_search_serpapi] does from [start]: it asks for [k]
    consecutive pages, the last of which starts below 100; it returns rows
    only when every page came back with status 200 and a decodable body. *)
Lemma serpapi_loop_spec fuel keyword n key num start rows t r t' :
  0 < num → start < 100 → rows_ok rows →
  serpapi_loop server fuel keyword n key num start rows t = (r, t') →
  ∃ k, t' = t ++ ask server t (serpapi_pages keyword key num start k)
       ∧ search_post r
       ∧ start + Z.of_nat k * num < 100 + num
       ∧ (len rows < n → (0 < fuel)%nat → (1 ≤ k)%nat)
       ∧ (∀ found, r = Ok found →
            Forall answered_ok (ask server t (serpapi_pages keyword key num start k))).
Proof.
  intros Hnum. revert start rows t.
  induction fuel as [|fuel IH]; intros start rows t Hstart Hrows.
  - simpl. destruct (len rows <? n) eqn:Hlt; intros [= <- <-];
      exists 0%nat; simpl; rewrite app_nil_r; split_and!; try done; try lia; by constructor.
  - cbn [serpapi_loop]. destruct (len rows <? n) eqn:Hlt.
    2:{ intros [= <- <-]. exists 0%nat. simpl. rewrite app_nil_r.
        apply Z.ltb_ge in Hlt. split_and!; try done; try lia; by constructor. }
    set (req := SerpApiGet keyword key num start).
    assert (Hone : ∀ r0, search_post r0 →
              (∀ found, r0 = Ok found → answered_ok (ERequest req (server t req))) →
              ∃ k, t ++ [ERequest req (server t req)]
                   = t ++ ask server t (serpapi_pages keyword key num start k)
                   ∧ search_post r0
                   ∧ start + Z.of_nat k * num < 100 + num
                   ∧ (len rows < n → (0 < S fuel)%nat → (1 ≤ k)%nat)
                   ∧ (∀ found, r0 = Ok found →
                        Forall answered_ok
                          (ask server t (serpapi_pages keyword key num start k)))).
    { intros r0 Hr0 Hok. exists 1%nat. simpl. split_and!; try done; try lia.
      intros found Hf. constructor; [by eapply Hok|constructor]. }
    pose proof (requests_get_run req t) as Hget.
    destruct (server t req) as [msg|resp] eqn:Ho.
    { rewrite (bind_raise _ _ _ _ _ Hget). intros [= <- <-].
      apply Hone; [done|]. intros found [=]. }
    rewrite (bind_ok _ _ _ _ _ Hget).
    destruct (status_code resp =? 200) eqn:Hst; simpl.
    2:{ intros [= <- <-]. apply Hone; [done|]. intros found [=]. }
    apply Z.eqb_eq in Hst.
    unfold resp_json. destruct (json resp) as [msg|data] eqn:Hj.
    { rewrite bind_raise_now. intros [= <- <-].
      apply Hone; [done|]. intros found [=]. }
    rewrite bind_ret.
    set (rows' := collect_items "displayed_link" n (organic_results data) rows).
    assert (Hrows' : rows_ok rows') by by apply collect_items_rows.
    assert (Hok : answered_ok (ERequest req (inr resp))).
    { split; [done|by eexists]. }
    destruct (len rows' >=? n) eqn:Hfull.
    { intros [= <- <-]. by apply Hone. }
    destruct ((start + num >=? 100) || negb (serpapi_next_link data)) eqn:Hstop.
    { intros [= <- <-]. by apply Hone. }
    apply orb_false_iff in Hstop as [Hnext _].
    rewrite Z.geb_leb in Hnext. apply Z.leb_gt in Hnext.
    intros Hrec. apply IH in Hrec as (k & -> & Hpost & Hbound & _ & Hall); try done.
    exists (S k). cbn [serpapi_pages ask]. fold req. rewrite Ho.
    rewrite <- app_assoc. split_and!; try done; try lia.
    intros found Hf. constructor; [done|by eapply Hall].
Qed.

(** The same for the loop of [_search_google_cse]. *)
Lemma google_cse_loop_spec fuel keyword n key cx lang start rows t r t' :
  1 ≤ start ≤ 100 → rows_ok rows →
  google_cse_loop server fuel keyword n key cx lang start rows t = (r, t') →
  ∃ reqs, t' = t ++ ask server t reqs
       ∧ search_post r
       ∧ cse_pages key cx keyword (lr_of lang) n start reqs
       ∧ Z.of_nat (length reqs) ≤ 101 - start
       ∧ (len rows < n → (0 < fuel)%nat → reqs ≠ [])
       ∧ (∀ found, r = Ok found → Forall answered_ok (ask server t reqs)).
Proof.
  revert start rows t.
  induction fuel as [|fuel IH]; intros start rows t Hstart Hrows.
  - simpl. destruct (len rows <? n) eqn:Hlt; intros [= <- <-];
      exists []; simpl; rewrite app_nil_r; split_and!; try done; try lia; by constructor.
  - cbn [google_cse_loop]. destruct (len rows <? n) eqn:Hlt.
    2:{ intros [= <- <-]. exists []. simpl. rewrite app_nil_r.
        apply Z.ltb_ge in Hlt. split_and!; try done; try lia; by constructor. }
    apply Z.ltb_lt in Hlt. cbv zeta. fold (lr_of lang).
    set (count := Z.min RESULTS_PER_REQUEST (n - len rows)).
    assert (Hcount : 1 ≤ count ≤ 10 ∧ count ≤ n).
    { unfold count, RESULTS_PER_REQUEST, len in *. lia. }
    set (req := GoogleCseGet key cx keyword count start (lr_of lang)).
    assert (Hone : ∀ r0, search_post r0 →
              (∀ found, r0 = Ok found → answered_ok (ERequest req (server t req))) →
              ∃ reqs, t ++ [ERequest req (server t req)] = t ++ ask server t reqs
                   ∧ search_post r0
                   ∧ cse_pages key cx keyword (lr_of lang) n start reqs
                   ∧ Z.of_nat (length reqs) ≤ 101 - start
                   ∧ (len rows < n → (0 < S fuel)%nat → reqs ≠ [])
                   ∧ (∀ found, r0 = Ok found → Forall answered_ok (ask server t reqs))).
    { intros r0 Hr0 Hok. exists [req]. simpl. split_and!; try done; try lia.
      intros found Hf. constructor; [by eapply Hok|constructor]. }
    pose proof (requests_get_run req t) as Hget.
    destruct (server t req) as [msg|resp] eqn:Ho.
    { rewrite (bind_raise _ _ _ _ _ Hget). intros [= <- <-].
      apply Hone; [done|]. intros found [=]. }
    rewrite (bind_ok _ _ _ _ _ Hget).
    destruct (status_code resp =? 200) eqn:Hst; simpl.
    2:{ intros [= <- <-]. apply Hone; [done|]. intros found [=]. }
    apply Z.eqb_eq in Hst.
    unfold resp_json. destruct (json resp) as [msg|data] eqn:Hj.
    { rewrite bind_raise_now. intros [= <- <-].
      apply Hone; [done|]. intros found [=]. }
    rewrite bind_ret.
    assert (Hok : answered_ok (ERequest req (inr resp))).
    { split; [done|by eexists]. }
    destruct (match total_results data with Some total => total =? 0 | None => false end).
    { intros [= <- <-]. by apply Hone. }
    set (rows' := collect_items "displayLink" n (items data) rows).
    assert (Hrows' : rows_ok rows') by by apply collect_items_rows.
    destruct (len rows' >=? n) eqn:Hfull.
    { intros [= <- <-]. by apply Hone. }
    destruct ((start + count >? 100) || negb (next_page data)) eqn:Hstop.
    { intros [= <- <-]. by apply Hone. }
    apply orb_false_iff in Hstop as [Hnext _].
    rewrite Z.gtb_ltb in Hnext. apply Z.ltb_ge in Hnext.
    intros Hrec. apply IH in Hrec as (reqs & -> & Hpost & Hpages & Hbound & _ & Hall);
      [|lia|done].
    exists (req :: reqs). cbn [ask]. rewrite Ho.
    rewrite <- app_assoc. split_and!; try done; try lia.
    + unfold req. cbn [cse_pages]. split_and!; try done; lia.
    + cbn [length]. lia.
    + intros found Hf. constructor; [done|by eapply Hall].
Qed.

End SearchClient.

Section SearchEntry.

Context (server : list event → request → outcome).

Lemma search_serpapi_spec keyword n key t r t' :
  _search_serpapi server keyword n key t = (r, t') →
  ∃ k, t' = t ++ ask server t (serpapi_pages keyword key (Z.min 20 (Z.max 10 n)) 0 k)
       ∧ search_post r
       ∧ (Z.of_nat k - 1) * Z.min 20 (Z.max 10 n) < 100
       ∧ (0 < n → (1 ≤ k)%nat)
       ∧ (∀ found, r = Ok found →
            len found ≤ Z.max 0 n
            ∧ Forall answered_ok
                (ask server t (serpapi_pages keyword key (Z.min 20 (Z.max 10 n)) 0 k))).
Proof.
  unfold _search_serpapi. cbv zeta. set (num := Z.min 20 (Z.max 10 n)).
  destruct (serpapi_loop server 10 keyword n key num 0 [] t) as [r0 t0] eqn:Hloop.
  pose proof Hloop as Hspec.
  apply serpapi_loop_spec in Hspec as (k & -> & Hpost & Hbound & Hk & Hall);
    [|lia|lia|apply rows_ok_nil].
  unfold bind. rewrite Hloop. clear Hloop.
  destruct r0 as [rows|e]; intros [= <- <-]; exists k;
    (split_and!; [done| |lia|intros; apply Hk; [done|lia]|]).
  - by apply rows_ok_take.
  - intros found [= <-]. split; [|by eapply Hall].
    unfold len. rewrite length_take. lia.
  - done.
  - intros found [=].
Qed.

Lemma search_google_cse_spec keyword n key cx lang t r t' :
  _search_google_cse server keyword n key cx lang t = (r, t') →
  ∃ reqs, t' = t ++ ask server t reqs
       ∧ search_post r
       ∧ cse_pages key cx keyword (lr_of lang) n 1 reqs
       ∧ (length reqs ≤ 100)%nat
       ∧ (0 < n → reqs ≠ [])
       ∧ (∀ found, r = Ok found →
            len found ≤ Z.max 0 n ∧ Forall answered_ok (ask server t reqs)).
Proof.
  unfold _search_google_cse.
  destruct (google_cse_loop server 100 keyword n key cx lang 1 [] t) as [r0 t0] eqn:Hloop.
  pose proof Hloop as Hspec.
  apply google_cse_loop_spec in Hspec
    as (reqs & -> & Hpost & Hpages & Hbound & Hk & Hall); [|lia|apply rows_ok_nil].
  unfold bind. rewrite Hloop. clear Hloop.
  destruct r0 as [rows|e]; intros [= <- <-]; exists reqs;
    (split_and!; [done| |done|lia|intros; apply Hk; [done|lia]|]).
  - by apply rows_ok_take.
  - intros found [= <-]. split; [|by eapply Hall].
    unfold len. rewrite length_take. lia.
  - done.
  - intros found [=].
Qed.

Lemma search_google_none keyword n api_key cx lang use_serpapi serpapi_key w :
  n ≤ 0 →
  search_google server keyword n api_key cx lang use_serpapi serpapi_key w = (Ok [], w).
Proof.
  intros Hn. unfold search_google.
  by destruct (n <=? 0) eqn:Hle; [|apply Z.leb_gt in Hle; lia].
Qed.

(** [search_google] once it is asked for something: the choice of client. *)
Lemma search_google_choice keyword n api_key cx lang use_serpapi serpapi_key w :
  0 < n →
  search_google server keyword n api_key cx lang use_serpapi serpapi_key w
  = if picks_serpapi use_serpapi serpapi_key w then
      if truthy_str (serp_key_of serpapi_key w)
      then lift_net (_search_serpapi server keyword n
                       (default "" (serp_key_of serpapi_key w))) w
      else (Raise (ValueError serpapi_key_missing), w)
    else
      if truthy_str (google_key_of api_key w) && truthy_str (cx_of cx w)
      then lift_net (_search_google_cse server keyword n
                       (default "" (google_key_of api_key w))
                       (default "" (cx_of cx w)) lang) w
      else (Raise (ValueError credentials_missing), w).
Proof.
  intros Hn. unfold search_google.
  destruct (n <=? 0) eqn:Hle; [apply Z.leb_le in Hle; lia|].
  rewrite bind_read. cbv zeta.
  fold (serp_key_of serpapi_key w) (google_key_of api_key w) (cx_of cx w).
  fold (picks_serpapi use_serpapi serpapi_key w).
  destruct (picks_serpapi use_serpapi serpapi_key w).
  - by destruct (truthy_str (serp_key_of serpapi_key w)).
  - by destruct (truthy_str (google_key_of api_key w)), (truthy_str (cx_of cx w)).
Qed.

Lemma lift_net_run {A} (m : NetM A) w r t' :
  m (trace w) = (r, t') → lift_net m w = (r, set_trace t' w).
Proof. intros H. unfold lift_net. by rewrite H. Qed.

(** What every search does: it only asks, and it returns rows or raises one
    of three exceptions. *)
Lemma search_google_post keyword n api_key cx lang use_serpapi serpapi_key w r w' :
  search_google server keyword n api_key cx lang use_serpapi serpapi_key w = (r, w') →
  ∃ reqs, w' = set_trace (trace w ++ ask server (trace w) reqs) w
       ∧ search_post r
       ∧ (∀ found, r = Ok found →
            len found ≤ Z.max 0 n
            ∧ Forall answered_ok (ask server (trace w) reqs)).
Proof.
  destruct (decide (0 < n)) as [Hn|Hn].
  2:{ rewrite search_google_none by lia. intros [= <- <-].
      exists []. simpl. rewrite app_nil_r, set_trace_trace.
      split_and!; [done|apply rows_ok_nil|].
      intros found [= <-]. split; [unfold len; simpl; lia|constructor]. }
  rewrite search_google_choice by done.
  assert (Hraise : ∀ msg, (Raise (ValueError msg), w) = (r, w') →
            ∃ reqs, w' = set_trace (trace w ++ ask server (trace w) reqs) w
                 ∧ search_post r
                 ∧ (∀ found, r = Ok found →
                      len found ≤ Z.max 0 n
                      ∧ Forall answered_ok (ask server (trace w) reqs))).
  { intros msg [= <- <-]. exists []. simpl. rewrite app_nil_r, set_trace_trace.
    split_and!; [done|done|]. intros found [=]. }
  destruct (picks_serpapi use_serpapi serpapi_key w).
  - destruct (truthy_str (serp_key_of serpapi_key w)); [|apply Hraise].
    destruct (_search_serpapi server keyword n (default "" (serp_key_of serpapi_key w))
                (trace w)) as [r0 t0] eqn:Hs.
    rewrite (lift_net_run _ _ _ _ Hs). intros [= <- <-].
    apply search_serpapi_spec in Hs as (k & -> & Hpost & _ & _ & Hall).
    by eexists.
  - destruct (truthy_str (google_key_of api_key w) && truthy_str (cx_of cx w));
      [|apply Hraise].
    destruct (_search_google_cse server keyword n (default "" (google_key_of api_key w))
                (default "" (cx_of cx w)) lang (trace w)) as [r0 t0] eqn:Hs.
    rewrite (lift_net_run _ _ _ _ Hs). intros [= <- <-].
    apply search_google_cse_spec in Hs as (reqs & -> & Hpost & _ & _ & _ & Hall).
    by eexists.
Qed.


(** X2: with a SerpAPI key, a search asks SerpAPI and nobody else, for
    between one and ten pages: page [i] is the request for [num] results
    from [start = i * num], with [num] the wanted number clamped to 10..20,
    and no page starts at 100 or beyond. *)
Theorem serpapi_pagination keyword n api_key cx lang use_serpapi serpapi_key w key :
  0 < n →
  picks_serpapi use_serpapi serpapi_key w = true →
  serp_key_of serpapi_key w = Some key →
  key ≠ "" →
  ∃ k, (1 ≤ k ≤ 10)%nat
       ∧ (Z.of_nat k - 1) * Z.min 20 (Z.max 10 n) < 100
       ∧ (search_google server keyword n api_key cx lang use_serpapi serpapi_key w).2
         = set_trace
             (trace w ++ ask server (trace w)
                           (serpapi_pages keyword key (Z.min 20 (Z.max 10 n)) 0 k)) w.
Proof.
  intros Hn Hpick Hkey Hne.
  rewrite search_google_choice by done. rewrite Hpick, Hkey.
  rewrite truthy_str_Some by done. simpl.
  destruct (_search_serpapi server keyword n key (trace w)) as [r0 t0] eqn:Hs.
  rewrite (lift_net_run _ _ _ _ Hs).
  apply search_serpapi_spec in Hs as (k & -> & _ & Hbound & Hk & _).
  exists k. split_and!; [by apply Hk|lia|done|done].
Qed.

(** X3: without SerpAPI, and with a Google key and engine id, a search asks
    Custom Search and nobody else, between 1 and 100 times: every request
    asks for between 1 and 10 results and never more than are wanted, the
    first starts at 1, each next one where the previous stopped, and none
    starts beyond 100. *)
Theorem google_cse_paging keyword n api_key cx lang use_serpapi serpapi_key w gkey gcx :
  0 < n →
  picks_serpapi use_serpapi serpapi_key w = false →
  google_key_of api_key w = Some gkey → gkey ≠ "" →
  cx_of cx w = Some gcx → gcx ≠ "" →
  ∃ reqs, (1 ≤ length reqs ≤ 100)%nat
       ∧ cse_pages gkey gcx keyword (lr_of lang) n 1 reqs
       ∧ (search_google server keyword n api_key cx lang use_serpapi serpapi_key w).2
         = set_trace (trace w ++ ask server (trace w) reqs) w.
Proof.
  intros Hn Hpick Hkey Hne Hcx Hne'.
  rewrite search_google_choice by done. rewrite Hpick, Hkey, Hcx.
  rewrite !truthy_str_Some by done. simpl.
  destruct (_search_google_cse server keyword n gkey gcx lang (trace w))
    as [r0 t0] eqn:Hs.
  rewrite (lift_net_run _ _ _ _ Hs).
  apply search_google_cse_spec in Hs as (reqs & -> & _ & Hpages & Hbound & Hk & _).
  exists reqs. split_and!; try done.
  specialize (Hk Hn). destruct reqs; [done|simpl; lia].
Qed.

(** X4: a search that returns rows made only requests that were answered
    with status 200 and a body that decodes: one page that fails, whichever
    it is, and the search raises, with the rows of the pages before it lost. *)
Theorem search_returns_after_200_only keyword n api_key cx lang use_serpapi
    serpapi_key w rows w' :
  search_google server keyword n api_key cx lang use_serpapi serpapi_key w
    = (Ok rows, w') →
  ∃ evs, w' = set_trace (trace w ++ evs) w ∧ Forall answered_ok evs.
Proof.
  intros Hs. apply search_google_post in Hs as (reqs & -> & _ & Hall).
  eexists. split; [done|]. by apply (Hall rows).
Qed.

(** X5: the choice of the client.  Asked for something, [search_google]
    uses SerpAPI when told to, or when it is not told and a SerpAPI key is
    there; an explicit choice wins over the environment.  A chosen client
    without its credentials raises [ValueError] before any request is made
    -- SerpAPI without a key even when the Google credentials are there --
    and otherwise every request goes to the chosen client. *)
Theorem search_google_client keyword n api_key cx lang use_serpapi serpapi_key w :
  0 < n →
  let out := search_google server keyword n api_key cx lang use_serpapi serpapi_key w in
  let serp := picks_serpapi use_serpapi serpapi_key w in
  let ready :=
    if serp then truthy_str (serp_key_of serpapi_key w)
    else truthy_str (google_key_of api_key w) && truthy_str (cx_of cx w) in
  if ready then
    ∃ reqs, out.2 = set_trace (trace w ++ ask server (trace w) reqs) w
         ∧ reqs ≠ []
         ∧ Forall (λ req, is_serpapi req = serp ∧ is_google_cse req = negb serp) reqs
  else
    out = (Raise (ValueError (if serp then serpapi_key_missing
                              else credentials_missing)), w).
Proof.
  intros Hn. cbv zeta. rewrite search_google_choice by done.
  destruct (picks_serpapi use_serpapi serpapi_key w).
  - destruct (truthy_str (serp_key_of serpapi_key w)); [|done].
    destruct (_search_serpapi server keyword n (default "" (serp_key_of serpapi_key w))
                (trace w)) as [r0 t0] eqn:Hs.
    rewrite (lift_net_run _ _ _ _ Hs).
    apply search_serpapi_spec in Hs as (k & -> & _ & _ & Hk & _).
    eexists. split; [done|]. specialize (Hk Hn). split.
    + destruct k; [lia|done].
    + clear. generalize 0. induction k as [|k IH]; intros start; simpl;
        constructor; [done|apply IH].
  - destruct (truthy_str (google_key_of api_key w) && truthy_str (cx_of cx w)); [|done].
    destruct (_search_google_cse server keyword n (default "" (google_key_of api_key w))
                (default "" (cx_of cx w)) lang (trace w)) as [r0 t0] eqn:Hs.
    rewrite (lift_net_run _ _ _ _ Hs).
    apply search_google_cse_spec in Hs as (reqs & -> & _ & Hpages & _ & Hk & _).
    exists reqs. split; [done|]. split; [by apply Hk|].
    clear -Hpages. revert Hpages. generalize 1.
    induction reqs as [|req reqs IH]; intros start Hpages; [constructor|].
    destruct req; try done. simpl in Hpages. constructor; [done|].
    eapply IH. apply Hpages.
Qed.

(** One round of the Custom Search loop that is told the total is zero. *)
Lemma google_cse_loop_total_zero fuel keyword n key cx lang start rows t resp data :
  len rows < n →
  let req := GoogleCseGet key cx keyword (Z.min 10 (n - len rows)) start (lr_of lang) in
  server t req = inr resp →
  status_code resp = 200 →
  json resp = inr data →
  total_results data = Some 0 →
  google_cse_loop server (S fuel) keyword n key cx lang start rows t
  = (Ok rows, t ++ [ERequest req (inr resp)]).
Proof.
  intros Hlt req Hresp Hst Hj Htot. cbn [google_cse_loop].
  destruct (len rows <? n) eqn:Hlt'; [|apply Z.ltb_ge in Hlt'; lia].
  cbv zeta. fold (lr_of lang). unfold RESULTS_PER_REQUEST. fold req.
  pose proof (requests_get_run server req t) as Hget. rewrite Hresp in Hget.
  rewrite (bind_ok _ _ _ _ _ Hget).
  replace (status_code resp =? 200) with true by (symmetry; by apply Z.eqb_eq).
  simpl. unfold resp_json. by rewrite Hj, bind_ret, Htot.
Qed.

(** X6: Custom Search that answers the first request with a total of zero
    results ends the search at once: the result is empty after this one
    request, whatever items the answer carries. *)
Theorem google_cse_total_zero keyword n api_key cx lang use_serpapi serpapi_key w
    gkey gcx resp data :
  0 < n →
  picks_serpapi use_serpapi serpapi_key w = false →
  google_key_of api_key w = Some gkey → gkey ≠ "" →
  cx_of cx w = Some gcx → gcx ≠ "" →
  let req := GoogleCseGet gkey gcx keyword (Z.min 10 n) 1 (lr_of lang) in
  server (trace w) req = inr resp →
  status_code resp = 200 →
  json resp = inr data →
  total_results data = Some 0 →
  search_google server keyword n api_key cx lang use_serpapi serpapi_key w
  = (Ok [], log (ERequest req (inr resp)) w).
Proof.
  intros Hn Hpick Hkey Hne Hcx Hne' req Hresp Hst Hj Htot.
  rewrite search_google_choice by done. rewrite Hpick, Hkey, Hcx.
  rewrite !truthy_str_Some by done. simpl.
  apply lift_net_run. unfold _search_google_cse.
  assert (Hloop : google_cse_loop server 100 keyword n gkey gcx lang 1 [] (trace w)
                  = (Ok [], trace w ++ [ERequest req (inr resp)])).
  { pose proof (google_cse_loop_total_zero 99 keyword n gkey gcx lang 1 []
                  (trace w) resp data) as Hround.
    unfold len in Hround. cbn [length] in Hround.
    change (Z.of_nat 0) with 0 in Hround. rewrite Z.sub_0_r in Hround.
    by apply Hround. }
  rewrite (bind_ok _ _ _ _ _ Hloop). by destruct (Z.to_nat n).
Qed.

End SearchEntry.

(** ** Links only, and the command line *)

Lemma result_row_link r : result_row r → r !! "link" = Some (link_of r).
Proof.
  intros [Hdom _]. unfold link_of, get.
  assert (His : is_Some (r !! "link")).
  { apply elem_of_dom. rewrite Hdom. set_solver. }
  by destruct His as [v ->].
Qed.

Lemma links_of_acc {S} (rows : list dict) (acc : list value) (s : S) :
  Forall result_row rows →
  for_each (λ links r, let* link := getitem r "link" in ret (links ++ [link])) rows acc s
  = (Ok (acc ++ (link_of <$> rows)), s).
Proof.
  intros Hrows. revert acc.
  induction Hrows as [|r rows Hr _ IH]; intros acc; cbn [for_each].
  - unfold ret. by rewrite app_nil_r.
  - unfold getitem. rewrite (result_row_link r Hr). rewrite bind_assoc, !bind_ret, IH.
    by rewrite <- app_assoc.
Qed.

Lemma links_of_rows {S} (rows : list dict) (s : S) :
  Forall result_row rows → links_of rows s = (Ok (link_of <$> rows), s).
Proof. intros Hrows. unfold links_of. by rewrite links_of_acc. Qed.

Lemma print_links_run rows w :
  Forall result_row rows →
  for_each print_link rows tt w
  = (Ok tt, set_trace (trace w ++ ((λ r, EPrint (py_str (link_of r))) <$> rows)) w).
Proof.
  intros Hrows. revert w.
  induction Hrows as [|r rows Hr _ IH]; intros w; cbn [for_each].
  - unfold ret. simpl. by rewrite app_nil_r, set_trace_trace.
  - unfold print_link at 1, getitem. rewrite (result_row_link r Hr).
    rewrite bind_assoc, bind_ret, bind_print, IH. by rewrite set_trace_log.
Qed.

Section LinksOnly.

Context (server : list event → request → outcome).

(** X7: [get_links_only] returns the links of the rows [search_google]
    finds for the same arguments (with the default language), in the same
    order and in the same world, and raises what that search raises: the
    lookup of "link" never fails.  The links are non-empty, pairwise
    different and at most [num_results]. *)
Theorem get_links_only_links keyword n api_key cx serpapi_key use_serpapi w :
  let found :=
    search_google server keyword n api_key cx "lang_en" use_serpapi serpapi_key w in
  get_links_only server keyword n api_key cx serpapi_key use_serpapi w
  = match found.1 with
    | Ok rows => (Ok (link_of <$> rows), found.2)
    | Raise e => (Raise e, found.2)
    end
  ∧ ∀ links w',
      get_links_only server keyword n api_key cx serpapi_key use_serpapi w
        = (Ok links, w') →
      NoDup links ∧ Forall (λ v, truthy v = true) links ∧ len links ≤ Z.max 0 n.
Proof.
  cbv zeta. unfold get_links_only.
  pose proof (search_google_post server keyword n api_key cx "lang_en" use_serpapi
                serpapi_key w) as Hpost.
  destruct (search_google server keyword n api_key cx "lang_en" use_serpapi
              serpapi_key w) as [[rows|e] w1] eqn:Hs.
  - destruct (Hpost _ _ eq_refl) as (reqs & _ & [Hrows Hnd] & Hall).
    destruct (Hall rows eq_refl) as [Hlen _].
    rewrite (bind_ok _ _ _ _ _ Hs), links_of_rows by done. split; [done|].
    intros links w' [= <- <-]. split_and!; [done| |].
    + apply Forall_fmap. eapply Forall_impl; [done|]. by intros r [_ Hr].
    + unfold len in *. by rewrite length_fmap.
  - rewrite (bind_raise _ _ _ _ _ Hs). split; [done|]. intros links w' [=].
Qed.

(** X8: the command line under [--links-only] prints what
    [get_links_only] returns, one link per line and nothing else, and
    writes nothing to stderr. *)
Theorem command_line_links_only keyword num w err links w1 :
  get_links_only server keyword num None None None None w = (Ok links, w1) →
  google_search_tool_main server keyword num true (w, err)
  = (Ok tt, (set_trace (trace w1 ++ ((λ v, EPrint (py_str v)) <$> links)) w1, err)).
Proof.
  unfold get_links_only, google_search_tool_main.
  pose proof (search_google_post server keyword num None None "lang_en" None None w)
    as Hpost.
  destruct (search_google server keyword num None None "lang_en" None None w)
    as [[rows|e] w0] eqn:Hs.
  2:{ by rewrite (bind_raise _ _ _ _ _ Hs). }
  destruct (Hpost _ _ eq_refl) as (reqs & _ & [Hrows _] & _).
  rewrite (bind_ok _ _ _ _ _ Hs), links_of_rows by done. intros [= <- <-].
  assert (Htry : try_except
                   (lift_world (search_google server keyword num None None "lang_en"
                                  None None))
                   is_ValueError_or_RuntimeError
                   (λ e, eprint ("Error: " +:+ str_exn e);; raise (SystemExit "1"))
                   (w, err)
                 = (Ok rows, (w0, err))).
  { unfold try_except, lift_world. simpl. by rewrite Hs. }
  rewrite (bind_ok _ _ _ _ _ Htry). unfold lift_world. cbn [fst snd].
  rewrite print_links_run by done. by rewrite <- list_fmap_compose.
Qed.


End LinksOnly.

(** ** The loop over the keywords *)

Lemma keyword_header_logged keyword w :
  log (EPrint (py_repeat "=" 60))
    (log (EPrint ("Keyword: " +:+ keyword)) (log (EPrint (nl +:+ py_repeat "=" 60)) w))
  = set_trace (trace w ++ keyword_header keyword) w.
Proof.
  unfold log, set_trace, keyword_header. cbn [trace]. by rewrite <- !app_assoc.
Qed.

Lemma dict_set_keys {V} k (v : V) d :
  (dict_set k v d).*1 = if bool_decide (k ∈ d.*1) then d.*1 else d.*1 ++ [k].
Proof.
  induction d as [|[k' v'] d IH]; [done|].
  cbn [dict_set]. destruct (String.eqb k' k) eqn:Heq.
  - apply String.eqb_eq in Heq as ->. cbn [fmap list_fmap fst].
    rewrite bool_decide_eq_true_2; [done|]. apply elem_of_cons. by left.
  - apply String.eqb_neq in Heq. cbn [fmap list_fmap fst]. fold (d.*1).
    change (list_fmap _ _ fst (dict_set k v d)) with ((dict_set k v d).*1).
    rewrite IH. destruct (decide (k ∈ d.*1)) as [Hin|Hin].
    + rewrite !bool_decide_eq_true_2; [done| |done]. apply elem_of_cons. by right.
    + rewrite !bool_decide_eq_false_2; [done| |done].
      intros [->|?]%elem_of_cons; done.
Qed.

Lemma filter_first_occurrences_step (seen : list string) k (rest : list string) :
  k ∉ seen →
  filter (λ k', k' ∉ seen ++ [k]) rest
  = filter (λ k', k' ∉ seen) (filter (λ k', k' ≠ k) rest).
Proof.
  intros Hk. rewrite list_filter_filter. apply list_filter_iff.
  intros x. rewrite elem_of_app, list_elem_of_singleton. naive_solver.
Qed.

Lemma filter_first_occurrences_seen (seen : list string) k (rest : list string) :
  k ∈ seen →
  filter (λ k', k' ∉ seen) rest
  = filter (λ k', k' ∉ seen) (filter (λ k', k' ≠ k) rest).
Proof.
  intros Hk. rewrite list_filter_filter. apply list_filter_iff.
  intros x. naive_solver.
Qed.

(** The keys after the loop, from the keys before it. *)
Lemma keys_after_loop (seen keywords : list string) :
  fold_left (λ ks k, if bool_decide (k ∈ ks) then ks else ks ++ [k]) keywords seen
  = seen ++ filter (λ k', k' ∉ seen) (first_occurrences keywords).
Proof.
  revert seen. induction keywords as [|k keywords IH]; intros seen.
  - simpl. by rewrite app_nil_r.
  - cbn [fold_left first_occurrences]. rewrite IH.
    destruct (decide (k ∈ seen)) as [Hin|Hin].
    + rewrite bool_decide_eq_true_2 by done.
      rewrite filter_cons_False by naive_solver.
      by rewrite <- filter_first_occurrences_seen.
    + rewrite bool_decide_eq_false_2 by done.
      rewrite filter_cons_True by done.
      rewrite <- app_assoc. cbn [app].
      by rewrite filter_first_occurrences_step.
Qed.

Section KeywordLoop.

Context (server : list event → request → outcome).

(** What [main] makes of a search that raises. *)
Lemma search_keyword_raise n rbk keyword w e w1 :
  search_google server keyword n None None "lang_en" None None
    (set_trace (trace w ++ keyword_header keyword) w) = (Raise e, w1) →
  search_keyword server n rbk keyword w
  = if is_ValueError_or_RuntimeError e
    then (Ok (dict_set keyword [] rbk),
          log (EPrint ("Error for '" +:+ keyword +:+ "': " +:+ str_exn e)) w1)
    else (Raise e, w1).
Proof.
  intros Hs. unfold search_keyword. rewrite !bind_print, keyword_header_logged.
  unfold try_except. rewrite (bind_raise _ _ _ _ _ Hs).
  destruct (is_ValueError_or_RuntimeError e); [|done]. by rewrite bind_print.
Qed.

Lemma search_keyword_returns n rbk keyword w rbk' w' :
  search_keyword server n rbk keyword w = (Ok rbk', w') →
  ∃ rows, rbk' = dict_set keyword rows rbk.
Proof.
  unfold search_keyword. rewrite !bind_print. unfold try_except.
  set (w0 := log _ _).
  destruct (search_google server keyword n None None "lang_en" None None w0)
    as [[rows|e] w1] eqn:Hs.
  - rewrite (bind_ok _ _ _ _ _ Hs).
    destruct (for_each print_result (enumerate rows) () w1) as [[[]|e] w2] eqn:Hp.
    + rewrite (bind_ok _ _ _ _ _ Hp). intros [= <- <-]. by eexists.
    + rewrite (bind_raise _ _ _ _ _ Hp).
      destruct (is_ValueError_or_RuntimeError e); [|done].
      rewrite bind_print. intros [= <- <-]. by eexists.
  - rewrite (bind_raise _ _ _ _ _ Hs).
    destruct (is_ValueError_or_RuntimeError e); [|done].
    rewrite bind_print. intros [= <- <-]. by eexists.
Qed.

Lemma search_loop_keys n keywords rbk w rbk' w' :
  for_each (search_keyword server n) keywords rbk w = (Ok rbk', w') →
  rbk'.*1
  = fold_left (λ ks k, if bool_decide (k ∈ ks) then ks else ks ++ [k]) keywords rbk.*1.
Proof.
  revert rbk w. induction keywords as [|k keywords IH]; intros rbk w.
  - simpl. by intros [= <- <-].
  - cbn [for_each fold_left].
    destruct (search_keyword server n rbk k w) as [[rbk1|e] w1] eqn:Hk.
    2:{ by rewrite (bind_raise _ _ _ _ _ Hk). }
    rewrite (bind_ok _ _ _ _ _ Hk). intros Hrest.
    apply search_keyword_returns in Hk as [rows ->].
    rewrite (IH _ _ Hrest). by rewrite dict_set_keys.
Qed.

(** X10: the keys of the results a run records are the keywords of
    config.json where each occurs first: a keyword listed twice is searched
    twice and recorded once. *)
Theorem recorded_keywords n keywords w rbk w' :
  for_each (search_keyword server n) keywords [] w = (Ok rbk, w') →
  rbk.*1 = first_occurrences keywords ∧ NoDup rbk.*1.
Proof.
  intros Hloop. apply search_loop_keys in Hloop. rewrite keys_after_loop in Hloop.
  cbn [fmap list_fmap app] in Hloop.
  assert (Hall : filter (λ k' : string, k' ∉ ([] : list string))
                   (first_occurrences keywords) = first_occurrences keywords).
  { clear. induction (first_occurrences keywords) as [|k l IH]; [done|].
    rewrite filter_cons_True by apply not_elem_of_nil. by rewrite IH. }
  rewrite Hall in Hloop. split; [done|]. rewrite Hloop. clear.
  induction keywords as [|k keywords IH]; [constructor|].
  cbn [first_occurrences]. constructor.
  - rewrite list_elem_of_filter. naive_solver.
  - by apply NoDup_filter.
Qed.

(** One round of the SerpAPI loop that is answered with an HTTP error. *)
Lemma serpapi_loop_http_error fuel keyword n key num start rows t resp :
  len rows < n →
  server t (SerpApiGet keyword key num start) = inr resp →
  status_code resp ≠ 200 →
  serpapi_loop server (S fuel) keyword n key num start rows t
  = (Raise (RuntimeError ("SerpAPI error " +:+ str_Z (status_code resp)
                          +:+ ": " +:+ text resp)),
     t ++ [ERequest (SerpApiGet keyword key num start) (inr resp)]).
Proof.
  intros Hlt Hresp Hst. cbn [serpapi_loop].
  destruct (len rows <? n) eqn:Hlt'; [|apply Z.ltb_ge in Hlt'; lia].
  pose proof (requests_get_run server (SerpApiGet keyword key num start) t) as Hget.
  rewrite Hresp in Hget. rewrite (bind_ok _ _ _ _ _ Hget).
  by replace (status_code resp =? 200) with false by (symmetry; by apply Z.eqb_neq).
Qed.


Lemma search_google_serpapi keyword n lang w key :
  0 < n → environ w !! "SERPAPI_KEY" = Some key → key ≠ "" →
  search_google server keyword n None None lang None None w
  = lift_net (_search_serpapi server keyword n key) w.
Proof.
  intros Hn Hkey Hne. rewrite search_google_choice by done.
  unfold picks_serpapi, serp_key_of. rewrite Hkey.
  change (py_or None (Some key)) with (Some key).
  by rewrite truthy_str_Some.
Qed.

Lemma search_keyword_http_error n rbk keyword w key resp :
  0 < n → environ w !! "SERPAPI_KEY" = Some key → key ≠ "" →
  (∀ t req, is_serpapi req = true → server t req = inr resp) →
  status_code resp ≠ 200 →
  search_keyword server n rbk keyword w
  = (Ok (dict_set keyword [] rbk),
     set_trace (trace w ++ serpapi_error_events keyword key n resp) w).
Proof.
  intros Hn Hkey Hne Hserver Hst.
  set (w0 := set_trace (trace w ++ keyword_header keyword) w).
  set (num := Z.min 20 (Z.max 10 n)).
  set (msg := "SerpAPI error " +:+ str_Z (status_code resp) +:+ ": " +:+ text resp).
  assert (Hs : search_google server keyword n None None "lang_en" None None w0
               = (Raise (RuntimeError msg),
                  set_trace (trace w0 ++ [ERequest (SerpApiGet keyword key num 0)
                                            (inr resp)]) w0)).
  { rewrite (search_google_serpapi keyword n "lang_en" w0 key) by done.
    apply lift_net_run. unfold _search_serpapi. cbv zeta. fold num.
    assert (Hloop : serpapi_loop server 10 keyword n key num 0 [] (trace w0)
                    = (Raise (RuntimeError msg),
                       trace w0 ++ [ERequest (SerpApiGet keyword key num 0) (inr resp)])).
    { apply (serpapi_loop_http_error 9); [unfold len; simpl; lia| |done].
      by apply Hserver. }
    by rewrite (bind_raise _ _ _ _ _ Hloop). }
  rewrite (search_keyword_raise n rbk keyword w _ _ Hs). cbn [is_ValueError_or_RuntimeError].
  unfold w0, log, set_trace, serpapi_error_events. cbn [trace str_exn].
  fold num. fold msg. by rewrite <- !app_assoc.
Qed.

(** X11: while SerpAPI answers every request with the same HTTP error, the
    loop of [main] over the keywords goes through: for each keyword it
    prints the header, asks SerpAPI once, prints "Error for '<keyword>':
    SerpAPI error <status>: <body>", and records the empty list. *)
Theorem http_errors_recorded_as_empty n keywords rbk w key resp :
  0 < n → environ w !! "SERPAPI_KEY" = Some key → key ≠ "" →
  (∀ t req, is_serpapi req = true → server t req = inr resp) →
  status_code resp ≠ 200 →
  for_each (search_keyword server n) keywords rbk w
  = (Ok (no_results keywords rbk),
     set_trace (trace w ++ concat ((λ k, serpapi_error_events k key n resp)
                                    <$> keywords)) w).
Proof.
  intros Hn Hkey Hne Hserver Hst. revert rbk w Hkey.
  induction keywords as [|k keywords IH]; intros rbk w Hkey.
  - simpl. unfold ret. by rewrite app_nil_r, set_trace_trace.
  - cbn [for_each].
    rewrite (bind_ok _ _ _ _ _
               (search_keyword_http_error n rbk k w key resp Hn Hkey Hne Hserver Hst)).
    rewrite IH by exact Hkey. rewrite fmap_cons. cbn [concat no_results fold_left].
    unfold set_trace. cbn [trace]. by rewrite <- app_assoc.
Qed.


End KeywordLoop.

(** ** The history files *)

Lemma write_history_saved name day w : day_saved name day w (write_history name day w).
Proof.
  unfold day_saved, write_history, log, set_trace, set_history. cbn.
  split_and!; try done.
  - apply lookup_insert_eq.
  - intros other Hne. by apply lookup_insert_ne.
Qed.

Lemma save_history_corrupt run_at rbk w :
  history_files w !! history_name run_at = Some Blank
  ∨ history_files w !! history_name run_at = Some Unparseable →
  _save_history run_at rbk w = (Raise JSONDecodeError, w).
Proof.
  intros Hfile. unfold _save_history, _ensure_dirs.
  rewrite bind_ret, bind_read. fold (history_name run_at).
  by destruct Hfile as [-> | ->].
Qed.

(** X13: [_save_history] only ever appends.  A day file that is there keeps
    its date and its runs, in their order, and gets the new run as the
    last one; a day file that is not there is created with the first ten
    characters of the run time as its date.  Nothing else changes: not
    another day's file, not the two stores.  A day file that does not
    parse makes the call raise before anything is written. *)
Theorem history_appends run_at rbk w :
  let name := history_name run_at in
  let run := {| run_at := run_at; results := rbk |} in
  (∀ old, history_files w !! name = Some (Parsed old) →
     ∃ w', _save_history run_at rbk w = (Ok tt, w')
           ∧ day_saved name {| date := date old; runs := runs old ++ [run] |} w w')
  ∧ (history_files w !! name = None →
     ∃ w', _save_history run_at rbk w = (Ok tt, w')
           ∧ day_saved name {| date := py_prefix 10 run_at; runs := [run] |} w w')
  ∧ (history_files w !! name = Some Blank ∨ history_files w !! name = Some Unparseable →
     _save_history run_at rbk w = (Raise JSONDecodeError, w)).
Proof.
  cbv zeta. split_and!.
  - intros old Hfile. eexists. split; [|apply write_history_saved].
    rewrite save_history_run by (intros d; rewrite Hfile; intros [= <-]; by eexists).
    by rewrite Hfile.
  - intros Hfile. eexists. split; [|apply write_history_saved].
    rewrite save_history_run by (intros d; by rewrite Hfile).
    by rewrite Hfile.
  - apply save_history_corrupt.
Qed.

(** X14: two runs recorded one after the other, starting without their day
    files.  When both fall on the same day, that day's file holds both, the
    earlier call first; otherwise each day's file holds its own run only. *)
Theorem history_of_two_runs run_at1 rbk1 run_at2 rbk2 w :
  history_files w !! history_name run_at1 = None →
  history_files w !! history_name run_at2 = None →
  let run1 := {| run_at := run_at1; results := rbk1 |} in
  let run2 := {| run_at := run_at2; results := rbk2 |} in
  ∃ w1 w2,
    _save_history run_at1 rbk1 w = (Ok tt, w1)
    ∧ _save_history run_at2 rbk2 w1 = (Ok tt, w2)
    ∧ if decide (history_name run_at1 = history_name run_at2) then
        history_files w2 !! history_name run_at1
        = Some (Parsed {| date := py_prefix 10 run_at1; runs := [run1; run2] |})
      else
        history_files w2 !! history_name run_at1
        = Some (Parsed {| date := py_prefix 10 run_at1; runs := [run1] |})
        ∧ history_files w2 !! history_name run_at2
          = Some (Parsed {| date := py_prefix 10 run_at2; runs := [run2] |}).
Proof.
  intros H1 H2. cbv zeta.
  set (day1 := {| date := py_prefix 10 run_at1;
                  runs := [ {| run_at := run_at1; results := rbk1 |} ] |}).
  assert (Hs1 : _save_history run_at1 rbk1 w
                = (Ok tt, write_history (history_name run_at1) day1 w)).
  { rewrite save_history_run by (intros d; by rewrite H1). by rewrite H1. }
  destruct (write_history_saved (history_name run_at1) day1 w) as (Hl1 & Ho1 & _).
  set (w1 := write_history (history_name run_at1) day1 w) in *.
  exists w1. destruct (decide (history_name run_at1 = history_name run_at2)) as [Heq|Hne].
  - assert (Hfile : history_files w1 !! history_name run_at2 = Some (Parsed day1)).
    { by rewrite <- Heq. }
    eexists. split; [done|]. split.
    { rewrite save_history_run by (intros d; rewrite Hfile; intros [= <-]; by eexists).
      by rewrite Hfile. }
    destruct (write_history_saved (history_name run_at2)
                (appended (Some (Parsed day1)) run_at2 rbk2) w1) as (Hl2 & _).
    by rewrite Heq, Hl2.
  - assert (Hfile : history_files w1 !! history_name run_at2 = None).
    { rewrite Ho1 by done. exact H2. }
    eexists. split; [done|]. split.
    { rewrite save_history_run by (intros d; by rewrite Hfile). by rewrite Hfile. }
    destruct (write_history_saved (history_name run_at2)
                (appended None run_at2 rbk2) w1) as (Hl2 & Ho2 & _).
    split; [|exact Hl2]. rewrite Ho2 by done. exact Hl1.
Qed.

(** ** What [_save_activity] adds *)

Lemma url_of_wf e : wf_entry e → e !! "url" = Some (url_of e).
Proof. intros He. by destruct (wf_entry_get e He). Qed.

Lemma url_of_has_url e : has_url e → e !! "url" = Some (url_of e).
Proof. intros [v Hv]. unfold url_of, get. by rewrite Hv. Qed.

Lemma url_of_in_urls e l : has_url e → e ∈ l → url_of e ∈ urls l.
Proof.
  intros He Hin. apply elem_of_urls. exists e. split; [done|by apply url_of_has_url].
Qed.

Lemma in_urls_url_of u l : u ∈ urls l → u ∈ url_of <$> l.
Proof.
  intros (e & Hin & Hu)%elem_of_urls. apply list_elem_of_fmap. exists e.
  split; [|done]. unfold url_of, get. by rewrite Hu.
Qed.

Lemma recorded_refl P st : recorded P st st.
Proof.
  exists []. rewrite urls_nil, !app_nil_r. split_and!; try done.
  - set_solver.
  - apply NoDup_nil_2.
  - by intros e ?%elem_of_nil.
Qed.

Lemma recorded_mono (P Q : dict → Prop) st st' :
  (∀ e, P e → Q e) → recorded P st st' → recorded Q st st'.
Proof.
  intros HPQ (added & Hs & He & Hn & Hd & Hf & Hall). exists added.
  split_and!; try done. eapply Forall_impl; [done|]. naive_solver.
Qed.

Lemma recorded_trans P st1 st2 st3 :
  recorded P st1 st2 → recorded P st2 st3 → recorded P st1 st3.
Proof.
  intros (a1 & Hs1 & He1 & Hn1 & Hd1 & Hf1 & Hall1)
         (a2 & Hs2 & He2 & Hn2 & Hd2 & Hf2 & Hall2).
  exists (a1 ++ a2). split_and!.
  - rewrite Hs2, Hs1, urls_app. set_solver.
  - by rewrite He2, He1, app_assoc.
  - by rewrite Hn2, Hn1, app_assoc.
  - unfold distinct_urls. rewrite fmap_app. apply NoDup_app. split; [done|].
    split; [|done]. intros u (e1 & -> & Hin1)%list_elem_of_fmap
                              (e2 & Heq & Hin2)%list_elem_of_fmap.
    apply (Hf2 e2 Hin2). rewrite Hs1, <- Heq. apply elem_of_union. left.
    apply url_of_in_urls; [|done]. apply wf_entry_has_url.
    rewrite Forall_forall in Hall1. by apply Hall1.
  - intros e [Hin|Hin]%elem_of_app; [by apply Hf1|].
    intros Hseen. apply (Hf2 e Hin). rewrite Hs1. set_solver.
  - by apply Forall_app.
Qed.

Lemma activity_entry_url run_at keyword r :
  url_of (activity_entry run_at keyword r) = get r "link".
Proof. unfold url_of, get, activity_entry. by rewrite lookup_insert_eq. Qed.

Lemma activity_add_recorded run_at keyword st r :
  recorded (λ e, truthy (get r "link") = true ∧ e = activity_entry run_at keyword r)
    st (activity_add run_at keyword st r).
Proof.
  destruct st as [[seen existing] new]. unfold activity_add.
  destruct (truthy (get r "link")) eqn:Ht; [|apply recorded_refl].
  destruct (bool_decide (get r "link" ∈ seen)) eqn:Hin; [apply recorded_refl|].
  apply bool_decide_eq_false in Hin. cbn [negb orb].
  exists [activity_entry run_at keyword r]. cbn [fst snd].
  assert (Hwf : wf_entry (activity_entry run_at keyword r)).
  { unfold wf_entry. fold (url_of (activity_entry run_at keyword r)).
    by rewrite activity_entry_url. }
  split_and!; try done.
  - unfold urls. cbn [omap list_omap]. unfold activity_entry.
    rewrite lookup_insert_eq. cbn. set_solver.
  - unfold distinct_urls. cbn. apply NoDup_singleton.
  - intros e ->%list_elem_of_singleton. by rewrite activity_entry_url.
  - by repeat constructor.
Qed.

Lemma items_loop_recorded run_at keyword its st :
  recorded (λ e, ∃ r, r ∈ its ∧ truthy (get r "link") = true
                      ∧ e = activity_entry run_at keyword r)
    st (fold_left (activity_add run_at keyword) its st).
Proof.
  revert st. induction its as [|r its IH]; intros st; [apply recorded_refl|].
  cbn [fold_left]. eapply recorded_trans.
  - eapply recorded_mono; [|apply activity_add_recorded].
    intros e [Ht ->]. exists r. split_and!; [apply elem_of_cons; by left|done|done].
  - eapply recorded_mono; [|apply IH].
    intros e (r' & Hin & Ht & ->). exists r'.
    split_and!; [apply elem_of_cons; by right|done|done].
Qed.

Lemma record_loop_recorded run_at rbk st :
  recorded (entry_from run_at rbk) st (record_loop run_at rbk st).
Proof.
  unfold record_loop. revert st.
  induction rbk as [|[keyword its] rbk IH]; intros st; [apply recorded_refl|].
  cbn [fold_left]. eapply recorded_trans.
  - eapply recorded_mono; [|apply items_loop_recorded].
    intros e (r & Hin & Ht & ->). exists keyword, its, r.
    split_and!; [apply elem_of_cons; by left|done|done|done].
  - eapply recorded_mono; [|apply IH].
    intros e (keyword' & its' & r & Hin & Hr & Ht & ->). exists keyword', its', r.
    split_and!; [apply elem_of_cons; by right|done|done|done].
Qed.

(** What a call of [_save_activity] that returns has done. *)
Lemma save_activity_recorded run_at rbk w new_entries w' :
  _save_activity run_at rbk w = (Ok new_entries, w') →
  let old := entries (activity_file w) in
  Forall has_url old
  ∧ w' = write_activity (old ++ new_entries) w
  ∧ distinct_urls new_entries
  ∧ (∀ e, e ∈ new_entries → url_of e ∉ urls old)
  ∧ Forall (λ e, wf_entry e ∧ entry_from run_at rbk e) new_entries
  ∧ (∀ keyword its r, (keyword, its) ∈ rbk → r ∈ its →
       truthy (get r "link") = true → get r "link" ∈ urls (old ++ new_entries)).
Proof.
  intros Hrun. cbv zeta.
  destruct (save_activity_returns _ _ _ _ _ Hrun) as (existing & Hfile & Hurl).
  assert (Hold : entries (activity_file w) = existing).
  { by destruct Hfile as [[-> ->]| ->]. }
  rewrite Hold. rewrite (save_activity_run run_at rbk w existing Hfile Hurl) in Hrun.
  cbv zeta in Hrun.
  destruct (record_loop_recorded run_at rbk (urls existing, existing, []))
    as (added & Hseen & Hex & Hnew & Hd & Hfresh & Hall).
  destruct (record_loop_grown run_at rbk (urls existing, existing, [])) as [_ Hlinks].
  injection Hrun as Hn Hw. cbn [fst snd] in Hseen, Hex, Hnew, Hfresh.
  cbn [app] in Hnew. rewrite Hnew in Hn. subst new_entries.
  split_and!; try done.
  - by rewrite <- Hw, Hex.
  - intros keyword its r Hin Hr Ht. rewrite urls_app, (union_comm_L (urls existing)).
    rewrite <- Hseen. by eapply Hlinks.
Qed.

(** X15: what a call of [_save_activity] that returns has done.  The store
    is its old entries, untouched and in their order, followed by the
    entries the call returns.  Each new entry is made of a row of this run
    with a non-empty link: that link as url, the time of the run as
    first_seen, the keyword the row was found for, and the title of the
    row.  The new urls are pairwise different and none was in the store;
    and every non-empty link of this run is now a url of the store.  The
    activity file is the one file written. *)
Theorem save_activity_records run_at rbk w new_entries w' :
  _save_activity run_at rbk w = (Ok new_entries, w') →
  let old := entries (activity_file w) in
  activity_file w' = Some (Parsed (JList (old ++ new_entries)))
  ∧ distinct_urls new_entries
  ∧ (∀ e, e ∈ new_entries → url_of e ∉ urls old)
  ∧ Forall (entry_from run_at rbk) new_entries
  ∧ (∀ keyword its r, (keyword, its) ∈ rbk → r ∈ its →
       truthy (get r "link") = true → get r "link" ∈ urls (old ++ new_entries))
  ∧ trace w' = trace w ++ [EWrite ActivityFile]
  ∧ telegram_bot_file w' = telegram_bot_file w
  ∧ history_files w' = history_files w.
Proof.
  intros Hrun. cbv zeta.
  destruct (save_activity_recorded _ _ _ _ _ Hrun)
    as (_ & -> & Hd & Hfresh & Hall & Hlinks).
  split_and!; try done.
  eapply Forall_impl; [done|]. by intros e [_ He].
Qed.

(** ** The stages of a run *)

#[global] Instance searched_reflexive : Reflexive searched.
Proof.
  intros w. exists []. rewrite app_nil_r, set_trace_trace. by split_and!.
Qed.

#[global] Instance searched_transitive : Transitive searched.
Proof.
  intros w1 w2 w3 (evs & -> & Hw & Hr) (evs' & -> & Hw' & Hr').
  exists (evs ++ evs'). split_and!.
  - unfold set_trace. cbn [trace]. by rewrite app_assoc.
  - by rewrite writes_of_app, Hw, Hw'.
  - rewrite requests_of_app. by apply Forall_app.
Qed.

Lemma searched_log_print msg w : searched w (log (EPrint msg) w).
Proof. exists [EPrint msg]. by split_and!. Qed.

Lemma preserves_searched_read {A} (f : world → A) : preserves searched (read f).
Proof. intros w r w' [= _ <-]. reflexivity. Qed.

Lemma preserves_searched_print msg : preserves searched (print msg).
Proof. intros w r w' [= _ <-]. apply searched_log_print. Qed.

Lemma serpapi_pages_search q key num start k :
  Forall (λ req, is_telegram req = false) (serpapi_pages q key num start k).
Proof.
  revert start. induction k as [|k IH]; intros start; simpl; constructor; [done|apply IH].
Qed.

Lemma cse_pages_search key cx q lr n start reqs :
  cse_pages key cx q lr n start reqs → Forall (λ req, is_telegram req = false) reqs.
Proof.
  revert start. induction reqs as [|req reqs IH]; intros start Hpages; [constructor|].
  destruct req; try done. simpl in Hpages. constructor; [done|].
  eapply IH. apply Hpages.
Qed.

Lemma searched_ask server w reqs :
  Forall (λ req, is_telegram req = false) reqs →
  searched w (set_trace (trace w ++ ask server (trace w) reqs) w).
Proof.
  intros Hreqs. eexists. split; [done|].
  by rewrite writes_of_ask, requests_of_ask.
Qed.

Section Stages.

Context (server : list event → request → outcome).

Lemma preserves_searched_search_google keyword n api_key cx lang use_serpapi serpapi_key :
  preserves searched
    (search_google server keyword n api_key cx lang use_serpapi serpapi_key).
Proof.
  intros w r w'.
  destruct (decide (0 < n)) as [Hn|Hn].
  2:{ rewrite search_google_none by lia. intros [= _ <-]. reflexivity. }
  rewrite search_google_choice by done.
  destruct (picks_serpapi use_serpapi serpapi_key w).
  - destruct (truthy_str (serp_key_of serpapi_key w)).
    2:{ intros [= _ <-]. reflexivity. }
    destruct (_search_serpapi server keyword n (default "" (serp_key_of serpapi_key w))
                (trace w)) as [r0 t0] eqn:Hs.
    rewrite (lift_net_run _ _ _ _ Hs). intros [= _ <-].
    apply search_serpapi_spec in Hs as (k & -> & _).
    apply searched_ask, serpapi_pages_search.
  - destruct (truthy_str (google_key_of api_key w) && truthy_str (cx_of cx w)).
    2:{ intros [= _ <-]. reflexivity. }
    destruct (_search_google_cse server keyword n (default "" (google_key_of api_key w))
                (default "" (cx_of cx w)) lang (trace w)) as [r0 t0] eqn:Hs.
    rewrite (lift_net_run _ _ _ _ Hs). intros [= _ <-].
    apply search_google_cse_spec in Hs as (reqs & -> & _ & Hpages & _).
    eapply searched_ask, cse_pages_search, Hpages.
Qed.

Lemma preserves_searched_print_result u ir : preserves searched (print_result u ir).
Proof.
  destruct ir as [i r]. unfold print_result, getitem.
  repeat first
    [ pres preserves_bind; [ |intros ?]
    | apply preserves_searched_print
    | pres preserves_ret
    | pres preserves_raise
    | match goal with |- preserves _ (match ?x with _ => _ end) => destruct x end
    | match goal with |- preserves _ (if ?x then _ else _) => destruct x end ].
Qed.

Lemma preserves_searched_search_keyword n rbk keyword :
  preserves searched (search_keyword server n rbk keyword).
Proof.
  unfold search_keyword.
  repeat (pres preserves_bind; [apply preserves_searched_print|intros _]).
  pres preserves_try_except; [ |].
  - pres preserves_bind; [apply preserves_searched_search_google|].
    intros results.
    pres preserves_bind; [ |intros _; pres preserves_ret].
    pres preserves_for_each; []. intros a b. apply preserves_searched_print_result.
  - intros e. pres preserves_bind; [apply preserves_searched_print|].
    intros _. pres preserves_ret.
Qed.

Lemma load_config_same w : (_load_config w).2 = w.
Proof.
  unfold _load_config. rewrite bind_read.
  by destruct (config_file w) as [[| |cfg]|].
Qed.

(** How far a run gets: it stops while it loads the configuration and
    searches; or at the day file; or at the activity store; or it gets to
    the notification step. *)
Lemma run_stages run_at w :
  (∃ e w1, run_keywords_main server run_at w = (Raise e, w1) ∧ searched w w1)
  ∨ (∃ w1, searched w w1
           ∧ run_keywords_main server run_at w = (Raise JSONDecodeError, w1))
  ∨ (∃ w1 day e,
       searched w w1
       ∧ run_keywords_main server run_at w
         = (Raise e, write_history (history_name run_at) day w1))
  ∨ (∃ w1 day rbk new_entries w2,
       searched w w1
       ∧ _save_activity run_at rbk (write_history (history_name run_at) day w1)
         = (Ok new_entries, w2)
       ∧ run_keywords_main server run_at w
         = (_sync_telegram_bot_and_send server new_entries;; report_saved run_at)
             (log (EPrint (nl +:+ "New URLs this run: "
                           +:+ str_nat (length new_entries)
                           +:+ " (only these are sent to Telegram)")) w2)).
Proof.
  unfold run_keywords_main.
  destruct (_load_config w) as [[[kws n]|e] w0] eqn:Hcfg.
  2:{ left. exists e, w0. rewrite (bind_raise _ _ _ _ _ Hcfg). split; [done|].
      pose proof (load_config_same w) as Hsame. rewrite Hcfg in Hsame.
      simpl in Hsame. subst w0. reflexivity. }
  pose proof (load_config_same w) as Hsame. rewrite Hcfg in Hsame.
  simpl in Hsame. subst w0.
  rewrite (bind_ok _ _ _ _ _ Hcfg). cbv beta iota.
  destruct (for_each (search_keyword server n) kws [] w) as [[rbk|e] w1] eqn:Hloop.
  2:{ left. exists e, w1. rewrite (bind_raise _ _ _ _ _ Hloop). split; [done|].
      eapply (preserves_for_each searched); [|done].
      intros a b. apply preserves_searched_search_keyword. }
  assert (H1 : searched w w1).
  { eapply (preserves_for_each searched); [|done].
    intros a b. apply preserves_searched_search_keyword. }
  rewrite (bind_ok _ _ _ _ _ Hloop).
  assert (Hdirs : ∀ B (k : unit → M B) s, bind _ensure_dirs k s = k tt s) by done.
  rewrite Hdirs. clear Hdirs.
  destruct (history_files w1 !! history_name run_at) as [[| |old]|] eqn:Hfile.
  1,2: right; left; exists w1; split; [done|];
       rewrite (bind_raise _ _ _ JSONDecodeError w1); [done|];
       apply save_history_corrupt; rewrite Hfile; by (left + right).
  all: right; right.
  all: rewrite (bind_ok _ _ _ tt
                  (write_history (history_name run_at)
                     (appended (history_files w1 !! history_name run_at) run_at rbk) w1));
    [|apply save_history_run; rewrite Hfile; intros d [= <-]; by eexists].
  all: set (w1' := write_history _ _ w1).
  all: destruct (_save_activity run_at rbk w1') as [[new_entries|e] w2] eqn:Hact.
  all: try (left; eexists w1, _, e; split; [done|];
            rewrite (bind_raise _ _ _ _ _ Hact);
            by rewrite (save_activity_raises _ _ _ _ _ Hact)).
  all: right; exists w1, (appended (history_files w1 !! history_name run_at) run_at rbk),
         rbk, new_entries, w2; split; [done|]; split; [exact Hact|].
  all: rewrite (bind_ok _ _ _ _ _ Hact); by rewrite bind_print.
Qed.

End Stages.

(** ** What the notification step does *)

Lemma attempt_requests token chat_id l refs :
  Forall (λ req, ∃ message, req = TelegramPost token chat_id message)
    (omap (attempt_of token chat_id l) refs).
Proof.
  induction refs as [|ref refs IH]; [constructor|].
  cbn [omap list_omap]. unfold attempt_of at 1.
  destruct (l !! ref) as [e|]; [|done].
  destruct (truthy _); [|done]. constructor; [by eexists|done].
Qed.

Lemma wrote_searched w w' : searched w w' → wrote [] w w'.
Proof. intros (evs & -> & Hw & _). by exists evs. Qed.

Lemma wrote_trans files files' w1 w2 w3 :
  wrote files w1 w2 → wrote files' w2 w3 → wrote (files ++ files') w1 w3.
Proof.
  intros (evs & Ht & Hw) (evs' & Ht' & Hw'). exists (evs ++ evs').
  split; [by rewrite Ht', Ht, app_assoc|]. by rewrite writes_of_app, Hw, Hw'.
Qed.

Lemma wrote_write_history name day w : wrote [HistoryFile name] w (write_history name day w).
Proof. by exists [EWrite (HistoryFile name)]. Qed.

Lemma wrote_write_activity l w : wrote [ActivityFile] w (write_activity l w).
Proof. by exists [EWrite ActivityFile]. Qed.

Lemma wrote_log_print msg w : wrote [] w (log (EPrint msg) w).
Proof. by exists [EPrint msg]. Qed.

Lemma wrote_stepped w evs msg l :
  writes_of evs = [] →
  wrote [TelegramBotFile] w (stepped w (evs ++ [EWrite TelegramBotFile; EPrint msg]) l).
Proof.
  intros Hw. eexists. split; [done|]. by rewrite writes_of_app, Hw.
Qed.

Section Notification.

Context (server : list event → request → outcome).

(** X16: what [_sync_telegram_bot_and_send] does.  When it raises, it has
    done nothing.  When it returns, it has written telegram_bot.json once
    and no other file; every request it made is a message to the
    configured chat with the configured token, at most one per pending
    entry, and none at all unless both credentials are set; and every entry
    that was in the queue is still at its place, untouched or with its flag
    set to sent after a delivery that was confirmed. *)
Theorem sync_effect new_entries w :
  let queue := (reconciled w new_entries).2 in
  match _sync_telegram_bot_and_send server new_entries w with
  | (Raise _, w') => w' = w
  | (Ok _, w') =>
      ∃ evs l',
        w' = stepped w evs l'
        ∧ writes_of evs = [TelegramBotFile]
        ∧ Forall (λ req, ∃ message,
                    req = TelegramPost (env_token w) (env_chat_id w) message)
            (requests_of evs)
        ∧ (length (requests_of evs) ≤ length (pending_refs queue))%nat
        ∧ (env_credentials w = false → requests_of evs = [])
        ∧ entries (telegram_bot_file w) `prefix_of` queue
        ∧ delivery_of (env_token w) (env_chat_id w) queue evs l'
  end.
Proof.
  cbv zeta.
  destruct (sync_cases server new_entries w) as [[_ [e ->]]|[_ ->]]; [done|].
  destruct (deliver_pending_post server (environ w !! "TELEGRAM_BOT_TOKEN")
              (environ w !! "TELEGRAM_GROUP_CHAT_ID")
              (reconciled w new_entries).2 w)
    as (l' & evs & msg & -> & Hdel & Hreq & Hw & _).
  fold (env_token w) (env_chat_id w) (env_credentials w) in Hdel, Hreq.
  exists (evs ++ [EWrite TelegramBotFile; EPrint msg]), l'.
  assert (Hreqs : requests_of (evs ++ [EWrite TelegramBotFile; EPrint msg])
                  = requests_of evs).
  { by rewrite requests_of_app, app_nil_r. }
  rewrite Hreqs. split_and!.
  - done.
  - by rewrite writes_of_app, Hw.
  - rewrite Hreq. destruct (env_credentials w); [apply attempt_requests|constructor].
  - rewrite Hreq. destruct (env_credentials w); [apply length_omap_le|simpl; lia].
  - intros Hc. by rewrite Hreq, Hc.
  - destruct (reconciled_extends w new_entries) as (added & -> & _). by exists added.
  - eapply delivery_of_mono; [|exact Hdel]. intros ev Hev. apply elem_of_app. by left.
Qed.

(** X17: a run writes its files in one order: the day file, then the
    activity store, then the notification queue, each once.  Whatever
    happens, the files written are a beginning of this list, and they are
    all three exactly when the run returns; a run that raises has stopped
    before the file it did not write. *)
Theorem run_writes_in_order run_at w :
  let out := run_keywords_main server run_at w in
  ∃ files,
    wrote files w out.2
    ∧ files `prefix_of` run_files run_at
    ∧ (out.1 = Ok tt ↔ files = run_files run_at).
Proof.
  cbv zeta.
  destruct (run_stages server run_at w)
    as [(e & w1 & -> & H1)
       |[(w1 & H1 & ->)
        |[(w1 & day & e & H1 & ->)
         |(w1 & day & rbk & new_entries & w2 & H1 & Hact & ->)]]].
  - exists []. split_and!; [by apply wrote_searched|apply prefix_nil|done].
  - exists []. split_and!; [by apply wrote_searched|apply prefix_nil|done].
  - exists [HistoryFile (history_name run_at)]. split_and!.
    + apply (wrote_trans [] [_] w w1); [by apply wrote_searched|].
      apply wrote_write_history.
    + by eexists.
    + done.
  - destruct (save_activity_effect _ _ _ _ _ Hact) as (existing & _ & _ & _ & ->).
    set (w1' := write_history (history_name run_at) day w1).
    set (w3 := log _ (write_activity _ w1')).
    assert (H3 : wrote [HistoryFile (history_name run_at); ActivityFile] w w3).
    { apply (wrote_trans [] [_; _] w w1); [by apply wrote_searched|].
      apply (wrote_trans [_] [_] w1 w1'); [apply wrote_write_history|].
      apply (wrote_trans [_] [] w1' (write_activity (existing ++ new_entries) w1'));
        [apply wrote_write_activity|apply wrote_log_print]. }
    destruct (sync_cases server new_entries w3) as [[_ [e Hs]]|[_ Hs]].
    { rewrite (bind_raise _ _ _ _ _ Hs).
      exists [HistoryFile (history_name run_at); ActivityFile].
      split_and!; [done|by eexists|done]. }
    destruct (deliver_pending_post server (environ w3 !! "TELEGRAM_BOT_TOKEN")
                (environ w3 !! "TELEGRAM_GROUP_CHAT_ID")
                (reconciled w3 new_entries).2 w3)
      as (l' & evs & msg & Hd & _ & _ & Hw & _).
    rewrite Hd in Hs. rewrite (bind_ok _ _ _ _ _ Hs).
    destruct (report_saved_run run_at
                (stepped w3 (evs ++ [EWrite TelegramBotFile; EPrint msg]) l'))
      as [msg' ->].
    exists (run_files run_at). split_and!; [|done|done].
    apply (wrote_trans [_; _] [_] w w3); [done|].
    apply (wrote_trans [_] [] w3
             (stepped w3 (evs ++ [EWrite TelegramBotFile; EPrint msg]) l'));
      [by apply wrote_stepped|apply wrote_log_print].
Qed.

End Notification.

(** ** The queue holds no url twice *)

Lemma url_of_queue_entry sent e : url_of (queue_entry sent e) = get e "url".
Proof. unfold url_of, get. by rewrite queue_entry_url. Qed.

Lemma queue_add_ok sent st e : queue_ok st → queue_ok (queue_add sent st e).
Proof.
  destruct st as [seen l]. intros (Hseen & Hurl & Hd). cbn [fst snd] in *.
  unfold queue_add.
  destruct (truthy (get e "url")) eqn:Ht; [|done].
  destruct (bool_decide (get e "url" ∈ seen)) eqn:Hin; [done|].
  apply bool_decide_eq_false in Hin. cbn [negb andb].
  split_and!; cbn [fst snd].
  - rewrite urls_app, urls_queue_entry, Hseen. set_solver.
  - apply Forall_app. split; [done|]. constructor; [|done].
    eexists. apply queue_entry_url.
  - unfold distinct_urls. rewrite fmap_app. apply NoDup_app. split; [done|].
    split; [|apply NoDup_singleton].
    intros u (e0 & -> & Hin0)%list_elem_of_fmap Hu.
    cbn [fmap list_fmap] in Hu. apply list_elem_of_singleton in Hu.
    rewrite url_of_queue_entry in Hu. apply Hin. rewrite Hseen, <- Hu.
    apply url_of_in_urls; [|done]. rewrite Forall_forall in Hurl. by apply Hurl.
Qed.

Lemma queue_loop_ok sent es st : queue_ok st → queue_ok (fold_left (queue_add sent) es st).
Proof.
  revert st. induction es as [|e es IH]; intros st Hst; [done|].
  cbn [fold_left]. by apply IH, queue_add_ok.
Qed.

(** The loop over entries whose urls are all seen adds nothing. *)
Lemma queue_loop_seen sent es st :
  (∀ e, e ∈ es → truthy (get e "url") = true → get e "url" ∈ st.1) →
  fold_left (queue_add sent) es st = st.
Proof.
  induction es as [|e es IH]; intros Hseen; [done|].
  cbn [fold_left].
  assert (Hstep : queue_add sent st e = st).
  { destruct st as [seen l]. unfold queue_add.
    destruct (truthy (get e "url")) eqn:Ht; [|done].
    rewrite bool_decide_eq_true_2; [done|].
    apply Hseen; [apply elem_of_cons; by left|done]. }
  rewrite Hstep. apply IH. intros e' Hin. apply Hseen. apply elem_of_cons. by right.
Qed.

Lemma reconciled_ok w new_entries :
  Forall has_url (entries (telegram_bot_file w)) →
  distinct_urls (entries (telegram_bot_file w)) →
  queue_ok (reconciled w new_entries).
Proof.
  intros Hurl Hd. unfold reconciled. apply queue_loop_ok.
  assert (H0 : queue_ok (urls (entries (telegram_bot_file w)),
                         entries (telegram_bot_file w))) by done.
  destruct (entries (telegram_bot_file w)); [|done].
  destruct (activity_file w); [|done]. by apply queue_loop_ok.
Qed.

Lemma delivery_of_url_list token chat_id l evs l' :
  delivery_of token chat_id l evs l' → url_of <$> l' = url_of <$> l.
Proof.
  intros [Hlen Hd]. apply list_eq. intros k. rewrite !list_lookup_fmap.
  destruct (l !! k) as [e|] eqn:He.
  - destruct (Hd _ _ He) as [-> | (-> & _)]; [done|]. cbn.
    unfold url_of. by rewrite get_insert_ne.
  - rewrite (lookup_ge_None_2 l'); [done|].
    rewrite Hlen. by apply lookup_ge_None.
Qed.

Lemma reset_all_url_list l : url_of <$> reset_all l = url_of <$> l.
Proof.
  unfold reset_all. rewrite <- list_fmap_compose. apply list_fmap_ext.
  intros k e _. cbn. unfold url_of. by rewrite get_insert_ne.
Qed.

Section Distinct.

Context (server : list event → request → outcome).

Lemma distinct_run run_at w :
  consistent w → stores_distinct w →
  stores_distinct (run_keywords_main server run_at w).2.
Proof.
  intros Hw [Hda Hdb].
  destruct (run_main_cases server run_at w)
    as [(e & w' & -> & Ha & Hb & _)
       |(rbk & w1 & new_entries & w2 & (Ha1 & Hb1 & _) & Hact & ->)].
  { unfold stores_distinct. cbn [snd]. by rewrite Ha, Hb. }
  destruct Hw as (Hra & Hrb & Hwf & Hurl & Hsub).
  destruct (save_activity_recorded _ _ _ _ _ Hact)
    as (Hurl_old & -> & Hd_new & Hfresh & Hall & _).
  rewrite Ha1 in Hurl_old, Hfresh |- *.
  set (old := entries (activity_file w)) in *.
  set (w3 := log _ (write_activity _ w1)).
  assert (Ha3 : activity_file w3 = Some (Parsed (JList (old ++ new_entries)))) by done.
  assert (Hb3 : telegram_bot_file w3 = telegram_bot_file w) by exact Hb1.
  assert (Hd3 : distinct_urls (old ++ new_entries)).
  { unfold distinct_urls. rewrite fmap_app. apply NoDup_app. split; [done|].
    split; [|done]. intros u (e1 & -> & Hin1)%list_elem_of_fmap
                              (e2 & Heq & Hin2)%list_elem_of_fmap.
    apply (Hfresh e2 Hin2). rewrite <- Heq. apply url_of_in_urls; [|done].
    rewrite Forall_forall in Hurl_old. by apply Hurl_old. }
  destruct (sync_cases server new_entries w3) as [[_ [e Hs]]|[_ Hs]].
  { rewrite (bind_raise _ _ _ _ _ Hs). unfold stores_distinct. cbn [snd].
    by rewrite Ha3, Hb3. }
  destruct (deliver_pending_post server (environ w3 !! "TELEGRAM_BOT_TOKEN")
              (environ w3 !! "TELEGRAM_GROUP_CHAT_ID")
              (reconciled w3 new_entries).2 w3)
    as (l' & evs & msg & Hd & Hdel & _).
  rewrite Hd in Hs. rewrite (bind_ok _ _ _ _ _ Hs).
  destruct (report_saved_run run_at
              (stepped w3 (evs ++ [EWrite TelegramBotFile; EPrint msg]) l'))
    as [msg' ->].
  destruct (reconciled_ok w3 new_entries) as (_ & _ & Hdq); [by rewrite Hb3..|].
  set (w4 := (Ok (), log _ (stepped w3 _ l')).2).
  assert (Ha4 : activity_file w4 = Some (Parsed (JList (old ++ new_entries)))) by done.
  assert (Hb4 : telegram_bot_file w4 = Some (Parsed (JList l'))) by done.
  unfold stores_distinct. rewrite Ha4, Hb4. cbn [entries]. split; [done|].
  unfold distinct_urls. by rewrite (delivery_of_url_list _ _ _ _ _ Hdel).
Qed.

Lemma distinct_send resend_all w :
  stores_distinct w →
  stores_distinct (send_telegram_pending_main server resend_all w).2.
Proof.
  intros [Hda Hdb].
  destruct (send_main_cases server resend_all w)
    as [evs [(-> & _)|(l' & tail & -> & _ & _ & Hd & _)]]; [done|].
  set (w4 := (Ok (), stepped w _ l').2).
  assert (Ha4 : activity_file w4 = activity_file w) by done.
  assert (Hb4 : telegram_bot_file w4 = Some (Parsed (JList l'))) by done.
  unfold stores_distinct. rewrite Ha4, Hb4. cbn [entries]. split; [done|].
  unfold distinct_urls. rewrite (delivery_of_url_list _ _ _ _ _ Hd).
  unfold loaded_for_send. destruct resend_all; [|done]. by rewrite reset_all_url_list.
Qed.

Lemma distinct_ops ops w :
  consistent w → stores_distinct w → stores_distinct (exec_ops server ops w).
Proof.
  revert w. induction ops as [|o ops IH]; intros w Hw Hd; [done|].
  simpl. apply IH; [by apply consistent_op|].
  destruct o as [env cfg|run_at|resend_all]; simpl.
  - done.
  - by apply distinct_run.
  - by apply distinct_send.
Qed.

(** X19: no url is recorded twice, and none is queued twice.  Starting
    with no activity store and no notification queue, after any sequence of
    runs, uses of the resend script and edits of the configuration, the
    urls of the entries of the activity store are pairwise different, and
    so are those of the queue. *)
Theorem urls_stay_distinct ops w :
  activity_file w = None →
  telegram_bot_file w = None →
  distinct_urls (entries (activity_file (exec_ops server ops w)))
  ∧ distinct_urls (entries (telegram_bot_file (exec_ops server ops w))).
Proof.
  intros Ha Hb. apply distinct_ops.
  - unfold consistent, activity_urls, queue_urls. rewrite Ha, Hb.
    repeat split; try by left. all: done.
  - unfold stores_distinct. rewrite Ha, Hb. split; apply NoDup_nil_2.
Qed.

(** X18: a run that starts with an empty notification queue -- the file
    absent, unusable or an empty list -- and returns has asked nothing of
    Telegram, whatever it found: every entry of the queue it leaves is
    flagged as sent, and every non-empty url of the activity store, the
    ones found in this run included, is in that queue. *)
Theorem run_on_empty_queue run_at w :
  entries (telegram_bot_file w) = [] →
  (run_keywords_main server run_at w).1 = Ok tt →
  let w' := (run_keywords_main server run_at w).2 in
  telegram_free w w'
  ∧ Forall (λ e, get e "telegram_sent" = VBool true) (entries (telegram_bot_file w'))
  ∧ ∀ e, e ∈ entries (activity_file w') → truthy (url_of e) = true →
         url_of e ∈ queue_urls w'.
Proof.
  intros Hempty. cbv zeta.
  destruct (run_stages server run_at w)
    as [(e & w1 & -> & H1)
       |[(w1 & H1 & ->)
        |[(w1 & day & e & H1 & ->)
         |(w1 & day & rbk & new_entries & w2 & H1 & Hact & ->)]]]; try done.
  destruct H1 as (evs1 & -> & _ & Hreq1).
  set (w1 := set_trace (trace w ++ evs1) w) in *.
  set (w1' := write_history (history_name run_at) day w1) in *.
  destruct (save_activity_recorded _ _ _ _ _ Hact)
    as (Hurl_old & -> & _ & _ & Hall & _).
  set (old := entries (activity_file w1')) in *.
  set (w3 := log _ (write_activity _ w1')).
  assert (Ha3 : activity_file w3 = Some (Parsed (JList (old ++ new_entries)))) by done.
  assert (Hb3 : entries (telegram_bot_file w3) = []) by exact Hempty.
  assert (Ht3 : ∃ evs3, trace w3 = trace w ++ evs3
                        ∧ requests_of evs3 = requests_of evs1).
  { eexists. split.
    - unfold w3, w1', w1, write_activity, write_history, log, set_trace,
        set_activity, set_history. cbn [trace].
      rewrite <- !app_assoc. reflexivity.
    - by rewrite !requests_of_app, !app_nil_r. }
  destruct Ht3 as (evs3 & Ht3 & Hreq3).
  destruct (sync_cases server new_entries w3) as [[_ [e Hs]]|[_ Hs]].
  { by rewrite (bind_raise _ _ _ _ _ Hs). }
  (* the list handed to the delivery step *)
  assert (Hrec : ∃ added,
             reconciled w3 new_entries = (urls added, added)
             ∧ Forall (λ e, get e "telegram_sent" = VBool true) added
             ∧ ∀ e, e ∈ old ++ new_entries → truthy (get e "url") = true →
                    get e "url" ∈ urls added).
  { unfold reconciled. rewrite Hb3, Ha3. cbn [entries].
    destruct (queue_loop_spec true (old ++ new_entries) (urls [], []))
      as (added & Hq & Hs1 & Hadded & Hseen).
    destruct (fold_left (queue_add true) (old ++ new_entries) (urls [], []))
      as [seen q] eqn:Hfold.
    cbn [fst snd app] in Hq, Hs1, Hseen. subst q.
    rewrite urls_nil, (right_id_L ∅ (∪)) in Hs1. subst seen. exists added.
    rewrite queue_loop_seen.
    - split_and!; [done| |done].
      eapply Forall_impl; [done|]. intros a (e & _ & _ & ->). apply queue_entry_sent.
    - intros e Hin Ht. cbn [fst]. apply Hseen; [|done].
      apply elem_of_app. by right. }
  destruct Hrec as (added & Hrec & Hsent & Hcover).
  destruct (deliver_pending_post server (environ w3 !! "TELEGRAM_BOT_TOKEN")
              (environ w3 !! "TELEGRAM_GROUP_CHAT_ID")
              (reconciled w3 new_entries).2 w3)
    as (l' & evs & msg & Hd & _ & Hreq & _ & Hsame & _).
  rewrite Hrec in Hd, Hreq, Hsame. cbn [snd] in Hd, Hreq, Hsame.
  assert (Hnone : pending_refs added = []).
  { apply pending_refs_none. eapply Forall_impl; [done|]. by intros e ->. }
  rewrite Hsame in Hd by by left. rewrite Hrec in Hs. cbn [snd] in Hs.
  rewrite Hd in Hs. rewrite (bind_ok _ _ _ _ _ Hs).
  destruct (report_saved_run run_at
              (stepped w3 (evs ++ [EWrite TelegramBotFile; EPrint msg]) added))
    as [msg' ->].
  intros _. cbn [snd].
  set (w4 := log _ (stepped w3 _ added)).
  assert (Ha4 : activity_file w4 = Some (Parsed (JList (old ++ new_entries)))) by done.
  assert (Hb4 : telegram_bot_file w4 = Some (Parsed (JList added))) by done.
  split_and!.
  - exists (evs3 ++ (evs ++ [EWrite TelegramBotFile; EPrint msg]) ++ [EPrint msg']).
    split.
    + unfold w4, log, stepped, set_trace. cbn [trace]. rewrite Ht3.
      by rewrite <- !app_assoc.
    + rewrite !requests_of_app, Hreq3, Hreq, Hnone.
      destruct (have_credentials _ _); cbn [omap list_omap]; by rewrite !app_nil_r.
  - by rewrite Hb4.
  - rewrite Ha4. unfold queue_urls. rewrite Hb4. cbn [entries].
    intros e Hin Ht. by apply Hcover.
Qed.

End Distinct.

(** ** Counting what was sent *)

Lemma confirmed_app evs evs' : confirmed (evs ++ evs') = confirmed evs ++ confirmed evs'.
Proof. apply omap_app. Qed.

Lemma confirmed_progress i total sent : confirmed (progress_events i total sent) = [].
Proof. unfold progress_events. by destruct (_ || _). Qed.

Lemma confirmed_attempt req o :
  confirmed [ERequest req o] = if (telegram_result o).1 then [req] else [].
Proof.
  destruct o as [msg|r]; [done|]. unfold confirmed, telegram_result. cbn.
  by destruct (status_code r =? 200).
Qed.

Lemma is_False_not_sent (e : dict) :
  is_False (get e "telegram_sent") = true → get e "telegram_sent" ≠ VBool true.
Proof. by destruct (get e "telegram_sent") as [|[]|]. Qed.

Lemma sent_entries_insert (l : list dict) ref (e e' : dict) :
  l !! ref = Some e →
  get e "telegram_sent" ≠ VBool true →
  get e' "telegram_sent" = VBool true →
  length (sent_entries (<[ref := e']> l)) = S (length (sent_entries l)).
Proof.
  intros Hl Hn Hy.
  rewrite insert_take_drop by (by eapply lookup_lt_Some).
  rewrite <- (take_drop_middle l ref e Hl) at 3.
  unfold sent_entries. rewrite !filter_app, !filter_cons.
  rewrite decide_True by done. rewrite decide_False by done.
  rewrite !length_app. cbn [length]. lia.
Qed.

Lemma trace_set_trace t w : trace (set_trace t w) = t.
Proof. done. Qed.

Lemma enumerate_snd {A} (l : list A) : (enumerate l).*2 = l.
Proof. unfold enumerate. apply snd_zip. by rewrite length_seq. Qed.

(** The position handled next was not handled before. *)
Lemma enumerate_fresh l (pre post : list (nat * nat)) i ref :
  enumerate (pending_refs l) = pre ++ (i, ref) :: post →
  (ref ∉ pre.*2) ∧ ref ∈ pending_refs l.
Proof.
  intros Hl. pose proof (pending_refs_NoDup l) as Hnd.
  rewrite <- (enumerate_snd (pending_refs l)), Hl in Hnd.
  rewrite fmap_app, fmap_cons in Hnd. cbn [snd] in Hnd.
  apply NoDup_app in Hnd as (_ & Hdis & _). split.
  - intros Hin. apply (Hdis _ Hin). apply elem_of_cons. by left.
  - rewrite <- (enumerate_snd (pending_refs l)), Hl, fmap_app, fmap_cons.
    apply elem_of_app. right. apply elem_of_cons. by left.
Qed.

Section Counting.

Context (server : list event → request → outcome).

(** X20: the count a delivery pass reports is exact.  The pass never
    raises; the number it counts as sent is the number of its requests that
    were answered with status 200, and it is the number of entries whose
    flag the pass has set: the list has that many more entries flagged as
    sent than before.  It is at most the number of pending entries. *)
Theorem sent_count_is_exact token chat_id l w :
  ∃ st evs,
    send_loop server token chat_id l (pending_refs l) w
      = (Ok st, set_trace (trace w ++ evs) w)
    ∧ st_sent_count st = length (confirmed evs)
    ∧ length (sent_entries (st_bot_list st))
      = (length (sent_entries l) + st_sent_count st)%nat
    ∧ (st_sent_count st ≤ length (pending_refs l))%nat.
Proof.
  unfold send_loop.
  destruct (for_each_prefix_inv
              (send_one server token chat_id (length (pending_refs l)))
              (λ visited st w',
                 ∃ evs, w' = set_trace (trace w ++ evs) w
                        ∧ st_sent_count st = length (confirmed evs)
                        ∧ length (sent_entries (st_bot_list st))
                          = (length (sent_entries l) + st_sent_count st)%nat
                        ∧ (st_sent_count st ≤ length visited)%nat
                        ∧ ∀ k, k ∉ visited.*2 → st_bot_list st !! k = l !! k)
              (enumerate (pending_refs l))) with
    (a := {| st_bot_list := l; st_sent_count := 0%nat; st_first_error := "" |})
    (s := w) as (st & w' & Hrun & evs & -> & Hcount & Hsent & Hle & _).
  - intros pre [i ref] post st w' Hl (evs & -> & Hcount & Hsent & Hle & Hrest).
    destruct (enumerate_fresh l pre post i ref Hl) as [Hfresh Hpending].
    apply elem_of_pending_refs in Hpending as (e & He & Hflag).
    assert (Hst : st_bot_list st !! ref = Some e) by (by rewrite Hrest).
    assert (Hkeep : ∀ k, k ∉ (pre ++ [(i, ref)]).*2 → k ∉ pre.*2).
    { intros k Hk Hin. apply Hk. rewrite fmap_app. apply elem_of_app. by left. }
    destruct (truthy (get_or e "url" (VStr ""))) eqn:Hurl.
    2:{ exists st, (set_trace (trace w ++ evs) w).
        split; [by eapply send_one_skip|]. exists evs.
        split_and!; try done; [rewrite length_app; lia|].
        intros k Hk. by apply Hrest, Hkeep. }
    pose proof (send_one_attempt server token chat_id (length (pending_refs l))
                  st i ref e (set_trace (trace w ++ evs) w) Hst Hurl) as Hone.
    cbv zeta in Hone. rewrite trace_set_trace in Hone.
    set (req := TelegramPost token chat_id (message_of e)) in *.
    set (o := server (trace w ++ evs) req) in *.
    set (st' := after_attempt st ref e (telegram_result o)) in *.
    exists st'. eexists. split; [exact Hone|].
    exists (evs ++ [ERequest req o]
              ++ progress_events i (length (pending_refs l)) (st_sent_count st')
              ++ [ESleep]).
    split; [by rewrite set_trace_set_trace, <- app_assoc|].
    rewrite !confirmed_app, confirmed_progress, confirmed_attempt, !length_app.
    change (confirmed [ESleep]) with (@nil request).
    unfold st', after_attempt.
    destruct (telegram_result o) as [[] err] eqn:Hres; cbn [fst snd].
    + cbn [st_sent_count st_bot_list length]. split_and!; try lia.
      * rewrite (sent_entries_insert (st_bot_list st) ref e); [lia|done| |].
        -- by apply is_False_not_sent.
        -- unfold get. by rewrite lookup_insert_eq.
      * intros k Hk. rewrite list_lookup_insert_ne; [by apply Hrest, Hkeep|].
        intros ->. apply Hk. rewrite fmap_app. apply elem_of_app. right.
        apply elem_of_cons. by left.
    + destruct (String.eqb (st_first_error st) "");
        cbn [st_sent_count st_bot_list length]; (split_and!; try lia);
        intros k Hk; by apply Hrest, Hkeep.
  - exists []. rewrite app_nil_r, set_trace_trace. by split_and!.
  - exists st, evs. split_and!; try done.
    rewrite <- (enumerate_snd (pending_refs l)). by rewrite length_fmap.
Qed.

(** A pass over a list whose entries all have a url, with a Telegram that
    accepts every message, leaves nothing pending. *)
Lemma send_loop_all_accepted token chat_id l w :
  (∀ t req, is_telegram req = true → ∃ r, server t req = inr r ∧ status_code r = 200) →
  Forall (λ e : dict, truthy (get_or e "url" (VStr "")) = true) l →
  ∃ st w',
    send_loop server token chat_id l (pending_refs l) w = (Ok st, w')
    ∧ pending_refs (st_bot_list st) = [].
Proof.
  intros Haccept Hurls. unfold send_loop.
  destruct (for_each_prefix_inv
              (send_one server token chat_id (length (pending_refs l)))
              (λ visited st (w' : world),
                 length (st_bot_list st) = length l
                 ∧ ∀ k e, l !! k = Some e →
                     st_bot_list st !! k
                     = Some (if bool_decide (k ∈ visited.*2)
                             then <["telegram_sent" := VBool true]> e else e))
              (enumerate (pending_refs l))) with
    (a := {| st_bot_list := l; st_sent_count := 0%nat; st_first_error := "" |})
    (s := w) as (st & w' & Hrun & Hlen & Hall).
  - intros pre [i ref] post st w' Hl (Hlen & Hall).
    destruct (enumerate_fresh l pre post i ref Hl) as [Hfresh Hpending].
    apply elem_of_pending_refs in Hpending as (e & He & Hflag).
    assert (Hst : st_bot_list st !! ref = Some e).
    { rewrite (Hall _ _ He). by rewrite bool_decide_eq_false_2. }
    assert (Hurl : truthy (get_or e "url" (VStr "")) = true).
    { rewrite Forall_lookup in Hurls. by eapply Hurls. }
    pose proof (send_one_attempt server token chat_id (length (pending_refs l))
                  st i ref e w' Hst Hurl) as Hone.
    cbv zeta in Hone.
    destruct (Haccept (trace w') (TelegramPost token chat_id (message_of e)) eq_refl)
      as (r & Ho & Hok).
    rewrite Ho in Hone. unfold telegram_result, after_attempt in Hone.
    replace (status_code r =? 200) with true in Hone
      by (symmetry; by apply Z.eqb_eq).
    cbn [fst snd] in Hone.
    eexists _, _. split; [exact Hone|]. cbn [st_bot_list]. split.
    + by rewrite length_insert.
    + intros k e' He'. rewrite fmap_app, fmap_cons. cbn [snd fmap list_fmap].
      destruct (decide (k = ref)) as [->|Hne].
      * rewrite He in He'. injection He' as <-.
        rewrite list_lookup_insert_eq by (by eapply lookup_lt_Some).
        rewrite bool_decide_eq_true_2; [done|].
        apply elem_of_app. right. apply elem_of_cons. by left.
      * rewrite list_lookup_insert_ne by done. rewrite (Hall _ _ He').
        assert (Hsame : bool_decide (k ∈ pre.*2 ++ [ref]) = bool_decide (k ∈ pre.*2)).
        { apply bool_decide_ext. rewrite elem_of_app, list_elem_of_singleton.
          naive_solver. }
        by rewrite Hsame.
  - split; [done|]. intros k e He. by rewrite bool_decide_eq_false_2 by apply not_elem_of_nil.
  - exists st, w'. split; [done|]. rewrite enumerate_snd in Hall.
    apply pending_refs_none. apply Forall_lookup. intros k x Hx.
    destruct (l !! k) as [e|] eqn:He.
    2:{ apply lookup_ge_None in He. apply lookup_lt_Some in Hx. lia. }
    rewrite (Hall _ _ He) in Hx. injection Hx as <-.
    destruct (decide (k ∈ pending_refs l)) as [Hin|Hin].
    + rewrite bool_decide_eq_true_2 by done. unfold get. by rewrite lookup_insert_eq.
    + rewrite bool_decide_eq_false_2 by done.
      destruct (is_False (get e "telegram_sent")) eqn:Hflag; [|done].
      exfalso. apply Hin. apply elem_of_pending_refs. by exists e.
Qed.

(** The resend script once it has its credentials and its file. *)
Lemma send_main_loaded resend_all w d :
  env_credentials w = true →
  telegram_bot_file w = Some d →
  send_telegram_pending_main server resend_all w
  = if resend_all then
      send_pending server true (environ w !! "TELEGRAM_BOT_TOKEN")
        (environ w !! "TELEGRAM_GROUP_CHAT_ID") (reset_all (entries (Some d)))
        (log (EPrint "Marked all entries as unsent (telegram_sent: false).") w)
    else
      send_pending server false (environ w !! "TELEGRAM_BOT_TOKEN")
        (environ w !! "TELEGRAM_GROUP_CHAT_ID") (entries (Some d)) w.
Proof.
  intros Hc Hfile.
  unfold send_telegram_pending_main, env_credentials, have_credentials in *.
  rewrite !bind_read.
  set (token := environ w !! "TELEGRAM_BOT_TOKEN") in *.
  set (chat_id := environ w !! "TELEGRAM_GROUP_CHAT_ID") in *.
  assert (negb (truthy_str token) || negb (truthy_str chat_id) = false) as ->.
  { destruct (truthy_str token), (truthy_str chat_id); done. }
  rewrite bind_read, Hfile.
  rewrite (bind_ok _ _ _ _ _ (read_bot_list_total d w)).
  destruct resend_all.
  - by rewrite bind_assoc, bind_print, bind_ret.
  - by rewrite bind_ret.
Qed.

(** What [send_pending] leaves in the file when something is pending. *)
Lemma send_pending_writes resend_all token chat_id l w st w1 :
  pending_refs l ≠ [] →
  send_loop server (default "" token) (default "" chat_id) l (pending_refs l)
    (log (EPrint ("Sending " +:+ str_nat (length (pending_refs l))
                  +:+ " URLs (one per message). Progress below:")) w)
  = (Ok st, w1) →
  ∃ w2,
    send_pending server resend_all token chat_id l w = (Ok tt, w2)
    ∧ telegram_bot_file w2 = Some (Parsed (JList (st_bot_list st)))
    ∧ environ w2 = environ w1.
Proof.
  intros Hpending Hloop. unfold send_pending.
  destruct (pending_refs l) as [|p ps] eqn:Hp; [done|].
  rewrite bind_print, (bind_ok _ _ _ _ _ Hloop), bind_modify.
  destruct (negb (st_sent_count st =? 0)%nat).
  - eexists. split; [reflexivity|]. by split.
  - rewrite bind_print. eexists. split; [reflexivity|]. by split.
Qed.

Lemma send_loop_environ token chat_id l pending w st w1 :
  send_loop server token chat_id l pending w = (Ok st, w1) →
  environ w1 = environ w.
Proof.
  intros Hloop. destruct (send_loop_inv server token chat_id l pending w)
    as (st' & w' & Hrun & evs & -> & _).
  rewrite Hrun in Hloop. by injection Hloop as _ <-.
Qed.

(** X21: with a Telegram that accepts every message, and with every entry
    of the queue holding a url, one use of the resend script -- plain or
    with [--resend-all] -- leaves nothing pending: the plain use that
    follows only prints that there is nothing to send; it makes no request
    and does not write the file. *)
Theorem second_send_sends_nothing resend_all w :
  (∀ t req, is_telegram req = true → ∃ r, server t req = inr r ∧ status_code r = 200) →
  env_credentials w = true →
  is_Some (telegram_bot_file w) →
  Forall (λ e : dict, truthy (get_or e "url" (VStr "")) = true)
    (entries (telegram_bot_file w)) →
  let w1 := (send_telegram_pending_main server resend_all w).2 in
  pending_refs (entries (telegram_bot_file w1)) = []
  ∧ send_telegram_pending_main server false w1
    = (Ok tt, log (EPrint "Nothing to send (no entries with telegram_sent: false).") w1).
Proof.
  intros Haccept Hc [d Hfile] Hurls. cbv zeta.
  assert (Hidle : ∀ w1 d1,
            env_credentials w1 = true → telegram_bot_file w1 = Some d1 →
            pending_refs (entries (Some d1)) = [] →
            pending_refs (entries (telegram_bot_file w1)) = []
            ∧ send_telegram_pending_main server false w1
              = (Ok tt, log (EPrint "Nothing to send (no entries with telegram_sent: false).")
                          w1)).
  { intros w1 d1 Hc1 Hf1 Hp1. split; [by rewrite Hf1|].
    rewrite (send_main_loaded false w1 d1 Hc1 Hf1). unfold send_pending.
    by rewrite Hp1, bind_print. }
  rewrite (send_main_loaded resend_all w d Hc Hfile).
  rewrite Hfile in Hurls.
  set (token := environ w !! "TELEGRAM_BOT_TOKEN").
  set (chat_id := environ w !! "TELEGRAM_GROUP_CHAT_ID").
  assert (Hgo : ∀ flag l w0,
            environ w0 = environ w →
            (∃ d0, telegram_bot_file w0 = Some d0 ∧ entries (Some d0) = entries (Some d)) →
            (flag = false → l = entries (Some d)) →
            Forall (λ e : dict, truthy (get_or e "url" (VStr "")) = true) l →
            let w1 := (send_pending server flag token chat_id l w0).2 in
            ∃ d1, env_credentials w1 = true ∧ telegram_bot_file w1 = Some d1
                  ∧ pending_refs (entries (Some d1)) = []).
  { intros flag l w0 Henv (d0 & Hf0 & Hd0) Hplain Hl. cbv zeta.
    assert (Hc0 : ∀ w', environ w' = environ w → env_credentials w' = true).
    { intros w' He. unfold env_credentials in *. by rewrite He. }
    destruct (pending_refs l) as [|p ps] eqn:Hp.
    - unfold send_pending. rewrite Hp, bind_print. destruct flag.
      + exists (Parsed (JList l)). by split_and!; [apply Hc0| |].
      + exists d0. split_and!; [by apply Hc0|done|].
        by rewrite Hd0, <- Hplain.
    - destruct (send_loop_all_accepted (default "" token) (default "" chat_id) l
                  (log (EPrint ("Sending " +:+ str_nat (length (pending_refs l))
                                +:+ " URLs (one per message). Progress below:")) w0)
                  Haccept Hl) as (st & w1 & Hloop & Hnone).
      destruct (send_pending_writes flag token chat_id l w0 st w1) as (w2 & -> & Hf2 & He2);
        [by rewrite Hp|done|].
      exists (Parsed (JList (st_bot_list st))). cbn [snd]. split_and!; [|done|done].
      apply Hc0. rewrite He2. by rewrite (send_loop_environ _ _ _ _ _ _ _ Hloop). }
  destruct resend_all.
  - destruct (Hgo true (reset_all (entries (Some d)))
                (log (EPrint "Marked all entries as unsent (telegram_sent: false).") w))
      as (d1 & Hc1 & Hf1 & Hp1); [done|by exists d|done| |by apply Hidle with d1].
    unfold reset_all. apply Forall_fmap. eapply Forall_impl; [done|].
    intros e He. cbn. by rewrite get_or_insert_ne.
  - destruct (Hgo false (entries (Some d)) w) as (d1 & Hc1 & Hf1 & Hp1);
      [done|by exists d|done|done|by apply Hidle with d1].
Qed.

End Counting.

(** ** What the resend script touches *)

Section Scope.

Context (server : list event → request → outcome).


End Scope.

(** ** The exceptions of a run *)





Section RunErrors.

Context (server : list event → request → outcome).











End RunErrors.

(** ** The properties at concrete inputs *)

Lemma serpapi_pagination_witness :
  ∃ k, (1 ≤ k ≤ 10)%nat
       ∧ (Z.of_nat k - 1) * Z.min 20 (Z.max 10 2) < 100
       ∧ (search_google serp_server "X" 2 None None "lang_en" None None world_serp).2
         = set_trace
             (trace world_serp
              ++ ask serp_server (trace world_serp)
                   (serpapi_pages "X" "s3rp" (Z.min 20 (Z.max 10 2)) 0 k)) world_serp.
Proof.
  apply (serpapi_pagination serp_server "X" 2 None None "lang_en" None None
           world_serp "s3rp"); [lia|reflexivity|reflexivity|done].
Defined.

Lemma google_cse_paging_witness :
  ∃ reqs, (1 ≤ length reqs ≤ 100)%nat
       ∧ cse_pages "g00gle" "cx1" "X" (lr_of "lang_en") 2 1 reqs
       ∧ (search_google quiet_server "X" 2 None None "lang_en" None None world_google).2
         = set_trace (trace world_google ++ ask quiet_server (trace world_google) reqs)
             world_google.
Proof.
  apply (google_cse_paging quiet_server "X" 2 None None "lang_en" None None
           world_google "g00gle" "cx1"); [lia|reflexivity|reflexivity|done|reflexivity|done].
Defined.

Lemma search_returns_after_200_only_witness :
  ∃ evs,
    (search_google serp_server "X" 2 None None "lang_en" None None world_serp).2
    = set_trace (trace world_serp ++ evs) world_serp
    ∧ Forall answered_ok evs.
Proof.
  apply (search_returns_after_200_only serp_server "X" 2 None None "lang_en" None None
           world_serp [found "a" "A"; found "b" "B"]).
  vm_compute. reflexivity.
Defined.

Lemma search_google_client_witness :
  ∃ reqs,
    (search_google serp_server "X" 2 None None "lang_en" None None world_serp).2
    = set_trace (trace world_serp ++ ask serp_server (trace world_serp) reqs) world_serp
    ∧ reqs ≠ []
    ∧ Forall (λ req, is_serpapi req = true ∧ is_google_cse req = negb true) reqs.
Proof.
  apply (search_google_client serp_server "X" 2 None None "lang_en" None None world_serp).
  lia.
Defined.

Lemma google_cse_total_zero_witness :
  search_google zero_server "X" 2 None None "lang_en" None None world_google
  = (Ok [], log (ERequest (GoogleCseGet "g00gle" "cx1" "X" (Z.min 10 2) 1
                             (lr_of "lang_en")) (inr zero_page)) world_google).
Proof.
  apply (google_cse_total_zero zero_server "X" 2 None None "lang_en" None None
           world_google "g00gle" "cx1" zero_page zero_body);
    first [lia | reflexivity | done].
Defined.

Lemma get_links_only_links_witness :
  NoDup [VStr "a"; VStr "b"]
  ∧ Forall (λ v, truthy v = true) [VStr "a"; VStr "b"]
  ∧ len [VStr "a"; VStr "b"] ≤ Z.max 0 2.
Proof.
  apply (proj2 (get_links_only_links serp_server "X" 2 None None None None world_serp)
           [VStr "a"; VStr "b"] links_X.2).
  vm_compute. reflexivity.
Defined.

Lemma command_line_links_only_witness :
  google_search_tool_main serp_server "X" 2 true (world_serp, [])
  = (Ok tt,
     (set_trace (trace links_X.2 ++ ((λ v, EPrint (py_str v)) <$> [VStr "a"; VStr "b"]))
        links_X.2, [])).
Proof.
  apply (command_line_links_only serp_server "X" 2 world_serp [] [VStr "a"; VStr "b"]).
  vm_compute. reflexivity.
Defined.


Lemma recorded_keywords_witness :
  rbk_XYX.*1 = first_occurrences ["X"; "Y"; "X"] ∧ NoDup rbk_XYX.*1.
Proof.
  apply (recorded_keywords serp_server 2 ["X"; "Y"; "X"] world_serp rbk_XYX loop_XYX.2).
  vm_compute. reflexivity.
Defined.

Lemma http_errors_recorded_as_empty_witness :
  for_each (search_keyword busy_server 2) ["X"; "Y"] [] world_serp
  = (Ok (no_results ["X"; "Y"] []),
     set_trace (trace world_serp
                ++ concat ((λ k, serpapi_error_events k "s3rp" 2 busy_page)
                             <$> ["X"; "Y"])) world_serp).
Proof.
  apply (http_errors_recorded_as_empty busy_server 2 ["X"; "Y"] [] world_serp
           "s3rp" busy_page); [lia|reflexivity|done|reflexivity|done].
Defined.


Lemma history_appends_witness :
  ∃ w', _save_history the_clock results_ab fresh_world = (Ok tt, w')
        ∧ day_saved (history_name the_clock)
            {| date := py_prefix 10 the_clock;
               runs := [ {| run_at := the_clock; results := results_ab |} ] |}
            fresh_world w'.
Proof.
  apply (proj1 (proj2 (history_appends the_clock results_ab fresh_world))).
  reflexivity.
Defined.

Lemma history_of_two_runs_witness :
  ∃ w1 w2,
    _save_history the_clock results_ab fresh_world = (Ok tt, w1)
    ∧ _save_history "2026-01-02T09:00:00Z" [] w1 = (Ok tt, w2)
    ∧ history_files w2 !! history_name the_clock
      = Some (Parsed {| date := py_prefix 10 the_clock;
                        runs := [ {| run_at := the_clock; results := results_ab |};
                                  {| run_at := "2026-01-02T09:00:00Z"; results := [] |} ] |}).
Proof.
  apply (history_of_two_runs the_clock results_ab "2026-01-02T09:00:00Z" [] fresh_world);
    reflexivity.
Defined.

Lemma save_activity_records_witness :
  let old := entries (activity_file fresh_world) in
  let new_entries := [activity_entry the_clock "X" (found "a" "A");
                      activity_entry the_clock "X" (found "b" "B")] in
  activity_file after_first_save.2 = Some (Parsed (JList (old ++ new_entries)))
  ∧ distinct_urls new_entries
  ∧ (∀ e, e ∈ new_entries → url_of e ∉ urls old)
  ∧ Forall (entry_from the_clock results_ab) new_entries
  ∧ (∀ keyword its r, (keyword, its) ∈ results_ab → r ∈ its →
       truthy (get r "link") = true → get r "link" ∈ urls (old ++ new_entries))
  ∧ trace after_first_save.2 = trace fresh_world ++ [EWrite ActivityFile]
  ∧ telegram_bot_file after_first_save.2 = telegram_bot_file fresh_world
  ∧ history_files after_first_save.2 = history_files fresh_world.
Proof.
  apply (save_activity_records the_clock results_ab fresh_world).
  vm_compute. reflexivity.
Defined.

Lemma run_on_empty_queue_witness :
  telegram_free world_serp first_run.2
  ∧ Forall (λ e, get e "telegram_sent" = VBool true)
      (entries (telegram_bot_file first_run.2))
  ∧ ∀ e, e ∈ entries (activity_file first_run.2) → truthy (url_of e) = true →
         url_of e ∈ queue_urls first_run.2.
Proof.
  apply (run_on_empty_queue serp_server the_clock world_serp).
  - reflexivity.
  - vm_compute. reflexivity.
Defined.

Lemma urls_stay_distinct_witness :
  distinct_urls (entries (activity_file (exec_ops serp_server ops_demo fresh_world)))
  ∧ distinct_urls (entries (telegram_bot_file (exec_ops serp_server ops_demo fresh_world))).
Proof.
  apply (urls_stay_distinct serp_server ops_demo fresh_world); reflexivity.
Defined.

Lemma second_send_sends_nothing_witness :
  let w1 := (send_telegram_pending_main quiet_server false world_five).2 in
  pending_refs (entries (telegram_bot_file w1)) = []
  ∧ send_telegram_pending_main quiet_server false w1
    = (Ok tt, log (EPrint "Nothing to send (no entries with telegram_sent: false).") w1).
Proof.
  apply (second_send_sends_nothing quiet_server false world_five).
  - intros t req _. exists ok_response. split; reflexivity.
  - reflexivity.
  - by eexists.
  - repeat constructor.
Defined.
